(** * RageFileDriverCrypt_ITG2: the ITG2 encrypted-file reader

    A shallow embedding of [src/RageFileDriverCrypt_ITG2.cpp] (OpenITG) and the
    properties of its header handshake ([OpenInternal]) and of its
    random-access decryption routine ([ReadInternal]).

    Conventions.
    - A byte is [Init.Byte.byte]; C's integer promotion is written out with
      [byte.unsigned] and the truncating store with [byte.of_Z] (coqutil).
    - Machine integers are [Z] with the wrap-around of the declared type
      written at every assignment: [u32] for [unsigned int]/[uint32_t],
      [s32] for [int], [usize] for [size_t] (64-bit data model).
    - Buffers are [list byte]; an indexed store is stdpp's list insert and
      [memcpy]/[memset] are [take]/[drop]/[replicate].
    - The process-wide [g_KnownKeys] is a [gmap]; its key type is the
      ADDRESS of the path's character buffer, as in the source
      ([std::map<const char *, unsigned char*>]). *)

From Stdlib Require Import ZArith Lia ZifyBool.
From stdpp Require Import gmap strings list.
From coqutil Require Import Byte.

Local Open Scope Z_scope.

#[global] Instance byte_inhabited : Inhabited byte := populate Byte.x00.
#[global] Instance byte_eq_dec : EqDecision byte := Byte.byte_eq_dec.

(** ** Machine integers *)

Definition u32 (z : Z) : Z := z mod 2 ^ 32.
Definition s32 (z : Z) : Z := (z + 2 ^ 31) mod 2 ^ 32 - 2 ^ 31.
Definition usize (z : Z) : Z := z mod 2 ^ 64.

(** Native (little-endian) decoding of an integer field read with
    [ReadDirect(&field, 4)]. *)
Fixpoint le_decode (bs : list byte) : Z :=
  match bs with
  | [] => 0
  | b :: bs' => byte.unsigned b + 256 * le_decode bs'
  end.

(** The [n] bytes an integer occupies in memory. *)
Fixpoint le_encode (n : nat) (z : Z) : list byte :=
  match n with
  | O => []
  | S n' => byte.of_Z z :: le_encode n' (z / 256)
  end.

(** ** Characters and the compiled-in secrets *)

Definition ch_colon : byte := Byte.x3a.  (* ':' *)
Definition ch_bar   : byte := Byte.x7c.  (* '|' *)
Definition ch_8     : byte := Byte.x38.  (* '8' *)
Definition ch_O     : byte := Byte.x4f.  (* 'O' *)
Definition ch_D     : byte := Byte.x44.  (* 'D' *)

Definition ITG2_PATCH_KEY : list byte :=
  String.list_byte_of_string "58691958710496814910943867304986071324198643072".

(** The PC build ([ITG_ARCADE] undefined); in the arcade build [CRYPT_KEY] is
    the empty string. *)
Definition CRYPT_KEY : list byte :=
  String.list_byte_of_string "65487573252940086457044055343188392138734144585".
Definition CRYPT_KEY_ARCADE : list byte := [].

(** [memcpy]/[read] of [src] over the start of [buf]: the bytes of [buf]
    that are not reached keep their previous contents. *)
Definition overwrite (src buf : list byte) : list byte :=
  src ++ drop (length src) buf.

(** Modelled from the spec: [QuantizeUp] (RageUtil.h, absent from src) is
    `round_up(x, 16)`, the least multiple of the interval that is not below
    the argument. *)
Definition QuantizeUp (i iInterval : Z) : Z :=
  (i + iInterval - 1) / iInterval * iInterval.

(** A path string as the program sees it: the address [c_str] of its
    character buffer, and the characters stored there. *)
Record CString := { c_str : Z; chars : string }.

(** The warnings [OpenInternal] logs, one per failing step, in source order. *)
Inductive open_warning :=
| unexpected_header_size        (* line 70 *)
| not_an_arcade_file            (* line 78 *)
| not_a_patch_file              (* line 86 *)
| unexpected_file_size          (* line 94 *)
| unexpected_subkey_size        (* line 103 *)
| short_subkey                  (* line 113 *)
| short_verifyblock             (* line 121 *)
| unexpected_decryption_magic.  (* line 185 *)

#[global] Instance open_warning_eq_dec : EqDecision open_warning.
Proof. solve_decision. Defined.

(** The process-wide state: the key cache, and the trace of [CHECKPOINT_M]
    marks ("dongle", "patch", "cache") in the order they were passed. *)
Record globals := {
  g_KnownKeys : gmap Z (list byte);
  checkpoints : list string
}.

Definition CHECKPOINT_M (m : string) (g : globals) : globals :=
  {| g_KnownKeys := g_KnownKeys g; checkpoints := checkpoints g ++ [m] |}.

Definition save_key (p : Z) (k : list byte) (g : globals) : globals :=
  {| g_KnownKeys := <[p := k]> (g_KnownKeys g); checkpoints := checkpoints g |}.

(** In the specification's words: the header as the HeaderCodec parses it
    (sections 3, 4.1 and 6). *)
Record FileMeta := {
  magic : list byte;
  plaintext_size : Z;
  subkey : list byte;
  verify_block : list byte;
  header_size : Z
}.

(** The operations a caller performs on an open file. *)
Inductive file_op :=
| op_read (bytes : Z)
| op_seek (pos : Z)
| op_tell.

Section Crypt.

(** The external collaborators: the AES primitive (aes/aes.h), SHA-512
    (crypto/CryptSH512.h) and the dongle (ibutton/ibutton.h). *)
Variable aes_decrypt_ctx : Type.
Variable aes_decrypt_key : list byte -> aes_decrypt_ctx.
Variable aes_decrypt : aes_decrypt_ctx -> list byte -> list byte.
Variable SHA512_Simple : list byte -> list byte.
Variable GetAESKey : list byte -> list byte.

(** Indeterminate initial contents of a local or freshly allocated buffer:
    [uninit name k] is byte [k] of the buffer called [name]. *)
Variable uninit : string -> nat -> byte.

Definition new_buffer (name : string) (n : Z) : list byte :=
  uninit name <$> seq 0 (Z.to_nat n).

(** ** The file object *)

Record RageFileObjCrypt_ITG2 := {
  fd_data : list byte;       (* contents of the file behind the descriptor *)
  fd_pos : Z;                (* the descriptor's offset *)
  m_iFilePos : Z;            (* the logical position reported by Tell() *)
  m_iHeaderSize : Z;
  m_iFileSize : Z;
  m_ctx : aes_decrypt_ctx;
  m_sSecret : list byte
}.

Definition set_fd_pos (p : Z) (o : RageFileObjCrypt_ITG2) :=
  {| fd_data := fd_data o; fd_pos := p; m_iFilePos := m_iFilePos o;
     m_iHeaderSize := m_iHeaderSize o; m_iFileSize := m_iFileSize o;
     m_ctx := m_ctx o; m_sSecret := m_sSecret o |}.

Definition set_iFilePos (p : Z) (o : RageFileObjCrypt_ITG2) :=
  {| fd_data := fd_data o; fd_pos := fd_pos o; m_iFilePos := p;
     m_iHeaderSize := m_iHeaderSize o; m_iFileSize := m_iFileSize o;
     m_ctx := m_ctx o; m_sSecret := m_sSecret o |}.

Definition set_iHeaderSize (h : Z) (o : RageFileObjCrypt_ITG2) :=
  {| fd_data := fd_data o; fd_pos := fd_pos o; m_iFilePos := m_iFilePos o;
     m_iHeaderSize := h; m_iFileSize := m_iFileSize o;
     m_ctx := m_ctx o; m_sSecret := m_sSecret o |}.

Definition set_iFileSize (s : Z) (o : RageFileObjCrypt_ITG2) :=
  {| fd_data := fd_data o; fd_pos := fd_pos o; m_iFilePos := m_iFilePos o;
     m_iHeaderSize := m_iHeaderSize o; m_iFileSize := s;
     m_ctx := m_ctx o; m_sSecret := m_sSecret o |}.

Definition set_ctx (c : aes_decrypt_ctx) (o : RageFileObjCrypt_ITG2) :=
  {| fd_data := fd_data o; fd_pos := fd_pos o; m_iFilePos := m_iFilePos o;
     m_iHeaderSize := m_iHeaderSize o; m_iFileSize := m_iFileSize o;
     m_ctx := c; m_sSecret := m_sSecret o |}.

(** ** The raw byte source (RageFileObjDirect, absent from src) *)

(** Modelled from the spec: the raw source's `seek`; a descriptor cannot be
    moved to a negative offset. *)
Definition SeekInternal (offset : Z) (o : RageFileObjCrypt_ITG2)
  : RageFileObjCrypt_ITG2 :=
  if offset <? 0 then o else set_fd_pos offset o.

(** Modelled from the spec: the raw source's `read`: delivers the bytes
    from the descriptor's offset on, fewer than demanded when the file
    ends first, and advances the offset by what it delivered. *)
Definition ReadDirect (n : Z) (o : RageFileObjCrypt_ITG2)
  : list byte * RageFileObjCrypt_ITG2 :=
  let got := take (Z.to_nat n) (drop (Z.to_nat (fd_pos o)) (fd_data o)) in
  (got, set_fd_pos (fd_pos o + Z.of_nat (length got)) o).

(** Modelled from the spec: `tell() = cursor`. *)
Definition Tell (o : RageFileObjCrypt_ITG2) : Z := m_iFilePos o.

(** ** ReadInternal *)

(** The inner loop, lines 242-243:
    [dcbuf[(i*16)+j] = xorbuf[j] ^ (backbuffer[j] - j)]. The operands are
    promoted to [int]; the store truncates to [unsigned char]. *)
Definition xor_store (i : Z) (xorbuf backbuffer : list byte)
    (dcbuf : list byte) (j : Z) : list byte :=
  <[ Z.to_nat (u32 (u32 (i * 16) + j)) :=
       byte.of_Z (Z.lxor (byte.unsigned (xorbuf !!! Z.to_nat j))
                         (byte.unsigned (backbuffer !!! Z.to_nat j) - j)) ]>
    dcbuf.

Definition xor_row (i : Z) (xorbuf backbuffer dcbuf : list byte) : list byte :=
  foldl (xor_store i xorbuf backbuffer) dcbuf (seqZ 0 16).

(** The block loop, lines 236-249; [n] is the number of iterations left. *)
Fixpoint block_loop (ctx : aes_decrypt_ctx) (startpos : Z) (crbuf : list byte)
    (n : nat) (i : Z) (dcbuf backbuffer : list byte) : list byte * list byte :=
  match n with
  | O => (dcbuf, backbuffer)
  | S n' =>
      let block := take 16 (drop (Z.to_nat (u32 (i * 16))) crbuf) in
      let xorbuf := aes_decrypt ctx block in
      let dcbuf' := xor_row i xorbuf backbuffer dcbuf in
      let backbuffer' :=
        if negb (u32 (u32 (startpos + u32 (i * 16)) + 16) mod 4080 =? 0)
        then overwrite block backbuffer
        else replicate 16 Byte.x00 in
      block_loop ctx startpos crbuf n' (u32 (i + 1)) dcbuf' backbuffer'
  end.

(** The result of [ReadInternal]: the returned [int], the bytes stored in
    the caller's buffer, and the object afterwards. *)
Record read_result := {
  rr_ret : Z;
  rr_buffer : list byte;
  rr_obj : RageFileObjCrypt_ITG2
}.

Definition ReadInternal (bytes : Z) (this : RageFileObjCrypt_ITG2)
  : read_result :=
  let oldpos := u32 (Tell this) in
  let startpos := u32 (oldpos / 16 * 16) in
  let endpos := u32 (QuantizeUp (s32 (usize (oldpos + bytes))) 16) in
  let bufsize := usize (endpos - startpos) in
  let difference := u32 (oldpos - startpos) in
  let crbuf := new_buffer "crbuf" bufsize in
  let dcbuf := new_buffer "dcbuf" bufsize in
  let backbuffer := new_buffer "backbuffer" 16 in
  let '(backbuffer, this) :=
    if startpos mod 4080 =? 0
    then (replicate 16 Byte.x00, this)
    else
      let this := SeekInternal (m_iHeaderSize this + u32 (startpos - 16)) this in
      let '(got, this) := ReadDirect 16 this in
      (overwrite got backbuffer, this) in
  let this := SeekInternal (m_iHeaderSize this + startpos) this in
  let '(got, this) := ReadDirect bufsize this in
  let crbuf := overwrite got crbuf in
  let '(dcbuf, _) :=
    block_loop (m_ctx this) startpos crbuf (Z.to_nat (bufsize / 16)) 0
               dcbuf backbuffer in
  let buffer := take (Z.to_nat bytes) (drop (Z.to_nat difference) dcbuf) in
  let this := SeekInternal (s32 (usize (oldpos + bytes))) this in
  {| rr_ret := s32 bytes; rr_buffer := buffer; rr_obj := this |}.

(** Modelled from the spec: the caller's `read`, which advances the cursor by
    the count [ReadInternal] returns (`cursor += n`); the wrapper itself
    (RageFileObj::Read) is absent from src. *)
Definition Read (bytes : Z) (this : RageFileObjCrypt_ITG2) : read_result :=
  let r := ReadInternal bytes this in
  {| rr_ret := rr_ret r; rr_buffer := rr_buffer r;
     rr_obj := set_iFilePos (m_iFilePos (rr_obj r) + rr_ret r) (rr_obj r) |}.

(** Modelled from the spec: `seek(pos)`: set
    `cursor = clamp(pos, 0, plaintext_size)`, no I/O (RageFileObj::Seek is
    absent from src). *)
Definition Seek (pos : Z) (this : RageFileObjCrypt_ITG2)
  : RageFileObjCrypt_ITG2 :=
  set_iFilePos (Z.max 0 (Z.min pos (m_iFileSize this))) this.

(** *** The read algorithm in the specification's words (section 4.4) *)

Definition zero_block : list byte := replicate 16 Byte.x00.

(** `(backbuffer[j] - j) mod 256` *)
Definition spec_mask (backbuffer : list byte) (j : nat) : byte :=
  byte.of_Z ((byte.unsigned (backbuffer !!! j) - Z.of_nat j) mod 256).

(** Step 3b: `pt[16i + j] = xor_block[j] XOR ((backbuffer[j] - j) mod 256)`
    for `j` in `0 .. 16`. *)
Definition spec_block (ctx : aes_decrypt_ctx) (ct_block backbuffer : list byte)
  : list byte :=
  (fun j => byte.xor (aes_decrypt ctx ct_block !!! j) (spec_mask backbuffer j))
    <$> seq 0 16.

(** Steps 3a-3c for the blocks `i, i+1, ..., i+n-1` of the window. *)
Fixpoint spec_blocks (ctx : aes_decrypt_ctx) (start : Z) (ct : list byte)
    (n i : nat) (backbuffer : list byte) : list byte :=
  match n with
  | O => []
  | S n' =>
      let ct_block := take 16 (drop (16 * i) ct) in
      spec_block ctx ct_block backbuffer ++
      spec_blocks ctx start ct n' (S i)
        (if (start + 16 * Z.of_nat i + 16) mod 4080 =? 0
         then zero_block else ct_block)
  end.

(** Step 1: the look-behind block. *)
Definition spec_lookbehind (data : list byte) (header_size start : Z)
  : list byte :=
  if start mod 4080 =? 0 then zero_block
  else take 16 (drop (Z.to_nat (header_size + start - 16)) data).

(** Steps 1-4: the bytes a read of [n] bytes at [cursor] delivers. *)
Definition spec_read (data : list byte) (header_size : Z)
    (ctx : aes_decrypt_ctx) (cursor n : Z) : list byte :=
  let start := cursor / 16 * 16 in
  let end_ := QuantizeUp (cursor + n) 16 in
  let window := end_ - start in
  let skip := cursor - start in
  let backbuffer := spec_lookbehind data header_size start in
  let ct := take (Z.to_nat window) (drop (Z.to_nat (header_size + start)) data) in
  let pt := spec_blocks ctx start ct (Z.to_nat (window / 16)) 0 backbuffer in
  take (Z.to_nat n) (drop (Z.to_nat skip) pt).

(** The plaintext byte at offset [p], in closed form: it depends on the
    ciphertext block holding [p] and, unless that block starts a 4080-byte
    segment, on the ciphertext block before it. *)
Definition ct_block_at (data : list byte) (header_size : Z) (b : Z) : list byte :=
  take 16 (drop (Z.to_nat (header_size + 16 * b)) data).

Definition plain_byte (data : list byte) (header_size : Z)
    (ctx : aes_decrypt_ctx) (p : Z) : byte :=
  let b := p / 16 in
  let j := Z.to_nat (p mod 16) in
  let back := if (16 * b) mod 4080 =? 0 then zero_block
              else ct_block_at data header_size (b - 1) in
  byte.xor (aes_decrypt ctx (ct_block_at data header_size b) !!! j)
           (spec_mask back j).

(** The conditions under which a read stays inside the machine integers
    and inside the ciphertext on disk. *)
Record read_ok (bytes : Z) (this : RageFileObjCrypt_ITG2) : Prop := {
  ok_pos : 0 <= m_iFilePos this;
  ok_bytes : 0 <= bytes;
  ok_int : m_iFilePos this + bytes + 16 <= 2 ^ 31;
  ok_header : 0 <= m_iHeaderSize this;
  ok_window :
    m_iHeaderSize this + QuantizeUp (m_iFilePos this + bytes) 16
      <= Z.of_nat (length (fd_data this))
}.

(** ** OpenInternal *)

Definition set_fd (data : list byte) (o : RageFileObjCrypt_ITG2) :=
  {| fd_data := data; fd_pos := 0; m_iFilePos := m_iFilePos o;
     m_iHeaderSize := m_iHeaderSize o; m_iFileSize := m_iFileSize o;
     m_ctx := m_ctx o; m_sSecret := m_sSecret o |}.

(** The result of [OpenInternal]: the returned [bool], the warning logged on
    the way out (none when the raw open fails, and none on success), the
    process-wide state and the object afterwards. *)
Record open_result := {
  or_ret : bool;
  or_warn : option open_warning;
  or_globals : globals;
  or_obj : RageFileObjCrypt_ITG2
}.

Definition open_fail (w : option open_warning) (g : globals)
    (this : RageFileObjCrypt_ITG2) : open_result :=
  {| or_ret := false; or_warn := w; or_globals := g; or_obj := this |}.

(** The 47 bytes [memcpy] takes from [m_sSecret.c_str()]: the string, its
    terminator, and whatever lies behind it. *)
Definition secret_bytes (secret : list byte) : list byte :=
  take 47 (secret ++ Byte.x00 :: new_buffer "c_str" 47).

(** Lines 74-89: the magic expected depends on whether a secret is
    configured; the result is the warning logged, if any. *)
Definition bad_magic (secret header : list byte) : option open_warning :=
  if bool_decide (secret = [])
  then
    if bool_decide (header !!! 0%nat ≠ ch_colon) ||
       bool_decide (header !!! 1%nat ≠ ch_bar)
    then Some not_an_arcade_file else None
  else
    if bool_decide (header !!! 0%nat ≠ ch_8) ||
       bool_decide (header !!! 1%nat ≠ ch_O)
    then Some not_a_patch_file else None.

(** Lines 134-162: the key is generated, from the dongle when no secret is
    configured and from the SHA-512 of subkey and secret otherwise. *)
Definition generate_key (secret : list byte) (subkey_size : Z)
    (subkey : list byte) (g : globals) : list byte * globals :=
  if bool_decide (secret = [])
  then
    let g := CHECKPOINT_M "dongle" g in
    (GetAESKey subkey, g)
  else
    let g := CHECKPOINT_M "patch" g in
    let SHABuffer :=
      take (Z.to_nat subkey_size) subkey ++ secret_bytes secret in
    let HashBuffer :=
      SHA512_Simple (take (Z.to_nat (u32 (subkey_size + 47))) SHABuffer) in
    (take 24 HashBuffer, g).

(** Lines 126-172: the key is looked up in [g_KnownKeys] under the address
    [sPath.c_str()]; when there is none it is generated and saved there. *)
Definition find_or_generate_key (secret : list byte) (sPath : CString)
    (subkey_size : Z) (subkey : list byte) (g : globals)
  : list byte * globals :=
  match g_KnownKeys g !! c_str sPath with
  | None =>
      let '(AESKey, g) := generate_key secret subkey_size subkey g in
      (AESKey, save_key (c_str sPath) AESKey g)
  | Some key =>
      let g := CHECKPOINT_M "cache" g in
      (key, g)
  end.

(** Modelled from the spec: RageFileObjDirect::OpenInternal (absent from
    src) opens the raw byte source named by the path; [disk] maps a path to
    the contents of the file there, if any. *)
Definition OpenDirect (disk : string -> option (list byte)) (sPath : CString)
    (this : RageFileObjCrypt_ITG2) : option RageFileObjCrypt_ITG2 :=
  match disk (chars sPath) with
  | None => None
  | Some data => Some (set_fd data this)
  end.

Definition OpenInternal (disk : string -> option (list byte))
    (sPath : CString) (g : globals) (this : RageFileObjCrypt_ITG2)
  : open_result :=
  match OpenDirect disk sPath this with
  | None => open_fail None g this
  | Some this =>
  let '(header, this) := ReadDirect 2 this in
  if Z.of_nat (length header) <? 2
  then open_fail (Some unexpected_header_size) g this else
  match bad_magic (m_sSecret this) header with
  | Some w => open_fail (Some w) g this
  | None =>
  let this := set_iHeaderSize 2 this in
  let '(got, this) := ReadDirect 4 this in
  let this :=
    set_iFileSize
      (le_decode (overwrite got (le_encode 4 (m_iFileSize this)))) this in
  if Z.of_nat (length got) <? 4
  then open_fail (Some unexpected_file_size) g this else
  let this := set_iHeaderSize (m_iHeaderSize this + 4) this in
  let '(got, this) := ReadDirect 4 this in
  let subkey_size := le_decode (overwrite got (new_buffer "subkey_size" 4)) in
  if Z.of_nat (length got) <? 4
  then open_fail (Some unexpected_subkey_size) g this else
  let this := set_iHeaderSize (m_iHeaderSize this + 4) this in
  let '(got, this) := ReadDirect subkey_size this in
  if u32 (Z.of_nat (length got)) <? subkey_size
  then open_fail (Some short_subkey) g this else
  let subkey := overwrite got (new_buffer "subkey" subkey_size) in
  let this := set_iHeaderSize (m_iHeaderSize this + subkey_size) this in
  let '(got, this) := ReadDirect 16 this in
  let verifyblock := overwrite got (new_buffer "verifyblock" 16) in
  if u32 (Z.of_nat (length got)) <? 16
  then open_fail (Some short_verifyblock) g this else
  let this := set_iHeaderSize (m_iHeaderSize this + 16) this in
  let '(AESKey, g) :=
    find_or_generate_key (m_sSecret this) sPath subkey_size subkey g in
  let this := set_ctx (aes_decrypt_key (take 24 AESKey)) this in
  let plaintext := aes_decrypt (m_ctx this) verifyblock in
  if bool_decide (plaintext !!! 0%nat ≠ ch_colon) ||
     bool_decide (plaintext !!! 1%nat ≠ ch_D)
  then open_fail (Some unexpected_decryption_magic) g this else
  {| or_ret := true; or_warn := None; or_globals := g; or_obj := this |}
  end
  end.

(** *** The open handshake in the specification's words *)

(** In the specification's words: HeaderCodec `parse` (section 4.1) over the
    on-disk layout of section 6. The error is named by the warning the source
    logs at the step that underflows (ShortRead) or at the magic that does
    not match the configured variant (BadMagic). *)
Definition parse_header (secret : list byte) (data : list byte)
  : open_warning + FileMeta :=
  let len := Z.of_nat (length data) in
  if len <? 2 then inl unexpected_header_size else
  if bool_decide (secret = []) && negb (bool_decide (take 2 data = [ch_colon; ch_bar]))
  then inl not_an_arcade_file else
  if negb (bool_decide (secret = [])) && negb (bool_decide (take 2 data = [ch_8; ch_O]))
  then inl not_a_patch_file else
  if len <? 6 then inl unexpected_file_size else
  if len <? 10 then inl unexpected_subkey_size else
  let subkey_len := le_decode (take 4 (drop 6 data)) in
  if len <? 10 + subkey_len then inl short_subkey else
  if len <? 10 + subkey_len + 16 then inl short_verifyblock else
  inr {| magic := take 2 data;
         plaintext_size := le_decode (take 4 (drop 2 data));
         subkey := take (Z.to_nat subkey_len) (drop 10 data);
         verify_block := take 16 (drop (Z.to_nat (10 + subkey_len)) data);
         header_size := 2 + 4 + 4 + subkey_len + 16 |}.

(** The verify-block check of open step 5. *)
Definition verifies (key verify_block : list byte) : Prop :=
  let pt := aes_decrypt (aes_decrypt_key (take 24 key)) verify_block in
  pt !!! 0%nat = ch_colon ∧ pt !!! 1%nat = ch_D.

(** A run of sequential opens, each on a file object of its own, threading
    the process-wide state. *)
Fixpoint open_all (disk : string -> option (list byte))
    (opens : list (CString * RageFileObjCrypt_ITG2)) (g : globals)
  : list open_result * globals :=
  match opens with
  | [] => ([], g)
  | (sPath, this) :: rest =>
      let r := OpenInternal disk sPath g this in
      let '(rs, g') := open_all disk rest (or_globals r) in
      (r :: rs, g')
  end.

(** The process as far as this driver is concerned: the process-wide
    state and one open file; [run_op] performs one operation on the file. *)
Record process := {
  p_globals : globals;
  p_file : RageFileObjCrypt_ITG2
}.

Definition run_op (p : process) (op : file_op) : process :=
  match op with
  | op_read bytes =>
      {| p_globals := p_globals p; p_file := rr_obj (Read bytes (p_file p)) |}
  | op_seek pos =>
      {| p_globals := p_globals p; p_file := Seek pos (p_file p) |}
  | op_tell => p
  end.

Definition run_ops (ops : list file_op) (p : process) : process :=
  foldl run_op p ops.

End Crypt.

(** The number of key derivations a checkpoint trace records. *)
Definition derivations (trace : list string) : nat :=
  length (filter (fun m => m = "dongle"%string ∨ m = "patch"%string) trace).

Arguments fd_data {aes_decrypt_ctx} _.
Arguments fd_pos {aes_decrypt_ctx} _.
Arguments m_iFilePos {aes_decrypt_ctx} _.
Arguments m_iHeaderSize {aes_decrypt_ctx} _.
Arguments m_iFileSize {aes_decrypt_ctx} _.
Arguments m_ctx {aes_decrypt_ctx} _.
Arguments m_sSecret {aes_decrypt_ctx} _.
Arguments set_fd_pos {aes_decrypt_ctx} p o.
Arguments set_iFilePos {aes_decrypt_ctx} p o.
Arguments set_iHeaderSize {aes_decrypt_ctx} h o.
Arguments set_iFileSize {aes_decrypt_ctx} s o.
Arguments set_ctx {aes_decrypt_ctx} c o.
Arguments set_fd {aes_decrypt_ctx} data o.
Arguments SeekInternal {aes_decrypt_ctx} offset o.
Arguments ReadDirect {aes_decrypt_ctx} n o.
Arguments Tell {aes_decrypt_ctx} o.
Arguments Seek {aes_decrypt_ctx} pos this.
Arguments rr_ret {aes_decrypt_ctx} _.
Arguments rr_buffer {aes_decrypt_ctx} _.
Arguments rr_obj {aes_decrypt_ctx} _.
Arguments or_ret {aes_decrypt_ctx} _.
Arguments or_warn {aes_decrypt_ctx} _.
Arguments or_globals {aes_decrypt_ctx} _.
Arguments or_obj {aes_decrypt_ctx} _.
Arguments open_fail {aes_decrypt_ctx} w g this.
Arguments OpenDirect {aes_decrypt_ctx} disk sPath this.
Arguments read_ok {aes_decrypt_ctx} bytes this.
Arguments p_globals {aes_decrypt_ctx} _.
Arguments p_file {aes_decrypt_ctx} _.

(** ** Sample data: a stand-in cipher, hash and dongle, and files on a disk *)

Module Sample.

Definition ctx : Type := list byte.
Definition decrypt_key (key : list byte) : ctx := key.
Definition decrypt (c : ctx) (block : list byte) : list byte :=
  (fun x => byte.xor x (c !!! 0%nat)) <$> block.
Definition sha (msg : list byte) : list byte :=
  replicate 64 (byte.of_Z (Z.of_nat (length msg))).
Definition dongle (subkey : list byte) : list byte :=
  take 24 (subkey ++ replicate 24 Byte.x00).
Definition junk (_ : string) (_ : nat) : byte := Byte.xaa.

Definition bytes_of (zs : list Z) : list byte := byte.of_Z <$> zs.

(** A patch header: magic "8O", the plaintext size, a subkey and the verify
    block. *)
Definition header_with (size subkey verify : list Z) : list byte :=
  bytes_of ([56; 79] ++ size ++ [Z.of_nat (length subkey); 0; 0; 0] ++
            subkey ++ verify).

(** With the 4-byte subkey the stand-in key's first byte is 51 = 0x33, and
    [good_verify] decrypts to ":D" followed by fourteen bytes 0x33. *)
Definition good_verify : list Z := [9; 119] ++ replicate 14 0.
Definition bad_verify : list Z := replicate 16 0.

Definition body (n : Z) : list byte :=
  (fun z => byte.of_Z (z * 13 + 5)) <$> seqZ 0 n.

(** Plaintext size 100, seven ciphertext blocks. *)
Definition patch_file : list byte :=
  header_with [100; 0; 0; 0] [1; 2; 3; 4] good_verify ++ body 112.
Definition wrong_key_file : list byte :=
  header_with [100; 0; 0; 0] [1; 2; 3; 4] bad_verify ++ body 112.
(** The same header with no ciphertext behind it. *)
Definition bodyless_file : list byte :=
  header_with [100; 0; 0; 0] [1; 2; 3; 4] good_verify.
(** Plaintext size 4100 = 0x1004, 257 ciphertext blocks. *)
Definition long_file : list byte :=
  header_with [4; 16; 0; 0] [1; 2; 3; 4] good_verify ++ body 4112.
(** [long_file] with ciphertext block 254 overwritten. *)
Definition long_file_mutated : list byte :=
  header_with [4; 16; 0; 0] [1; 2; 3; 4] good_verify ++
  take 4064 (body 4112) ++ replicate 16 Byte.xff ++ drop 4080 (body 4112).
(** Scenario S1: the subkey is the 64 bytes 0x00 .. 0x3F. With it the
    stand-in key's first byte is 111 = 0x6F. *)
Definition s1_file : list byte :=
  header_with [100; 0; 0; 0] (seqZ 0 64) ([85; 43] ++ replicate 14 0) ++ body 112.

Definition disk (path : string) : option (list byte) :=
  if bool_decide (path = "Data/patch.patch"%string) then Some patch_file
  else if bool_decide (path = "Data/wrong.patch"%string) then Some wrong_key_file
  else if bool_decide (path = "Data/bodyless.patch"%string) then Some bodyless_file
  else if bool_decide (path = "Data/long.patch"%string) then Some long_file
  else if bool_decide (path = "Data/mutated.patch"%string) then Some long_file_mutated
  else if bool_decide (path = "Data/s1.patch"%string) then Some s1_file
  else None.

Definition no_keys : globals := {| g_KnownKeys := ∅; checkpoints := [] |}.

(** A file object of the PATCH driver before [OpenInternal]. *)
Definition new_patch_obj : RageFileObjCrypt_ITG2 ctx :=
  {| fd_data := []; fd_pos := 0; m_iFilePos := 0; m_iHeaderSize := 0;
     m_iFileSize := 0; m_ctx := []; m_sSecret := ITG2_PATCH_KEY |}.

Definition path_at (address : Z) (s : string) : CString :=
  {| c_str := address; chars := s |}.

Definition open_ (sPath : CString) (g : globals) : open_result ctx :=
  OpenInternal ctx decrypt_key decrypt sha dongle junk disk sPath g new_patch_obj.

Definition opened (s : string) : RageFileObjCrypt_ITG2 ctx :=
  or_obj (open_ (path_at 4096 s) no_keys).

Definition read_ (bytes : Z) (o : RageFileObjCrypt_ITG2 ctx) : read_result ctx :=
  Read ctx decrypt junk bytes o.

Definition meta_of (data : list byte) : FileMeta :=
  match parse_header ITG2_PATCH_KEY data with
  | inr meta => meta
  | inl _ => {| magic := []; plaintext_size := 0; subkey := [];
                verify_block := []; header_size := 0 |}
  end.

Definition patch_meta : FileMeta := Eval vm_compute in meta_of patch_file.
Definition s1_meta : FileMeta := Eval vm_compute in meta_of s1_file.

(** The object [OpenInternal] leaves for a long file, with the cursor at the
    start of the second segment. *)
Definition at_4080 (data : list byte) : RageFileObjCrypt_ITG2 ctx :=
  {| fd_data := data; fd_pos := 30; m_iFilePos := 4080; m_iHeaderSize := 30;
     m_iFileSize := 4100; m_ctx := replicate 24 Byte.x33;
     m_sSecret := ITG2_PATCH_KEY |}.

(** Two opens of one path whose character buffers lie at different
    addresses. *)
Definition two_opens : list (CString * RageFileObjCrypt_ITG2 ctx) :=
  [(path_at 4096 "Data/patch.patch", new_patch_obj);
   (path_at 8192 "Data/patch.patch", new_patch_obj)].

End Sample.

(** ** The copy constructor and Copy (lines 49-58 and 261-275) *)

Section CryptCopy.

Variable aes_decrypt_ctx : Type.
Variable aes_decrypt_key : list byte -> aes_decrypt_ctx.
Variable aes_decrypt : aes_decrypt_ctx -> list byte -> list byte.
Variable SHA512_Simple : list byte -> list byte.
Variable GetAESKey : list byte -> list byte.
Variable uninit : string -> nat -> byte.

(** Lines 49-58: the header size, the file size, the key schedule and the
    secret are copied member by member; the members of the base classes
    (absent from src) are taken to be copied alike. *)
Definition copy_constructor (cpy : RageFileObjCrypt_ITG2 aes_decrypt_ctx)
  : RageFileObjCrypt_ITG2 aes_decrypt_ctx :=
  {| fd_data := fd_data cpy; fd_pos := fd_pos cpy;
     m_iFilePos := m_iFilePos cpy;
     m_iHeaderSize := m_iHeaderSize cpy;
     m_iFileSize := m_iFileSize cpy;
     m_ctx := m_ctx cpy;
     m_sSecret := m_sSecret cpy |}.

(** Lines 261-275. [m_sPath] is the path the object keeps of its own open (a
    member of the base class); the result is [None] where the source throws
    "Couldn't reopen". *)
Definition Copy (disk : string -> option (list byte)) (m_sPath : CString)
    (g : globals) (this : RageFileObjCrypt_ITG2 aes_decrypt_ctx)
  : option (RageFileObjCrypt_ITG2 aes_decrypt_ctx) * globals :=
  let ret := copy_constructor this in
  let r := OpenInternal aes_decrypt_ctx aes_decrypt_key aes_decrypt
             SHA512_Simple GetAESKey uninit disk m_sPath g ret in
  if or_ret r
  then (Some (SeekInternal (Tell this) (or_obj r)), or_globals r)
  else (None, or_globals r).

End CryptCopy.

Arguments copy_constructor {aes_decrypt_ctx} cpy.

(** ** More sample data *)

Module Sample2.
Import Sample.

(** An arcade header: magic ":|", plaintext size 100, the subkey 1 2 3 4.
    The stand-in dongle answers with a key whose first byte is 1, under which
    the verify block decrypts to ":D" followed by fourteen bytes 0x01. *)
Definition arcade_file : list byte :=
  bytes_of ([58; 124] ++ [100; 0; 0; 0] ++ [4; 0; 0; 0] ++ [1; 2; 3; 4] ++
            [59; 69] ++ replicate 14 0) ++ body 112.

(** [patch_file] cut inside its verify block, and cut after its second
    ciphertext block. *)
Definition cut_header_file : list byte := take 20 patch_file.
Definition two_block_file : list byte := take (30 + 32) patch_file.

Definition disk (path : string) : option (list byte) :=
  if bool_decide (path = "Data/song.kry"%string) then Some arcade_file
  else if bool_decide (path = "Data/cut.patch"%string) then Some cut_header_file
  else if bool_decide (path = "Data/two.patch"%string) then Some two_block_file
  else Sample.disk path.

Definition new_arcade_obj : RageFileObjCrypt_ITG2 ctx :=
  {| fd_data := []; fd_pos := 0; m_iFilePos := 0; m_iHeaderSize := 0;
     m_iFileSize := 0; m_ctx := []; m_sSecret := [] |}.

(** A driver whose secret is three bytes longer than the patch secret. *)
Definition new_long_secret_obj : RageFileObjCrypt_ITG2 ctx :=
  {| fd_data := []; fd_pos := 0; m_iFilePos := 0; m_iHeaderSize := 0;
     m_iFileSize := 0; m_ctx := [];
     m_sSecret := ITG2_PATCH_KEY ++ bytes_of [97; 98; 99] |}.

Definition open2 (this : RageFileObjCrypt_ITG2 ctx) (sPath : CString)
    (g : globals) : open_result ctx :=
  OpenInternal ctx decrypt_key decrypt sha dongle junk disk sPath g this.

Definition arcade_meta : FileMeta :=
  Eval vm_compute in
    match parse_header [] arcade_file with
    | inr meta => meta
    | inl _ => {| magic := []; plaintext_size := 0; subkey := [];
                  verify_block := []; header_size := 0 |}
    end.

(** The state an open of "Data/patch.patch" leaves, as a literal: header
    size 30, plaintext size 100, the key schedule of 24 bytes 0x33. *)
Definition patch_obj (data : list byte) (cursor raw : Z)
  : RageFileObjCrypt_ITG2 ctx :=
  {| fd_data := data; fd_pos := raw; m_iFilePos := cursor;
     m_iHeaderSize := 30; m_iFileSize := 100;
     m_ctx := replicate 24 Byte.x33; m_sSecret := ITG2_PATCH_KEY |}.

(** The process-wide state after one open of "Data/patch.patch" through a
    path at address 4096. *)
Definition one_key : globals :=
  {| g_KnownKeys := {[ 4096 := replicate 24 Byte.x33 ]};
     checkpoints := ["patch"%string] |}.

Definition same_address_opens : list (CString * RageFileObjCrypt_ITG2 ctx) :=
  [(path_at 4096 "Data/patch.patch", new_patch_obj);
   (path_at 4096 "Data/patch.patch", new_patch_obj);
   (path_at 4096 "Data/patch.patch", new_patch_obj)].

End Sample2.


(** ** print_hex (lines 29-37) *)

(** The digit of the conversion [%X] for a value below 16. *)
Definition hex_digit (n : Z) : string :=
  String.substring (Z.to_nat n) 1 "0123456789ABCDEF".

(** Line 34, [ssprintf( "%02X ", value[i] )]: the byte as two upper-case
    hexadecimal digits, and a blank. *)
Definition ssprintf_02X (b : byte) : string :=
  hex_digit (byte.unsigned b / 16) +:+ hex_digit (byte.unsigned b mod 16)
    +:+ " ".

(** Lines 31-34: [value] is a pointer, read at the indices below [length]
    (an [unsigned int]). *)
Definition sValues (value : nat -> byte) (length : Z) : string :=
  foldl (fun s i => s +:+ ssprintf_02X (value i)) ""%string
        (seq 0 (Z.to_nat (u32 length))).

(** Line 36: the line handed to [LOG->Debug]. *)
Definition print_hex (sName : string) (value : nat -> byte) (length : Z)
  : string :=
  "print_hex( " +:+ sName +:+ " ): " +:+ sValues value length.

(** Reading a dump back: the value of a hexadecimal digit, and the bytes of
    a text made of groups of two digits and a blank. *)
Definition hex_value (c : Ascii.ascii) : Z :=
  let n := Z.of_nat (Ascii.nat_of_ascii c) in
  if n <? 58 then n - 48 else n - 55.

Fixpoint read_hex (s : string) : list byte :=
  match s with
  | String a (String b (String _ rest)) =>
      byte.of_Z (16 * hex_value a + hex_value b) :: read_hex rest
  | _ => []
  end.

(** * InputHandler_PIUIO.cpp

    The board, the lights state, the input filter and the Lua state are
    outside the file; the handler is modelled with what it sends to them and
    what it gets back.  The constructor, the destructor and the thread
    ([InputThreadMain] apart from one turn of its loop) are not modelled. *)

Module PIUIO.

(** Line 20. *)
Definition SensorNames : list string :=
  ["right"; "left"; "bottom"; "top"]%string.

(** [1 << (31 - iBit)], an [int], as the [uint32_t] it is converted to for
    the [&] with a [uint32_t]; the callers pass [0 <= iBit < 32]. *)
Definition bit_31 (iBit : Z) : Z := u32 (Z.shiftl 1 (31 - iBit)).

(** The mask of line 191 and line 210: all bits but 0, 1, 16 and 17. *)
Definition lights_mask : Z := 0xFFFCFFFC.

(** [i | (i << 16)], lines 195 and 211. *)
Definition sensor_select (i : Z) : Z := Z.lor i (u32 (Z.shiftl i 16)).

(** [~x] on a [uint32_t]. *)
Definition not32 (x : Z) : Z := u32 (Z.lnot x).

(** An element of a C array of [uint32_t], which the model keeps as a
    list; zero where the list is shorter than the array. *)
Definition at_index (a : list Z) (i : nat) : Z := default 0 (a !! i).

(** What goes over the wire: [Board.Write], [Board.Read] with the word it
    delivered, [Board.BulkReadWrite] with the array handed over and the
    array as the call left it. *)
Inductive board_event :=
| ev_Write (iData : Z)
| ev_Read (iData : Z)
| ev_BulkReadWrite (sent got : list Z).

(** The two values [InternalInputHandler] is ever given (lines 79 and 84). *)
Inductive input_handler :=
| ptr_HandleInputNormal
| ptr_HandleInputKernel.

(** The members of [LightsMapping] the file uses. *)
Record LightsMapping := {
  m_iCabinetLights : list Z;
  m_iGameLights : list (list Z);
  m_iCoinCounterOn : Z;
  m_iCoinCounterOff : Z
}.

(** The members of [LightsState] the file reads. *)
Record LightsState := {
  m_bCabinetLights : list bool;
  m_bGameButtonLights : list (list bool);
  m_bCoinCounter : bool
}.

(** One turn of the loop of lines 238-251: the button as its offset from
    [JOY_1], the comment set on it and the flag passed to
    [ButtonPressed]. *)
Record button_report := {
  iButton : Z;
  comment : string;
  pressed : bool
}.

Record InputHandler_PIUIO := {
  Board : list board_event;
  m_iInputField : Z;
  m_iInputData : list Z;
  m_iBulkReadData : list Z;
  m_iLightData : Z;
  m_LightsMappings : LightsMapping;
  InternalInputHandler : input_handler
}.

Definition set_Board (b : list board_event) (this : InputHandler_PIUIO) :=
  {| Board := b; m_iInputField := m_iInputField this;
     m_iInputData := m_iInputData this;
     m_iBulkReadData := m_iBulkReadData this;
     m_iLightData := m_iLightData this;
     m_LightsMappings := m_LightsMappings this;
     InternalInputHandler := InternalInputHandler this |}.

Definition set_iInputField (f : Z) (this : InputHandler_PIUIO) :=
  {| Board := Board this; m_iInputField := f;
     m_iInputData := m_iInputData this;
     m_iBulkReadData := m_iBulkReadData this;
     m_iLightData := m_iLightData this;
     m_LightsMappings := m_LightsMappings this;
     InternalInputHandler := InternalInputHandler this |}.

Definition set_iInputData (d : list Z) (this : InputHandler_PIUIO) :=
  {| Board := Board this; m_iInputField := m_iInputField this;
     m_iInputData := d;
     m_iBulkReadData := m_iBulkReadData this;
     m_iLightData := m_iLightData this;
     m_LightsMappings := m_LightsMappings this;
     InternalInputHandler := InternalInputHandler this |}.

Definition set_iBulkReadData (d : list Z) (this : InputHandler_PIUIO) :=
  {| Board := Board this; m_iInputField := m_iInputField this;
     m_iInputData := m_iInputData this;
     m_iBulkReadData := d;
     m_iLightData := m_iLightData this;
     m_LightsMappings := m_LightsMappings this;
     InternalInputHandler := InternalInputHandler this |}.

Definition set_iLightData (l : Z) (this : InputHandler_PIUIO) :=
  {| Board := Board this; m_iInputField := m_iInputField this;
     m_iInputData := m_iInputData this;
     m_iBulkReadData := m_iBulkReadData this;
     m_iLightData := l;
     m_LightsMappings := m_LightsMappings this;
     InternalInputHandler := InternalInputHandler this |}.

Definition set_LightsMappings (m : LightsMapping) (this : InputHandler_PIUIO) :=
  {| Board := Board this; m_iInputField := m_iInputField this;
     m_iInputData := m_iInputData this;
     m_iBulkReadData := m_iBulkReadData this;
     m_iLightData := m_iLightData this;
     m_LightsMappings := m;
     InternalInputHandler := InternalInputHandler this |}.

(** The enumerations' sizes: eight cabinet lights (the initialiser of line
    132 names them) and two game controllers. *)
Definition NUM_CABINET_LIGHTS : nat := 8.
Definition MAX_GAME_CONTROLLERS : nat := 2.

(** The words [Board.Write] was called with, and the words [Board.Read]
    delivered. *)
Definition written (events : list board_event) : list Z :=
  omap (fun e => match e with ev_Write w => Some w | _ => None end) events.

Definition delivered (events : list board_event) : list Z :=
  omap (fun e => match e with ev_Read r => Some r | _ => None end) events.

Section Handler.

(** [MAX_GAME_BUTTONS], a constant of the game's headers. *)
Variable MAX_GAME_BUTTONS : nat.
(** RageUtil's [join]. *)
Variable join : string -> list string -> string.
(** [LightsMapper::LoadMappings], which may replace the defaults by the
    user's. *)
Variable LoadMappings : string -> LightsMapping -> LightsMapping.
(** The board: the word the next [Read] delivers, and the array
    [BulkReadWrite] leaves, after what went over the wire so far. *)
Variable Board_Read : list board_event -> Z.
Variable Board_BulkReadWrite : list board_event -> list Z -> nat -> Z.

(** Lines 22-36. *)
Definition GetSensorDescription (iArray : list Z) (iBit : Z) : string :=
  let sensors :=
    foldl (fun sensors i =>
             if bool_decide (Z.land (at_index iArray i) (bit_31 iBit) ≠ 0)
             then sensors ++ [default ""%string (SensorNames !! i)]
             else sensors)
          [] (seq 0 4) in
  if bool_decide (length sensors = 4%nat) then ""%string
  else join ", " sensors.

(** Lines 132-139 and 141-146: the arrays' initialisers; the game buttons
    past the fourth are zero. *)
Definition iCabinetLights : list Z :=
  [Z.shiftl 1 23; Z.shiftl 1 26; Z.shiftl 1 25; Z.shiftl 1 24;
   0; 0; Z.shiftl 1 10; Z.shiftl 1 10].

Definition iGameLights : list (list Z) :=
  [ [Z.shiftl 1 20; Z.shiftl 1 21; Z.shiftl 1 18; Z.shiftl 1 19]
      ++ replicate (MAX_GAME_BUTTONS - 4) 0;
    [Z.shiftl 1 4; Z.shiftl 1 5; Z.shiftl 1 2; Z.shiftl 1 3]
      ++ replicate (MAX_GAME_BUTTONS - 4) 0 ].

(** Lines 148-153: the mapping handed to [LoadMappings]. *)
Definition default_mappings : LightsMapping :=
  {| m_iCabinetLights := iCabinetLights;
     m_iGameLights := iGameLights;
     m_iCoinCounterOn := Z.shiftl 1 28;
     m_iCoinCounterOff := Z.shiftl 1 27 |}.

(** Lines 130-156. *)
Definition SetLightsMappings (this : InputHandler_PIUIO) : InputHandler_PIUIO :=
  set_LightsMappings (LoadMappings "PIUIO" default_mappings) this.

(** Lines 207-219, one turn of the loop. *)
Definition HandleInputNormal_turn (this : InputHandler_PIUIO) (i : Z)
  : InputHandler_PIUIO :=
  let L := Z.land (m_iLightData this) lights_mask in
  let L := Z.lor L (sensor_select i) in
  let wire := Board this ++ [ev_Write L] in
  let got := u32 (Board_Read wire) in
  set_iInputData (<[Z.to_nat i := not32 got]> (m_iInputData this))
    (set_iLightData L (set_Board (wire ++ [ev_Read got]) this)).

(** Lines 205-220. *)
Definition HandleInputNormal (this : InputHandler_PIUIO) : InputHandler_PIUIO :=
  foldl HandleInputNormal_turn this (seqZ 0 4).

(** Lines 187-202. *)
Definition HandleInputKernel (this : InputHandler_PIUIO) : InputHandler_PIUIO :=
  let bulk := replicate 8 0 in
  let L := Z.land (m_iLightData this) lights_mask in
  let bulk :=
    foldl (fun bulk i => <[Z.to_nat (i * 2) := Z.lor L (sensor_select i)]> bulk)
          bulk (seqZ 0 4) in
  let got := (fun k => u32 (Board_BulkReadWrite (Board this) bulk k)) <$> seq 0 8 in
  let data :=
    foldl (fun data i =>
             <[Z.to_nat i := not32 (at_index got (Z.to_nat (i * 2)))]> data)
          (m_iInputData this) (seqZ 0 4) in
  set_iInputData data
    (set_iBulkReadData got
       (set_iLightData L
          (set_Board (Board this ++ [ev_BulkReadWrite bulk got]) this))).

(** Lines 222-252.  The time stamp of line 244 is left out. *)
Definition HandleInput (this : InputHandler_PIUIO)
  : InputHandler_PIUIO * list button_report :=
  let this := set_iInputData (replicate 4 0) (set_iInputField 0 this) in
  let this :=
    match InternalInputHandler this with
    | ptr_HandleInputNormal => HandleInputNormal this
    | ptr_HandleInputKernel => HandleInputKernel this
    end in
  let field :=
    foldl (fun field i => Z.lor field (at_index (m_iInputData this) i))
          (m_iInputField this) (seq 0 4) in
  let this := set_iInputField field this in
  (this,
   (fun b =>
      {| iButton := b;
         comment := GetSensorDescription (m_iInputData this) b;
         pressed := bool_decide (Z.land (m_iInputField this) (bit_31 b) ≠ 0) |})
   <$> seqZ 0 32).

(** Lines 255-278: [m_LightsState] is the state of the external lights
    driver at the time of the call. *)
Definition UpdateLights (m_LightsState : LightsState)
    (this : InputHandler_PIUIO) : InputHandler_PIUIO :=
  let L := 0 in
  let L :=
    foldl (fun L cl =>
             if default false (m_bCabinetLights m_LightsState !! cl)
             then Z.lor L (at_index (m_iCabinetLights (m_LightsMappings this)) cl)
             else L)
          L (seq 0 NUM_CABINET_LIGHTS) in
  let L :=
    foldl (fun L gc =>
             foldl (fun L gb =>
                      if default false
                           (default [] (m_bGameButtonLights m_LightsState !! gc)
                              !! gb)
                      then Z.lor L
                             (at_index
                                (default []
                                   (m_iGameLights (m_LightsMappings this) !! gc))
                                gb)
                      else L)
                   L (seq 0 MAX_GAME_BUTTONS))
          L (seq 0 MAX_GAME_CONTROLLERS) in
  let L :=
    Z.lor L (if m_bCoinCounter m_LightsState
             then m_iCoinCounterOn (m_LightsMappings this)
             else m_iCoinCounterOff (m_LightsMappings this)) in
  set_iLightData L this.

(** Lines 162-168, one turn of the loop of [InputThreadMain]. *)
Definition InputThreadMain_turn (m_LightsState : LightsState)
    (this : InputHandler_PIUIO) : InputHandler_PIUIO * list button_report :=
  HandleInput (UpdateLights m_LightsState this).

(** Lines 280-287.  A negative [iSet] reads before the array: [None]. *)
Definition GetSensorSet (this : InputHandler_PIUIO) (iSet : Z) : option Z :=
  if bool_decide (iSet >= 3) then Some 0
  else if bool_decide (iSet < 0) then None
  else m_iInputData this !! Z.to_nat iSet.

(** Lines 297-310: the entries of the table handed to Lua. *)
Definition Lua_GetSensorSet (p : InputHandler_PIUIO) (IArg_1 : Z)
  : option (list bool) :=
  iSensors ← GetSensorSet p IArg_1;
  Some ((fun i => bool_decide (Z.land iSensors (bit_31 i) ≠ 0)) <$> seqZ 0 32).

End Handler.

End PIUIO.

(** ** Sample data for the input handler *)

Module PIUIOSample.
Import PIUIO.

(** A board on which one pad sensor of the fourth set is stepped on: the
    fourth word of a poll has bit 0 low, every other bit is high. *)
Definition Board_Read (wire : list board_event) : Z :=
  if bool_decide (length wire = 7%nat) then 0xFFFFFFFE else 0xFFFFFFFF.

Definition Board_BulkReadWrite (wire : list board_event) (sent : list Z)
    (k : nat) : Z :=
  if bool_decide (k = 6%nat) then 0xFFFFFFFE else 0xFFFFFFFF.

Definition join (Deliminator : string) (Source : list string) : string :=
  String.concat Deliminator Source.

(** A handler with the mapping of [SetLightsMappings], twenty game buttons
    and a light word left over from an earlier turn. *)
Definition handler (h : input_handler) : InputHandler_PIUIO :=
  {| Board := []; m_iInputField := 0; m_iInputData := [0; 0; 0; 0];
     m_iBulkReadData := replicate 8 0; m_iLightData := 0x10230003;
     m_LightsMappings := default_mappings 20;
     InternalInputHandler := h |}.

Definition lights_on : LightsState :=
  {| m_bCabinetLights := [true; false; true; false; false; false; true; true];
     m_bGameButtonLights := [[true; false; false; true]; [false; true]];
     m_bCoinCounter := true |}.

(** A handler after a poll in which the sets 0 to 3 reported the words 5, 6,
    7 and 8. *)
Definition polled : InputHandler_PIUIO :=
  {| Board := []; m_iInputField := 15; m_iInputData := [5; 6; 7; 8];
     m_iBulkReadData := replicate 8 0; m_iLightData := 0;
     m_LightsMappings := default_mappings 20;
     InternalInputHandler := ptr_HandleInputNormal |}.

End PIUIOSample.

(** * Properties *)

(** ** Bytes *)

Lemma byte_of_Z_mod (a b : Z) :
  a mod 2 ^ 8 = b mod 2 ^ 8 -> byte.of_Z a = byte.of_Z b.
Proof.
  intros H. apply byte.unsigned_inj.
  rewrite !byte.unsigned_of_Z. exact H.
Qed.

Lemma lxor_mod_r (x y : Z) :
  (Z.lxor x y) mod 2 ^ 8 = (Z.lxor x (y mod 2 ^ 8)) mod 2 ^ 8.
Proof.
  rewrite <- !Z.land_ones by lia.
  apply Z.bits_inj'. intros n _.
  rewrite !Z.land_spec, !Z.lxor_spec, Z.land_spec.
  by destruct (Z.testbit x n), (Z.testbit y n), (Z.testbit (Z.ones 8) n).
Qed.

(** The promoted-[int] expression of line 243, once stored, is the bytewise
    XOR with the bytewise difference. *)
Lemma xor_store_value (x b : byte) (j : nat) :
  byte.of_Z (Z.lxor (byte.unsigned x) (byte.unsigned b - Z.of_nat j)) =
  byte.xor x (byte.of_Z ((byte.unsigned b - Z.of_nat j) mod 256)).
Proof.
  unfold byte.xor. apply byte_of_Z_mod.
  rewrite byte.unsigned_of_Z. unfold byte.wrap.
  change 256 with (2 ^ 8). rewrite Z.mod_mod by lia.
  apply lxor_mod_r.
Qed.

(** ** Lists as buffers *)

Lemma foldl_ext_in {A B} (f g : A -> B -> A) (l : list B) (a : A) :
  (forall a x, x ∈ l -> f a x = g a x) -> foldl f a l = foldl g a l.
Proof.
  revert a. induction l as [|x l IH]; intros a H; simpl; [done|].
  rewrite H by set_solver. apply IH. intros; apply H; set_solver.
Qed.

Lemma foldl_insert_run {A} (g : nat -> A) (l : list A) (off k : nat) :
  (off + k <= length l)%nat ->
  foldl (fun acc j => <[(off + j)%nat := g j]> acc) l (seq 0 k) =
  take off l ++ (g <$> seq 0 k) ++ drop (off + k) l.
Proof.
  induction k as [|k IH]; intros Hlen.
  - simpl. rewrite Nat.add_0_r. by rewrite take_drop.
  - rewrite seq_S, foldl_app, fmap_app. simpl.
    rewrite IH by lia.
    rewrite app_assoc, insert_app_r_alt; rewrite ?length_app, ?length_take, ?length_fmap, ?length_seq; try lia.
    destruct (lookup_lt_is_Some_2 l (off + k)) as [x Hx]; [lia|].
    rewrite (drop_S l x (off + k) Hx).
    simpl. rewrite <- !app_assoc.
    replace (off + k - (off `min` length l + k))%nat with 0%nat by lia.
    simpl. by replace (off + S k)%nat with (S (off + k)) by lia.
Qed.

Lemma take_splice {A} (a b c : list A) :
  take (length a + length b) (a ++ b ++ c) = a ++ b.
Proof. rewrite app_assoc. apply take_app_length'. by rewrite length_app. Qed.

Lemma drop_splice {A} (a b c : list A) (m : nat) :
  drop (length a + length b + m) (a ++ b ++ c) = drop m c.
Proof.
  rewrite app_assoc, <- length_app, drop_app_ge by lia.
  f_equal. lia.
Qed.

Lemma overwrite_full (src buf : list byte) :
  (length buf <= length src)%nat -> overwrite src buf = src.
Proof.
  intros H. unfold overwrite. rewrite drop_ge by done. apply app_nil_r.
Qed.

Lemma length_new_buffer (uninit : string -> nat -> byte) name n :
  length (new_buffer uninit name n) = Z.to_nat n.
Proof. unfold new_buffer. by rewrite length_fmap, length_seq. Qed.

(** ** Machine integers *)

Lemma u32_small (z : Z) : 0 <= z < 2 ^ 32 -> u32 z = z.
Proof. intros. unfold u32. by apply Z.mod_small. Qed.




(** ** One block of the loop *)

Lemma length_spec_block {C} (aes : C -> list byte -> list byte) ctx blk bb :
  length (spec_block C aes ctx blk bb) = 16%nat.
Proof. unfold spec_block. by rewrite length_fmap, length_seq. Qed.

Lemma xor_row_splice (i : nat) (xorbuf bb dcbuf : list byte) :
  (16 * i + 16 <= length dcbuf)%nat ->
  Z.of_nat i * 16 + 16 < 2 ^ 32 ->
  xor_row (Z.of_nat i) xorbuf bb dcbuf =
  take (16 * i) dcbuf ++
  ((fun j => byte.xor (xorbuf !!! j) (spec_mask bb j)) <$> seq 0 16) ++
  drop (16 * i + 16) dcbuf.
Proof.
  intros Hlen Hi. unfold xor_row.
  change (seqZ 0 16) with (Z.of_nat <$> seq 0 16).
  rewrite foldl_fmap.
  rewrite <- foldl_insert_run by done.
  apply foldl_ext_in. intros a j Hj.
  apply elem_of_seq in Hj. unfold xor_store, spec_mask.
  rewrite Nat2Z.id, xor_store_value.
  rewrite (u32_small (Z.of_nat i * 16)) by lia.
  rewrite u32_small by lia.
  f_equal. lia.
Qed.

Lemma block_of_window {A} (data : list A) (off W b : nat) :
  (16 * b + 16 <= W)%nat ->
  take 16 (drop (16 * b) (take W (drop off data))) =
  take 16 (drop (off + 16 * b) data).
Proof.
  intros H. apply list_eq. intros i.
  destruct (decide (i < 16)%nat).
  - rewrite !lookup_take_lt, !lookup_drop by lia.
    rewrite lookup_take_lt, lookup_drop by lia.
    f_equal. lia.
  - by rewrite !lookup_take_ge by lia.
Qed.

Section ReadTheory.
Context {aes_decrypt_ctx : Type}.
Variable aes_decrypt : aes_decrypt_ctx -> list byte -> list byte.
Variable uninit : string -> nat -> byte.

#[local] Abbreviation obj := (RageFileObjCrypt_ITG2 aes_decrypt_ctx).
#[local] Abbreviation block_loop := (block_loop aes_decrypt_ctx aes_decrypt).
#[local] Abbreviation spec_blocks := (spec_blocks aes_decrypt_ctx aes_decrypt).
#[local] Abbreviation spec_block := (spec_block aes_decrypt_ctx aes_decrypt).
#[local] Abbreviation spec_read := (spec_read aes_decrypt_ctx aes_decrypt).
#[local] Abbreviation plain_byte := (plain_byte aes_decrypt_ctx aes_decrypt).
#[local] Abbreviation ReadInternal := (ReadInternal aes_decrypt_ctx aes_decrypt uninit).
#[local] Abbreviation Read := (Read aes_decrypt_ctx aes_decrypt uninit).

Lemma spec_blocks_S ctx start ct n i bb :
  spec_blocks ctx start ct (S n) i bb =
  spec_block ctx (take 16 (drop (16 * i) ct)) bb ++
  spec_blocks ctx start ct n (S i)
    (if (start + 16 * Z.of_nat i + 16) mod 4080 =? 0
     then zero_block else take 16 (drop (16 * i) ct)).
Proof. reflexivity. Qed.

Lemma block_loop_S ctx startpos crbuf n i dcbuf backbuffer :
  block_loop ctx startpos crbuf (S n) i dcbuf backbuffer =
  block_loop ctx startpos crbuf n (u32 (i + 1))
    (xor_row i (aes_decrypt ctx (take 16 (drop (Z.to_nat (u32 (i * 16))) crbuf)))
       backbuffer dcbuf)
    (if negb (u32 (u32 (startpos + u32 (i * 16)) + 16) mod 4080 =? 0)
     then overwrite (take 16 (drop (Z.to_nat (u32 (i * 16))) crbuf)) backbuffer
     else replicate 16 Byte.x00).
Proof. reflexivity. Qed.

Lemma length_spec_blocks ctx start ct n i bb :
  length (spec_blocks ctx start ct n i bb) = (16 * n)%nat.
Proof.
  revert i bb. induction n as [|n IH]; intros i bb; [done|].
  rewrite spec_blocks_S, length_app, length_spec_block, IH. lia.
Qed.

(** The block loop writes, over [dcbuf] from block [i] on, exactly the
    blocks the specification's recurrence produces. *)
Lemma block_loop_fst ctx startpos crbuf n :
  forall (i : nat) (dcbuf bb : list byte),
    0 <= startpos ->
    startpos + 16 * Z.of_nat (i + n) < 2 ^ 32 ->
    (16 * (i + n) <= length dcbuf)%nat ->
    (16 * (i + n) <= length crbuf)%nat ->
    length bb = 16%nat ->
    (block_loop ctx startpos crbuf n (Z.of_nat i) dcbuf bb).1 =
    take (16 * i) dcbuf ++ spec_blocks ctx startpos crbuf n i bb ++
    drop (16 * (i + n)) dcbuf.
Proof.
  induction n as [|n IH]; intros i dcbuf bb Hs Hmax Hdc Hcr Hbb.
  - rewrite Nat.add_0_r.
    change (dcbuf = take (16 * i) dcbuf ++ [] ++ drop (16 * i) dcbuf).
    by rewrite app_nil_l, take_drop.
  - rewrite block_loop_S, spec_blocks_S.
    rewrite (u32_small (Z.of_nat i * 16)) by lia.
    rewrite (u32_small (startpos + _)) by lia.
    rewrite (u32_small (startpos + _ + 16)) by lia.
    rewrite (u32_small (Z.of_nat i + 1)) by lia.
    replace (Z.to_nat (Z.of_nat i * 16)) with (16 * i)%nat by lia.
    replace (Z.of_nat i + 1) with (Z.of_nat (S i)) by lia.
    set (block := take 16 (drop (16 * i) crbuf)).
    assert (Hblock : length block = 16%nat).
    { subst block. rewrite length_take, length_drop. lia. }
    rewrite xor_row_splice by lia.
    set (row := (fun j => byte.xor (aes_decrypt ctx block !!! j) (spec_mask bb j)) <$> seq 0 16).
    assert (Hrow : length row = 16%nat) by (subst row; by rewrite length_fmap, length_seq).
    assert (Htk : length (take (16 * i) dcbuf) = (16 * i)%nat) by (rewrite length_take; lia).
    rewrite IH; try lia.
    + replace (16 * S i)%nat with (length (take (16 * i) dcbuf) + length row)%nat by lia.
      rewrite take_splice.
      replace (16 * (S i + n))%nat
        with (length (take (16 * i) dcbuf) + length row + 16 * n)%nat by lia.
      rewrite drop_splice, drop_drop.
      replace (16 * i + 16 + 16 * n)%nat with (16 * (i + S n))%nat by lia.
      rewrite <- !app_assoc. f_equal. f_equal.
      unfold spec_block. fold block. fold row. f_equal. f_equal.
      replace (startpos + Z.of_nat i * 16 + 16) with (startpos + 16 * Z.of_nat i + 16) by lia.
      destruct (_ =? 0); simpl; [done|].
      apply overwrite_full. lia.
    + rewrite !length_app, length_drop. lia.
    + destruct (negb _); [|done].
      rewrite overwrite_full; lia.
Qed.

Lemma QuantizeUp_16 (x : Z) :
  QuantizeUp x 16 = 16 * ((x + 15) / 16) /\ x <= QuantizeUp x 16 <= x + 15.
Proof.
  unfold QuantizeUp. replace (x + 16 - 1) with (x + 15) by lia.
  pose proof (Z.div_mod (x + 15) 16 ltac:(lia)).
  pose proof (Z.mod_pos_bound (x + 15) 16 ltac:(lia)). lia.
Qed.

Lemma set_fd_pos_twice p q (o : obj) :
  set_fd_pos p (set_fd_pos q o) = set_fd_pos p o.
Proof. reflexivity. Qed.

Lemma ReadInternal_spec (bytes : Z) (this : obj) :
  read_ok bytes this ->
  ReadInternal bytes this =
  {| rr_ret := bytes;
     rr_buffer := spec_read (fd_data this) (m_iHeaderSize this) (m_ctx this)
                    (m_iFilePos this) bytes;
     rr_obj := set_fd_pos (m_iFilePos this + bytes) this |}.
Proof.
  intros [Hpos Hbytes Hint Hhs Hwin].
  destruct (QuantizeUp_16 (m_iFilePos this + bytes)) as [HQ HQb].
  pose proof (Z.div_mod (m_iFilePos this) 16 ltac:(lia)) as Hdm.
  pose proof (Z.mod_pos_bound (m_iFilePos this) 16 ltac:(lia)) as Hmb.
  unfold ReadInternal, spec_read, Tell.
  set (c := m_iFilePos this) in *.
  set (hs := m_iHeaderSize this) in *.
  assert (Hc : u32 c = c) by (apply u32_small; lia).
  assert (Hst : u32 (c / 16 * 16) = c / 16 * 16) by (apply u32_small; lia).
  assert (Hq : s32 (usize (c + bytes)) = c + bytes).
  { unfold s32, usize. rewrite (Z.mod_small (c + bytes)) by lia.
    rewrite Z.mod_small; lia. }
  assert (He : u32 (QuantizeUp (c + bytes) 16) = QuantizeUp (c + bytes) 16)
    by (apply u32_small; lia).
  cbv zeta. rewrite Hc, Hst, Hq, He.
  set (start := c / 16 * 16) in *.
  set (fin := QuantizeUp (c + bytes) 16) in *.
  assert (Hb : usize (fin - start) = fin - start)
    by (unfold usize; apply Z.mod_small; lia).
  assert (Hd : u32 (c - start) = c - start) by (apply u32_small; lia).
  rewrite Hb, Hd.
  set (k0 := c / 16) in *.
  set (k1 := (c + bytes + 15) / 16) in *.
  assert (Hk : 0 <= k0 <= k1) by lia.
  assert (Hblocks : (fin - start) / 16 = k1 - k0).
  { replace (fin - start) with ((k1 - k0) * 16) by lia. apply Z.div_mul. lia. }
  rewrite Hblocks.
  assert (Htail : forall (this0 : obj) (bb : list byte),
    fd_data this0 = fd_data this -> m_iHeaderSize this0 = hs ->
    m_ctx this0 = m_ctx this ->
    set_fd_pos (c + bytes) this0 = set_fd_pos (c + bytes) this ->
    length bb = 16%nat ->
    (let '(got, this1) :=
       ReadDirect (fin - start) (SeekInternal (m_iHeaderSize this0 + start) this0) in
     let '(dcbuf, _) :=
       block_loop (m_ctx this1) start
         (overwrite got (new_buffer uninit "crbuf" (fin - start)))
         (Z.to_nat (k1 - k0)) 0 (new_buffer uninit "dcbuf" (fin - start)) bb in
     {| rr_ret := s32 bytes;
        rr_buffer := take (Z.to_nat bytes) (drop (Z.to_nat (c - start)) dcbuf);
        rr_obj := SeekInternal (c + bytes) this1 |}) =
    {| rr_ret := bytes;
       rr_buffer :=
         take (Z.to_nat bytes)
           (drop (Z.to_nat (c - start))
              (spec_blocks (m_ctx this) start
                 (take (Z.to_nat (fin - start))
                    (drop (Z.to_nat (hs + start)) (fd_data this)))
                 (Z.to_nat (k1 - k0)) 0 bb));
       rr_obj := set_fd_pos (c + bytes) this |}).
  { intros this0 bb Hdata Hhs0 Hctx Hset Hbb.
    unfold ReadDirect, SeekInternal.
    rewrite Hhs0.
    destruct (hs + start <? 0) eqn:E; [lia|].
    cbn [fd_pos fd_data set_fd_pos m_ctx].
    rewrite Hdata, Hctx.
    set (got := take (Z.to_nat (fin - start)) (drop (Z.to_nat (hs + start)) (fd_data this))).
    assert (Hgot : length got = Z.to_nat (fin - start)).
    { subst got. rewrite length_take, length_drop. lia. }
    rewrite overwrite_full by (rewrite length_new_buffer; lia).
    destruct (block_loop _ _ _ _ _ _ _) as [dcbuf bb'] eqn:Hloop.
    apply (f_equal fst) in Hloop. cbn [fst] in Hloop.
    change 0 with (Z.of_nat 0) in Hloop.
    rewrite block_loop_fst in Hloop;
      rewrite ?length_new_buffer; try lia.
    rewrite take_0, app_nil_l, drop_ge, app_nil_r in Hloop
      by (rewrite length_new_buffer; lia).
    subst dcbuf.
    destruct (c + bytes <? 0) eqn:E2; [lia|].
    f_equal.
    - unfold s32. rewrite Z.mod_small; lia.
    - by rewrite set_fd_pos_twice. }
  destruct (start mod 4080 =? 0) eqn:E.
  - rewrite Htail; try done.
    unfold spec_lookbehind. by rewrite E.
  - assert (16 <= start).
    { apply Z.eqb_neq in E.
      destruct (decide (k0 = 0)) as [H0|H0]; [|unfold start; lia].
      exfalso. apply E. unfold start. by rewrite H0. }
    rewrite (u32_small (start - 16)) by lia.
    unfold SeekInternal at 1.
    destruct (hs + (start - 16) <? 0) eqn:E2; [lia|].
    unfold ReadDirect at 1.
    cbn [fd_pos fd_data set_fd_pos].
    unfold spec_lookbehind. rewrite E.
    replace (hs + start - 16) with (hs + (start - 16)) by lia.
    change (Z.to_nat 16) with 16%nat.
    set (got := take 16 (drop _ _)).
    assert (Hgot : length got = 16%nat).
    { subst got. rewrite length_take, length_drop. lia. }
    rewrite overwrite_full by (rewrite length_new_buffer; lia).
    rewrite Htail; done.
Qed.

(** Each byte of the recurrence in closed form: the block holding it and
    the look-behind block that was current when it was produced. *)
Lemma spec_blocks_lookup ctx start ct n :
  forall (i : nat) (bb : list byte) (k : nat),
    (k < 16 * n)%nat ->
    spec_blocks ctx start ct n i bb !! k =
    Some (byte.xor
            (aes_decrypt ctx (take 16 (drop (16 * (i + k / 16)) ct))
               !!! (k mod 16)%nat)
            (spec_mask
               (if decide (k / 16 = 0)%nat then bb
                else if (start + 16 * Z.of_nat (i + k / 16)) mod 4080 =? 0
                     then zero_block
                     else take 16 (drop (16 * (i + k / 16 - 1)) ct))
               (k mod 16)%nat)).
Proof.
  induction n as [|n IH]; intros i bb k Hk; [lia|].
  rewrite spec_blocks_S.
  destruct (decide (k < 16)%nat) as [Hlt|Hge].
  - rewrite lookup_app_l by (rewrite length_spec_block; lia).
    rewrite Nat.div_small, Nat.mod_small by lia.
    rewrite decide_True by done.
    unfold spec_block. rewrite list_lookup_fmap, lookup_seq_lt by lia.
    rewrite Nat.add_0_r. reflexivity.
  - rewrite lookup_app_r by (rewrite length_spec_block; lia).
    rewrite length_spec_block, IH by lia.
    pose proof (Nat.div_mod_eq k 16) as Hdm.
    pose proof (Nat.mod_upper_bound k 16 ltac:(lia)) as Hmb.
    assert (Hq : (1 <= k / 16)%nat).
    { destruct (k / 16)%nat; lia. }
    assert (Hq' : ((k - 16) / 16 = k / 16 - 1)%nat).
    { symmetry. apply (Nat.div_unique _ _ _ (k mod 16)); lia. }
    assert (Hr' : ((k - 16) mod 16 = k mod 16)%nat).
    { symmetry. apply (Nat.mod_unique _ _ (k / 16 - 1)); lia. }
    rewrite Hq', Hr'.
    replace (S i + (k / 16 - 1))%nat with (i + k / 16)%nat by lia.
    rewrite (decide_False (P := (k / 16 = 0)%nat)) by lia.
    f_equal. f_equal. f_equal.
    destruct (decide (k / 16 - 1 = 0)%nat) as [H1|H1].
    + replace (i + k / 16)%nat with (S i) by lia.
      replace (start + 16 * Z.of_nat (S i)) with (start + 16 * Z.of_nat i + 16) by lia.
      replace (S i - 1)%nat with i by lia. done.
    + done.
Qed.

Lemma spec_read_lookup data hs ctx (c n : Z) (t : nat) :
  0 <= c -> 0 <= hs ->
  hs + QuantizeUp (c + n) 16 <= Z.of_nat (length data) ->
  Z.of_nat t < n ->
  spec_read data hs ctx c n !! t =
  Some (plain_byte data hs ctx (c + Z.of_nat t)).
Proof.
  intros Hc Hhs Hwin Ht.
  destruct (QuantizeUp_16 (c + n)) as [HQ HQb].
  pose proof (Z.div_mod c 16 ltac:(lia)) as Hdm.
  pose proof (Z.mod_pos_bound c 16 ltac:(lia)) as Hmb.
  unfold spec_read.
  set (start := c / 16 * 16) in *.
  set (fin := QuantizeUp (c + n) 16) in *.
  set (k0 := c / 16) in *.
  set (k1 := (c + n + 15) / 16) in *.
  assert (Hblocks : (fin - start) / 16 = k1 - k0).
  { replace (fin - start) with ((k1 - k0) * 16) by (unfold start; lia).
    apply Z.div_mul. lia. }
  rewrite Hblocks.
  rewrite lookup_take_lt, lookup_drop by lia.
  set (k := (Z.to_nat (c - start) + t)%nat).
  assert (Hkz : Z.of_nat k = c mod 16 + Z.of_nat t) by (unfold k, start; lia).
  assert (Hkfin : Z.of_nat k < fin - start) by (unfold start; lia).
  rewrite spec_blocks_lookup by (unfold start in *; lia).
  unfold plain_byte. f_equal.
  set (p := c + Z.of_nat t).
  assert (Hp : p = start + Z.of_nat k) by (unfold p, start; lia).
  assert (Hq : p / 16 = k0 + Z.of_nat (k / 16)).
  { rewrite Hp, Nat2Z.inj_div. unfold start.
    rewrite Z.add_comm, Z.div_add; lia. }
  assert (Hr : Z.to_nat (p mod 16) = (k mod 16)%nat).
  { rewrite Hp. unfold start. rewrite Z.add_comm, Z.mod_add by lia.
    rewrite <- (Nat2Z.id (k mod 16)). f_equal.
    by rewrite Nat2Z.inj_mod. }
  pose proof (Nat.div_mod_eq k 16) as Hkdm.
  pose proof (Nat.mod_upper_bound k 16 ltac:(lia)) as Hkmb.
  assert (Hkq : Z.of_nat (16 * (k / 16) + 16) <= fin - start).
  { assert (Z.of_nat (k / 16) < k1 - k0); [|unfold start; lia].
    unfold start in Hkfin. nia. }
  rewrite Hr, Hq.
  unfold ct_block_at.
  rewrite (block_of_window data) by lia.
  replace (Z.to_nat (hs + start) + 16 * (0 + k / 16))%nat
    with (Z.to_nat (hs + 16 * (k0 + Z.of_nat (k / 16)))) by (unfold start; lia).
  f_equal. f_equal.
  destruct (decide (k / 16 = 0)%nat) as [H0|H0].
  - unfold spec_lookbehind. rewrite H0.
    replace (16 * (k0 + Z.of_nat 0)) with start by (unfold start; lia).
    destruct (start mod 4080 =? 0); [done|].
    f_equal. f_equal. unfold start. lia.
  - replace (start + 16 * Z.of_nat (0 + k / 16))
      with (16 * (k0 + Z.of_nat (k / 16))) by (unfold start; lia).
    destruct (_ =? 0); [done|].
    rewrite (block_of_window data) by lia.
    f_equal. f_equal. unfold start. lia.
Qed.

Lemma length_spec_read data hs ctx (c n : Z) :
  0 <= c -> 0 <= n -> length (spec_read data hs ctx c n) = Z.to_nat n.
Proof.
  intros Hc Hn.
  destruct (QuantizeUp_16 (c + n)) as [HQ HQb].
  pose proof (Z.div_mod c 16 ltac:(lia)) as Hdm.
  pose proof (Z.mod_pos_bound c 16 ltac:(lia)) as Hmb.
  unfold spec_read.
  rewrite length_take, length_drop, length_spec_blocks.
  replace (QuantizeUp (c + n) 16 - c / 16 * 16)
    with (((c + n + 15) / 16 - c / 16) * 16) by lia.
  rewrite Z.div_mul by lia. lia.
Qed.

(** A read inside the ciphertext delivers, byte for byte, the plaintext at
    the offsets [c, c + n). *)
Lemma spec_read_plain data hs ctx (c n : Z) :
  0 <= c -> 0 <= n -> 0 <= hs ->
  hs + QuantizeUp (c + n) 16 <= Z.of_nat (length data) ->
  spec_read data hs ctx c n = plain_byte data hs ctx <$> seqZ c n.
Proof.
  intros Hc Hn Hhs Hwin. apply list_eq. intros t.
  destruct (decide (Z.of_nat t < n)) as [Ht|Ht].
  - rewrite spec_read_lookup by done.
    by rewrite list_lookup_fmap, lookup_seqZ_lt.
  - rewrite !lookup_ge_None_2; [done| |].
    + rewrite length_fmap, length_seqZ. lia.
    + rewrite length_spec_read by done. lia.
Qed.

Lemma QuantizeUp_mono (x y : Z) : x <= y -> QuantizeUp x 16 <= QuantizeUp y 16.
Proof.
  intros H. destruct (QuantizeUp_16 x) as [-> _], (QuantizeUp_16 y) as [-> _].
  pose proof (Z.div_le_mono (x + 15) (y + 15) 16 ltac:(lia) ltac:(lia)). lia.
Qed.

(** A ciphertext block at or after a segment boundary is read from the
    part of the file behind that boundary. *)
Lemma ct_block_at_behind (data : list byte) (hs m b : Z) :
  0 <= hs -> 0 <= m -> 4080 * m <= 16 * b ->
  ct_block_at data hs b =
  take 16 (drop (Z.to_nat (16 * b - 4080 * m))
                (drop (Z.to_nat (hs + 4080 * m)) data)).
Proof.
  intros Hhs Hm Hb. unfold ct_block_at. rewrite drop_drop.
  f_equal. f_equal. lia.
Qed.

Lemma plain_byte_behind (d1 d2 : list byte) (hs m : Z) ctx (p : Z) :
  0 <= hs -> 0 <= m -> 4080 * m <= p ->
  drop (Z.to_nat (hs + 4080 * m)) d1 = drop (Z.to_nat (hs + 4080 * m)) d2 ->
  plain_byte d1 hs ctx p = plain_byte d2 hs ctx p.
Proof.
  intros Hhs Hm Hp Hd. unfold plain_byte.
  pose proof (Z.div_mod p 16 ltac:(lia)) as Hdm.
  pose proof (Z.mod_pos_bound p 16 ltac:(lia)) as Hmb.
  assert (Hb : 4080 * m <= 16 * (p / 16)).
  { assert (255 * m <= p / 16); [|lia].
    apply Z.div_le_lower_bound; lia. }
  rewrite (ct_block_at_behind d1 hs m), (ct_block_at_behind d2 hs m), Hd by done.
  f_equal.
  destruct (16 * (p / 16) mod 4080 =? 0) eqn:E; [done|].
  apply Z.eqb_neq in E.
  assert (Hb' : 4080 * m <= 16 * (p / 16 - 1)).
  { destruct (decide (16 * (p / 16) = 4080 * m)) as [Heq|Hne]; [|lia].
    exfalso. apply E. rewrite Heq, Z.mul_comm. apply Z.mod_mul. lia. }
  by rewrite (ct_block_at_behind d1 hs m), (ct_block_at_behind d2 hs m), Hd.
Qed.

Lemma read_ok_prefix (n k : Z) (this : obj) :
  read_ok n this -> 0 <= k <= n -> read_ok k this.
Proof.
  intros [? ? ? ? Hw] Hk. split; try lia.
  pose proof (QuantizeUp_mono (m_iFilePos this + k) (m_iFilePos this + n)). lia.
Qed.

Lemma Read_spec (bytes : Z) (this : obj) :
  read_ok bytes this ->
  Read bytes this =
  {| rr_ret := bytes;
     rr_buffer := spec_read (fd_data this) (m_iHeaderSize this) (m_ctx this)
                    (m_iFilePos this) bytes;
     rr_obj := set_iFilePos (m_iFilePos this + bytes)
                 (set_fd_pos (m_iFilePos this + bytes) this) |}.
Proof. intros H. unfold Read. by rewrite ReadInternal_spec. Qed.

(** [ReadInternal] has one [return], and it returns the request: no branch
    looks at what [ReadDirect] delivered. *)
Lemma ReadInternal_ret (bytes : Z) (this : obj) :
  rr_ret (ReadInternal bytes this) = s32 bytes.
Proof.
  unfold ReadInternal. cbv zeta.
  destruct (_ mod 4080 =? 0); unfold ReadDirect;
    by destruct (block_loop _ _ _ _ _ _ _).
Qed.

(** ** The claims about [ReadInternal] *)

(** C1. For a read whose block window lies inside the ciphertext on disk,
    the bytes [ReadInternal] stores in the caller's buffer are those of the
    specification's procedure: the look-behind block is zero when the
    aligned start is a multiple of 4080 and the preceding ciphertext block
    otherwise, each plaintext byte is the AES-decrypted byte XOR
    ((backbuffer[j] - j) mod 256), the backbuffer is reset to zero at
    every multiple of 4080 and set to the ciphertext block otherwise, and
    the slice [c - start, c - start + n) is delivered. *)
Theorem ReadInternal_plaintext_window (bytes : Z) (this : obj) :
  read_ok bytes this ->
  rr_buffer (ReadInternal bytes this) =
  spec_read (fd_data this) (m_iHeaderSize this) (m_ctx this)
            (m_iFilePos this) bytes.
Proof. intros H. by rewrite ReadInternal_spec. Qed.

(** C2 (amended). A read whose block window lies inside the ciphertext is
    not truncated at [m_iFileSize]: it returns the requested count,
    delivers that many bytes and leaves the cursor (and the raw
    descriptor) at [c + n]. *)
Theorem Read_not_truncated (bytes : Z) (this : obj) :
  read_ok bytes this ->
  rr_ret (Read bytes this) = bytes /\
  Z.of_nat (length (rr_buffer (Read bytes this))) = bytes /\
  m_iFilePos (rr_obj (Read bytes this)) = m_iFilePos this + bytes /\
  fd_pos (rr_obj (ReadInternal bytes this)) = m_iFilePos this + bytes.
Proof.
  intros H. unfold Read. rewrite ReadInternal_spec by done.
  cbn [rr_ret rr_buffer rr_obj set_iFilePos set_fd_pos m_iFilePos fd_pos].
  destruct H. rewrite length_spec_read by lia. repeat split; lia.
Qed.

(** C8. Two files that agree from the segment boundary 4080*m on (and may
    differ anywhere before it) decrypt alike from that boundary on: the
    parts of the two delivered buffers that lie at plaintext offsets
    >= 4080*m are equal. *)
Theorem chain_reset_independence (m bytes : Z) (this1 this2 : obj) :
  0 <= m ->
  read_ok bytes this1 -> read_ok bytes this2 ->
  m_iFilePos this1 = m_iFilePos this2 ->
  m_iHeaderSize this1 = m_iHeaderSize this2 ->
  m_ctx this1 = m_ctx this2 ->
  drop (Z.to_nat (m_iHeaderSize this1 + 4080 * m)) (fd_data this1) =
  drop (Z.to_nat (m_iHeaderSize this1 + 4080 * m)) (fd_data this2) ->
  drop (Z.to_nat (4080 * m - m_iFilePos this1))
       (rr_buffer (ReadInternal bytes this1)) =
  drop (Z.to_nat (4080 * m - m_iFilePos this1))
       (rr_buffer (ReadInternal bytes this2)).
Proof.
  intros Hm H1 H2 Hc Hhs Hctx Hd.
  rewrite !ReadInternal_spec by done. cbn [rr_buffer].
  destruct H1 as [? ? ? ? Hw1], H2 as [? ? ? ? Hw2].
  rewrite !spec_read_plain by lia.
  rewrite <- Hc, <- Hhs, <- Hctx.
  apply list_eq. intros t. rewrite !lookup_drop, !list_lookup_fmap.
  destruct (seqZ (m_iFilePos this1) bytes !! _) as [p|] eqn:E; [|done].
  apply lookup_seqZ in E as [-> ?]. cbn [fmap option_fmap option_map].
  f_equal. apply (plain_byte_behind _ _ _ m); try done; lia.
Qed.

(** C9. A read of [n] bytes delivers the bytes of a read of [k] followed by
    a read of [n - k], and both ways leave the cursor at [c + n]. *)
Theorem split_read_equivalence (n k : Z) (this : obj) :
  read_ok n this -> 0 < k < n ->
  let whole := Read n this in
  let first := Read k this in
  let second := Read (n - k) (rr_obj first) in
  rr_buffer whole = rr_buffer first ++ rr_buffer second /\
  m_iFilePos (rr_obj whole) = m_iFilePos this + n /\
  m_iFilePos (rr_obj second) = m_iFilePos this + n.
Proof.
  intros Hn Hk.
  assert (Hfirst : read_ok k this) by (apply (read_ok_prefix n); [done|lia]).
  cbv zeta. rewrite (Read_spec k this), (Read_spec n this) by done.
  cbn [rr_ret rr_buffer rr_obj].
  set (this' := set_iFilePos _ _).
  assert (Hsecond : read_ok (n - k) this').
  { destruct Hn. split; cbn [this' set_iFilePos set_fd_pos m_iFilePos
      m_iHeaderSize fd_data]; try lia.
    by replace (m_iFilePos this + k + (n - k)) with (m_iFilePos this + n) by lia. }
  rewrite (Read_spec _ this') by done.
  cbn [rr_ret rr_buffer rr_obj this' set_iFilePos set_fd_pos m_iFilePos
       m_iHeaderSize fd_data m_ctx].
  destruct Hn as [? ? ? ? Hw], Hfirst as [? ? ? ? Hw1], Hsecond as [_ _ _ _ Hw2].
  cbn [this' set_iFilePos set_fd_pos m_iFilePos m_iHeaderSize fd_data] in Hw2.
  rewrite !spec_read_plain by lia.
  rewrite <- fmap_app, <- seqZ_app by lia.
  split; [|lia]. f_equal. f_equal. lia.
Qed.

Lemma SeekInternal_frame (offset : Z) (o : obj) :
  exists p, SeekInternal offset o = set_fd_pos p o.
Proof.
  unfold SeekInternal. destruct (offset <? 0); [|by eexists].
  exists (fd_pos o). by destruct o.
Qed.

Lemma ReadInternal_frame (bytes : Z) (this : obj) :
  exists p, rr_obj (ReadInternal bytes this) = set_fd_pos p this.
Proof.
  unfold ReadInternal. cbv zeta.
  destruct (_ mod 4080 =? 0).
  - unfold ReadDirect.
    destruct (block_loop _ _ _ _ _ _ _). cbn [rr_obj].
    destruct (SeekInternal_frame (m_iHeaderSize this + u32 (u32 (Tell this) / 16 * 16)) this)
      as [p ->].
    cbn [fd_pos fd_data set_fd_pos m_ctx].
    match goal with |- context [SeekInternal ?x ?o] =>
      destruct (SeekInternal_frame x o) as [q ->] end.
    by eexists.
  - unfold ReadDirect.
    match goal with |- context [SeekInternal ?x this] =>
      destruct (SeekInternal_frame x this) as [p0 ->] end.
    cbn [fd_pos fd_data set_fd_pos m_ctx m_iHeaderSize].
    match goal with |- context [SeekInternal ?x ?o] =>
      destruct (SeekInternal_frame x o) as [p1 ->] end.
    cbn [fd_pos fd_data set_fd_pos m_ctx m_iHeaderSize].
    destruct (block_loop _ _ _ _ _ _ _). cbn [rr_obj].
    match goal with |- context [SeekInternal ?x ?o] =>
      destruct (SeekInternal_frame x o) as [q ->] end.
    by eexists.
Qed.

(** C10. [ReadInternal] changes nothing of the object but the raw
    descriptor's offset; and any run of read, seek and tell operations
    leaves the header size, the plaintext size, the AES key schedule, the
    secret, the file's contents and the process-wide state (key cache and
    checkpoint trace) as they were. *)
Theorem read_seek_tell_frame :
  (forall (bytes : Z) (this : obj),
      let o := rr_obj (ReadInternal bytes this) in
      m_iHeaderSize o = m_iHeaderSize this /\
      m_iFileSize o = m_iFileSize this /\
      m_ctx o = m_ctx this /\
      m_sSecret o = m_sSecret this /\
      fd_data o = fd_data this /\
      m_iFilePos o = m_iFilePos this) /\
  (forall (ops : list file_op) (p : process aes_decrypt_ctx),
      let p' := run_ops aes_decrypt_ctx aes_decrypt uninit ops p in
      p_globals p' = p_globals p /\
      m_iHeaderSize (p_file p') = m_iHeaderSize (p_file p) /\
      m_iFileSize (p_file p') = m_iFileSize (p_file p) /\
      m_ctx (p_file p') = m_ctx (p_file p) /\
      m_sSecret (p_file p') = m_sSecret (p_file p) /\
      fd_data (p_file p') = fd_data (p_file p)).
Proof.
  assert (Hread : forall (bytes : Z) (this : obj),
      let o := rr_obj (ReadInternal bytes this) in
      m_iHeaderSize o = m_iHeaderSize this /\
      m_iFileSize o = m_iFileSize this /\
      m_ctx o = m_ctx this /\
      m_sSecret o = m_sSecret this /\
      fd_data o = fd_data this /\
      m_iFilePos o = m_iFilePos this).
  { intros bytes this. cbv zeta.
    destruct (ReadInternal_frame bytes this) as [p ->]. done. }
  split; [exact Hread|].
  intros ops. unfold run_ops.
  induction ops as [|op ops IH] using rev_ind; intros p; [done|].
  rewrite foldl_app. cbn [foldl]. cbv zeta in IH |- *.
  specialize (IH p). destruct IH as (Hg & Hh & Hs & Hc & Hsec & Hd).
  set (q := foldl _ p ops) in *.
  destruct op as [bytes|pos|]; cbn [run_op p_globals p_file]; [| |done].
  - unfold Read. cbn [rr_obj].
    destruct (Hread bytes (p_file q)) as (? & ? & ? & ? & ? & ?).
    cbn [set_iFilePos m_iHeaderSize m_iFileSize m_ctx m_sSecret fd_data].
    repeat split; congruence.
  - unfold Seek.
    cbn [set_iFilePos m_iHeaderSize m_iFileSize m_ctx m_sSecret fd_data].
    done.
Qed.

End ReadTheory.

Lemma le_decode_bound (bs : list byte) :
  0 <= le_decode bs < 256 ^ Z.of_nat (length bs).
Proof.
  induction bs as [|b bs IH].
  - simpl. lia.
  - cbn [le_decode length]. rewrite Nat2Z.inj_succ, Z.pow_succ_r by lia.
    pose proof (byte.unsigned_range b). lia.
Qed.

Lemma length_le_encode (n : nat) (z : Z) : length (le_encode n z) = n.
Proof. revert z. induction n as [|n IH]; intros z; simpl; [done|]. by rewrite IH. Qed.

Section OpenTheory.
Context {aes_decrypt_ctx : Type}.
Variable aes_decrypt_key : list byte -> aes_decrypt_ctx.
Variable aes_decrypt : aes_decrypt_ctx -> list byte -> list byte.
Variable SHA512_Simple : list byte -> list byte.
Variable GetAESKey : list byte -> list byte.
Variable uninit : string -> nat -> byte.

#[local] Abbreviation obj := (RageFileObjCrypt_ITG2 aes_decrypt_ctx).
#[local] Abbreviation OpenInternal :=
  (OpenInternal aes_decrypt_ctx aes_decrypt_key aes_decrypt SHA512_Simple GetAESKey uninit).
#[local] Abbreviation find_or_generate_key :=
  (find_or_generate_key SHA512_Simple GetAESKey uninit).
#[local] Abbreviation generate_key :=
  (generate_key SHA512_Simple GetAESKey uninit).
#[local] Abbreviation verifies := (verifies aes_decrypt_ctx aes_decrypt_key aes_decrypt).

Lemma ReadDirect_eq (n p : Z) (o : obj) (data : list byte) :
  fd_pos o = p -> fd_data o = data ->
  ReadDirect n o =
  (take (Z.to_nat n) (drop (Z.to_nat p) data),
   set_fd_pos (p + Z.of_nat (length (take (Z.to_nat n) (drop (Z.to_nat p) data)))) o).
Proof. intros <- <-. reflexivity. Qed.

Lemma bad_magic_parse (secret header : list byte) :
  length header = 2%nat ->
  bad_magic secret header =
  if bool_decide (secret = []) && negb (bool_decide (header = [ch_colon; ch_bar]))
  then Some not_an_arcade_file
  else if negb (bool_decide (secret = [])) && negb (bool_decide (header = [ch_8; ch_O]))
       then Some not_a_patch_file else None.
Proof.
  intros Hlen. destruct header as [|a [|b [|? ?]]]; try discriminate.
  unfold bad_magic. cbn [lookup_total list_lookup_total].
  repeat case_bool_decide; simpl; try done; congruence.
Qed.

(** [OpenInternal] against the parsed header: where the parse fails the
    open fails with the same warning and leaves the process-wide state alone;
    where it succeeds the open runs the key step and the verification on the
    parsed fields. *)
Lemma OpenInternal_char disk (sPath : CString) (g : globals) (this : obj)
    (data : list byte) :
  disk (chars sPath) = Some data ->
  let r := OpenInternal disk sPath g this in
  match parse_header (m_sSecret this) data with
  | inl w => or_ret r = false /\ or_warn r = Some w /\ or_globals r = g
  | inr meta =>
      let kg := find_or_generate_key (m_sSecret this) sPath
                  (Z.of_nat (length (subkey meta))) (subkey meta) g in
      let this' :=
        {| fd_data := data; fd_pos := header_size meta;
           m_iFilePos := m_iFilePos this;
           m_iHeaderSize := header_size meta;
           m_iFileSize := plaintext_size meta;
           m_ctx := aes_decrypt_key (take 24 kg.1);
           m_sSecret := m_sSecret this |} in
      r = if bool_decide (verifies kg.1 (verify_block meta))
          then {| or_ret := true; or_warn := None; or_globals := kg.2;
                  or_obj := this' |}
          else open_fail (Some unexpected_decryption_magic) kg.2 this'
  end.
Proof.
  intros Hdisk r. subst r.
  unfold OpenInternal, OpenDirect, parse_header. rewrite Hdisk.
  set (len := Z.of_nat (length data)).
  (* header[2] *)
  rewrite (ReadDirect_eq 2 0 _ data) by reflexivity.
  cbv beta iota.
  change (Z.to_nat 0) with 0%nat. change (Z.to_nat 2) with 2%nat.
  rewrite drop_0.
  assert (Hl2 : Z.of_nat (length (take 2 data)) = Z.min 2 len)
    by (rewrite length_take; lia).
  rewrite Hl2.
  replace (Z.min 2 len <? 2) with (len <? 2) by lia.
  destruct (Z.ltb_spec len 2) as [H2|H2]; [done|].
  rewrite Z.min_l by lia.
  change (m_sSecret (set_fd_pos (0 + 2) (set_fd data this))) with (m_sSecret this).
  rewrite bad_magic_parse by (rewrite length_take; lia).
  destruct (bool_decide (m_sSecret this = []) && _) eqn:Ea; [done|].
  destruct (negb (bool_decide (m_sSecret this = [])) && _) eqn:Ep; [done|].
  clear Ea Ep Hl2.
  (* m_iFileSize *)
  rewrite (ReadDirect_eq 4 2 _ data) by reflexivity.
  cbv beta iota.
  change (Z.to_nat 4) with 4%nat. change (Z.to_nat 2) with 2%nat.
  set (size_bytes := take 4 (drop 2 data)).
  assert (Hl6 : Z.of_nat (length size_bytes) = Z.min 4 (len - 2))
    by (unfold size_bytes; rewrite length_take, length_drop; lia).
  replace (Z.of_nat (length size_bytes) <? 4) with (len <? 6) by lia.
  destruct (Z.ltb_spec len 6) as [H6|H6]; [done|].
  rewrite overwrite_full by (rewrite length_le_encode; lia).
  rewrite Hl6, Z.min_l by lia. clear Hl6.
  (* subkey_size *)
  rewrite (ReadDirect_eq 4 6 _ data) by reflexivity.
  cbv beta iota.
  change (Z.to_nat 4) with 4%nat. change (Z.to_nat 6) with 6%nat.
  set (sk_bytes := take 4 (drop 6 data)).
  assert (Hl10 : Z.of_nat (length sk_bytes) = Z.min 4 (len - 6))
    by (unfold sk_bytes; rewrite length_take, length_drop; lia).
  replace (Z.of_nat (length sk_bytes) <? 4) with (len <? 10) by lia.
  destruct (Z.ltb_spec len 10) as [H10|H10]; [done|].
  rewrite overwrite_full by (rewrite length_new_buffer; lia).
  rewrite Hl10, Z.min_l by lia.
  pose proof (le_decode_bound sk_bytes) as Hsk.
  replace (Z.of_nat (length sk_bytes)) with 4 in Hsk by lia.
  clear Hl10.
  set (sk := le_decode sk_bytes) in *.
  (* subkey *)
  rewrite (ReadDirect_eq sk 10 _ data) by reflexivity.
  cbv beta iota.
  change (Z.to_nat 10) with 10%nat.
  set (sub := take (Z.to_nat sk) (drop 10 data)).
  assert (Hlsk : Z.of_nat (length sub) = Z.min sk (len - 10))
    by (unfold sub; rewrite length_take, length_drop; lia).
  rewrite (u32_small (Z.of_nat (length sub))) by lia.
  replace (Z.of_nat (length sub) <? sk) with (len <? 10 + sk) by lia.
  destruct (Z.ltb_spec len (10 + sk)) as [Hs|Hs]; [done|].
  rewrite Z.min_l in Hlsk by lia.
  rewrite overwrite_full by (rewrite length_new_buffer; lia).
  rewrite Hlsk.
  (* verifyblock *)
  rewrite (ReadDirect_eq 16 (10 + sk) _ data) by reflexivity.
  cbv beta iota.
  change (Z.to_nat 16) with 16%nat.
  set (verifyblock := take 16 (drop (Z.to_nat (10 + sk)) data)).
  assert (Hlv : Z.of_nat (length verifyblock) = Z.min 16 (len - (10 + sk)))
    by (unfold verifyblock; rewrite length_take, length_drop; lia).
  rewrite (u32_small (Z.of_nat (length verifyblock))) by lia.
  replace (Z.of_nat (length verifyblock) <? 16) with (len <? 10 + sk + 16) by lia.
  destruct (Z.ltb_spec len (10 + sk + 16)) as [Hv|Hv]; [done|].
  rewrite Z.min_l in Hlv by lia.
  rewrite overwrite_full by (rewrite length_new_buffer; lia).
  rewrite Hlv.
  (* the key and the verification *)
  cbn [m_sSecret m_iHeaderSize m_iFileSize m_iFilePos m_ctx fd_data fd_pos
       set_iHeaderSize set_fd_pos set_iFileSize set_fd set_ctx
       subkey verify_block header_size plaintext_size].
  fold sub verifyblock. rewrite Hlsk.
  destruct (find_or_generate_key _ _ _ _ _) as [key g'].
  cbn [fst snd]. unfold verifies, open_fail.
  replace (10 + sk + 16) with (2 + 4 + 4 + sk + 16) by lia.
  repeat case_bool_decide; simpl; try done; tauto.
Qed.

Lemma OpenInternal_no_file disk (sPath : CString) (g : globals) (this : obj) :
  disk (chars sPath) = None ->
  OpenInternal disk sPath g this = open_fail None g this.
Proof. intros H. unfold OpenInternal, OpenDirect. by rewrite H. Qed.

Lemma generate_key_cache secret sk sub (g : globals) :
  g_KnownKeys (generate_key secret sk sub g).2 = g_KnownKeys g.
Proof. unfold generate_key. by case_bool_decide. Qed.

(** With the 47-byte secret and a buffer size that does not wrap, the
    generated key is the SecretDeriver's. *)
Lemma generate_key_patch (secret sub : list byte) (g : globals) :
  length secret = 47%nat ->
  Z.of_nat (length sub) + 47 < 2 ^ 32 ->
  generate_key secret (Z.of_nat (length sub)) sub g =
  (take 24 (SHA512_Simple (sub ++ secret)), CHECKPOINT_M "patch" g).
Proof.
  intros Hsec Hlen. unfold generate_key.
  rewrite bool_decide_false by (intros ->; discriminate).
  unfold secret_bytes.
  rewrite (take_app_length' secret) by done.
  rewrite u32_small by lia.
  rewrite Nat2Z.id, firstn_all.
  rewrite (take_ge (sub ++ secret)) by (rewrite length_app; lia).
  done.
Qed.

Lemma derivations_app (t1 t2 : list string) :
  derivations (t1 ++ t2) = (derivations t1 + derivations t2)%nat.
Proof. unfold derivations. by rewrite filter_app, length_app. Qed.

(** One open and the cache entry under the path's address: a present entry
    is kept and nothing is derived; with no entry, either the process-wide
    state is untouched or exactly one key is derived and entered. *)
Lemma open_step_derivations disk (sPath : CString) (g : globals) (this : obj) :
  let r := OpenInternal disk sPath g this in
  match g_KnownKeys g !! c_str sPath with
  | Some k =>
      derivations (checkpoints (or_globals r)) = derivations (checkpoints g) /\
      g_KnownKeys (or_globals r) !! c_str sPath = Some k
  | None =>
      or_globals r = g \/
      (derivations (checkpoints (or_globals r)) = S (derivations (checkpoints g)) /\
       is_Some (g_KnownKeys (or_globals r) !! c_str sPath))
  end.
Proof.
  cbv zeta. destruct (disk (chars sPath)) as [data|] eqn:Hdisk.
  - pose proof (OpenInternal_char disk sPath g this data Hdisk) as H.
    cbv zeta in H.
    destruct (parse_header (m_sSecret this) data) as [w|meta].
    + destruct H as (_ & _ & ->). destruct (_ !! _); [done|by left].
    + rewrite H. clear H. unfold find_or_generate_key.
      destruct (g_KnownKeys g !! c_str sPath) as [k|] eqn:Hk.
      * case_bool_decide;
          cbn [fst snd or_globals open_fail CHECKPOINT_M checkpoints g_KnownKeys];
          by rewrite derivations_app, Nat.add_0_r.
      * right. unfold generate_key.
        repeat case_bool_decide;
          cbn [fst snd or_globals open_fail CHECKPOINT_M save_key checkpoints
               g_KnownKeys];
          rewrite derivations_app, lookup_insert_eq;
          (split; [vm_compute (derivations [_]); lia | by eexists]).
  - rewrite OpenInternal_no_file by done.
    destruct (_ !! _); [done|by left].
Qed.

(** What the cache does guarantee: sequential opens through one ADDRESS
    derive the key at most once, and not at all when the cache already holds
    an entry under that address. *)
Lemma same_address_derived_once disk (p : Z)
    (opens : list (CString * obj)) :
  Forall (fun o => c_str o.1 = p) opens ->
  forall g : globals,
    let g' := (open_all aes_decrypt_ctx aes_decrypt_key aes_decrypt SHA512_Simple
                 GetAESKey uninit disk opens g).2 in
    (derivations (checkpoints g') <= S (derivations (checkpoints g)))%nat /\
    (is_Some (g_KnownKeys g !! p) ->
     derivations (checkpoints g') = derivations (checkpoints g) /\
     is_Some (g_KnownKeys g' !! p)).
Proof.
  induction 1 as [|[sPath this] opens Hp _ IH]; intros g; cbv zeta.
  - cbn. split; [lia|done].
  - cbn [open_all]. cbn [fst] in Hp.
    pose proof (open_step_derivations disk sPath g this) as Hstep.
    cbv zeta in Hstep. rewrite Hp in Hstep.
    set (r := OpenInternal disk sPath g this) in *.
    specialize (IH (or_globals r)). cbv zeta in IH.
    destruct (open_all _ _ _ _ _ _ _ opens (or_globals r)) as [rs g'].
    cbn [snd] in *. destruct IH as [IHle IHhit].
    destruct (g_KnownKeys g !! p) as [k|] eqn:Hk.
    + destruct Hstep as [Hd Hkeep].
      destruct (IHhit ltac:(by eexists)) as [Hd' Hk'].
      split; [lia|]. intros _. split; [lia|done].
    + split; [|by intros [? ?]].
      destruct Hstep as [Hsame|[Hd Hin]].
      * rewrite Hsame in IHle. lia.
      * destruct (IHhit Hin) as [Hd' _]. lia.
Qed.

(** ** The claims about [OpenInternal] *)

(** C3 (amended). What an open does to the key cache: nothing when the raw
    open or the header parse fails, and nothing when the cache already has
    an entry under the path's address; otherwise the generated key is
    entered under that address, before the verify block is decrypted and
    whatever that check then finds. *)
Theorem cache_after_open disk (sPath : CString) (g : globals) (this : obj) :
  let r := OpenInternal disk sPath g this in
  match disk (chars sPath) with
  | None => or_globals r = g
  | Some data =>
      match parse_header (m_sSecret this) data with
      | inl _ => or_globals r = g
      | inr meta =>
          match g_KnownKeys g !! c_str sPath with
          | Some _ => g_KnownKeys (or_globals r) = g_KnownKeys g
          | None =>
              g_KnownKeys (or_globals r) =
              <[c_str sPath :=
                  (generate_key (m_sSecret this)
                     (Z.of_nat (length (subkey meta))) (subkey meta) g).1]>
                (g_KnownKeys g)
          end
      end
  end.
Proof.
  cbv zeta. destruct (disk (chars sPath)) as [data|] eqn:Hdisk.
  - pose proof (OpenInternal_char disk sPath g this data Hdisk) as H.
    cbv zeta in H.
    destruct (parse_header (m_sSecret this) data) as [w|meta]; [tauto|].
    rewrite H. clear H. unfold find_or_generate_key.
    destruct (g_KnownKeys g !! c_str sPath) as [key|];
      [by case_bool_decide|].
    pose proof (generate_key_cache (m_sSecret this)
                  (Z.of_nat (length (subkey meta))) (subkey meta) g) as Hc.
    destruct (generate_key _ _ _ _) as [key g1].
    cbn [fst snd] in *.
    case_bool_decide; cbn [or_globals open_fail save_key g_KnownKeys];
      by rewrite Hc.
  - by rewrite OpenInternal_no_file.
Qed.

(** C7. A patch-variant open (the 47-byte secret configured) that parses the
    header and finds no key under the path's address derives the AES key as
    the first 24 bytes of SHA-512(subkey ++ secret): that key is entered in
    the cache, expanded into the key schedule, and the derivation is marked
    by the "patch" checkpoint. *)
Theorem patch_key_derivation disk (sPath : CString) (g : globals) (this : obj)
    (data : list byte) (meta : FileMeta) :
  length (m_sSecret this) = 47%nat ->
  disk (chars sPath) = Some data ->
  parse_header (m_sSecret this) data = inr meta ->
  g_KnownKeys g !! c_str sPath = None ->
  Z.of_nat (length (subkey meta)) + 47 < 2 ^ 32 ->
  let key := take 24 (SHA512_Simple (subkey meta ++ m_sSecret this)) in
  let r := OpenInternal disk sPath g this in
  generate_key (m_sSecret this) (Z.of_nat (length (subkey meta))) (subkey meta) g
    = (key, CHECKPOINT_M "patch" g) /\
  g_KnownKeys (or_globals r) !! c_str sPath = Some key /\
  m_ctx (or_obj r) = aes_decrypt_key key /\
  checkpoints (or_globals r) = checkpoints g ++ ["patch"%string].
Proof.
  intros Hsec Hdisk Hparse Hmiss Hlen. cbv zeta.
  pose proof (OpenInternal_char disk sPath g this data Hdisk) as H.
  cbv zeta in H. rewrite Hparse in H. rewrite H. clear H.
  unfold find_or_generate_key. rewrite Hmiss.
  rewrite generate_key_patch by done.
  cbn [fst snd].
  set (key := take 24 (SHA512_Simple _)).
  assert (Hkey : take 24 key = key)
    by (unfold key; rewrite take_take; f_equal).
  split; [done|].
  case_bool_decide; cbn [or_globals or_obj open_fail save_key g_KnownKeys
    checkpoints CHECKPOINT_M m_ctx]; by rewrite lookup_insert_eq, Hkey.
Qed.

End OpenTheory.

(** C5. Once the header is parsed, [OpenInternal] returns true exactly when
    the verify block, AES-decrypted under the key of the key step (the cached
    one, or the derived one when the cache has none), begins with ':' and
    'D'; otherwise it returns false with the "unexpected decryption magic"
    warning. The other fourteen decrypted bytes have no influence: a cipher
    that agrees on the first two bytes gives the same result. *)
Theorem verify_block_gate {aes_decrypt_ctx : Type}
    (aes_decrypt_key : list byte -> aes_decrypt_ctx)
    (aes_decrypt aes_decrypt' : aes_decrypt_ctx -> list byte -> list byte)
    (SHA512_Simple GetAESKey : list byte -> list byte)
    (uninit : string -> nat -> byte)
    disk (sPath : CString) (g : globals)
    (this : RageFileObjCrypt_ITG2 aes_decrypt_ctx)
    (data : list byte) (meta : FileMeta) :
  disk (chars sPath) = Some data ->
  parse_header (m_sSecret this) data = inr meta ->
  let key := (find_or_generate_key SHA512_Simple GetAESKey uninit
                (m_sSecret this) sPath
                (Z.of_nat (length (subkey meta))) (subkey meta) g).1 in
  let pt := aes_decrypt (aes_decrypt_key (take 24 key)) (verify_block meta) in
  let r := OpenInternal aes_decrypt_ctx aes_decrypt_key aes_decrypt
             SHA512_Simple GetAESKey uninit disk sPath g this in
  let r' := OpenInternal aes_decrypt_ctx aes_decrypt_key aes_decrypt'
              SHA512_Simple GetAESKey uninit disk sPath g this in
  (or_ret r = true <-> pt !!! 0%nat = ch_colon /\ pt !!! 1%nat = ch_D) /\
  (or_ret r = false -> or_warn r = Some unexpected_decryption_magic) /\
  (g_KnownKeys g !! c_str sPath = None ->
   key = (generate_key SHA512_Simple GetAESKey uninit (m_sSecret this)
            (Z.of_nat (length (subkey meta))) (subkey meta) g).1) /\
  ((forall c b, aes_decrypt' c b !!! 0%nat = aes_decrypt c b !!! 0%nat /\
                aes_decrypt' c b !!! 1%nat = aes_decrypt c b !!! 1%nat) ->
   or_ret r' = or_ret r).
Proof.
  intros Hdisk Hparse. cbv zeta.
  pose proof (OpenInternal_char aes_decrypt_key aes_decrypt SHA512_Simple
                GetAESKey uninit disk sPath g this data Hdisk) as H.
  pose proof (OpenInternal_char aes_decrypt_key aes_decrypt' SHA512_Simple
                GetAESKey uninit disk sPath g this data Hdisk) as H'.
  cbv zeta in H, H'. rewrite Hparse in H, H'. rewrite H, H'. clear H H'.
  set (kg := find_or_generate_key _ _ _ _ _ _ _ _).
  split; [|split; [|split]].
  - case_bool_decide as Hv; cbn [or_ret open_fail]; split; intros Hx;
      solve [done | exfalso; exact (Hv Hx)].
  - by case_bool_decide.
  - intros Hmiss. subst kg. unfold find_or_generate_key. rewrite Hmiss.
    by destruct (generate_key _ _ _ _ _ _ _).
  - intros Hagree. unfold verifies.
    destruct (Hagree (aes_decrypt_key (take 24 kg.1)) (verify_block meta)) as [-> ->].
    by repeat case_bool_decide.
Qed.

(** * The claims at concrete inputs *)

Section SampleRuns.
Import Sample.

#[local] Abbreviation ReadInternal_ := (ReadInternal ctx decrypt junk).

(** C1 at a concrete input: plaintext size 100, cursor 95, ten bytes. *)
Lemma ReadInternal_plaintext_window_witness :
  read_ok 10 (Seek 95 (opened "Data/patch.patch")) /\
  rr_buffer (ReadInternal_ 10 (Seek 95 (opened "Data/patch.patch"))) =
  spec_read ctx decrypt
    (fd_data (Seek 95 (opened "Data/patch.patch")))
    (m_iHeaderSize (Seek 95 (opened "Data/patch.patch")))
    (m_ctx (Seek 95 (opened "Data/patch.patch")))
    (m_iFilePos (Seek 95 (opened "Data/patch.patch"))) 10.
Proof.
  split; [split; by vm_compute|].
  apply (ReadInternal_plaintext_window decrypt junk 10
           (Seek 95 (opened "Data/patch.patch"))).
  split; by vm_compute.
Defined.

(** C2 as stated fails: with plaintext size 100, seek(95) then read(10)
    returns 10, not 5, and leaves the cursor at 105, not 100. *)
Lemma read_past_plaintext_size :
  let this := Seek 95 (opened "Data/patch.patch") in
  let r := read_ 10 this in
  m_iFileSize this = 100 /\ m_iFilePos this = 95 /\
  ~ (rr_ret r = Z.min 10 (100 - 95) /\
     m_iFilePos (rr_obj r) = Z.min (95 + 10) 100).
Proof.
  cbv zeta. split; [by vm_compute|]. split; [by vm_compute|].
  intros [H _]. vm_compute in H. discriminate H.
Qed.

(** C2 (amended) at the input of scenario S7. *)
Lemma Read_not_truncated_witness :
  read_ok 10 (Seek 95 (opened "Data/patch.patch")) /\
  rr_ret (read_ 10 (Seek 95 (opened "Data/patch.patch"))) = 10 /\
  m_iFilePos (rr_obj (read_ 10 (Seek 95 (opened "Data/patch.patch")))) = 105.
Proof.
  split; [split; by vm_compute|].
  destruct (Read_not_truncated decrypt junk 10
              (Seek 95 (opened "Data/patch.patch")))
    as (Hret & _ & Hpos & _); [split; by vm_compute|].
  split; [exact Hret|exact Hpos].
Defined.

(** C3 as stated fails: the open of a file whose verify block does not
    decrypt to ":D" returns false, yet the cache, empty before, holds a key
    under the path afterwards. *)
Lemma failed_open_enters_key :
  let r := open_ (path_at 4096 "Data/wrong.patch") no_keys in
  or_ret r = false /\
  or_warn r = Some unexpected_decryption_magic /\
  g_KnownKeys (or_globals r) <> g_KnownKeys no_keys.
Proof.
  cbv zeta. split; [by vm_compute|]. split; [by vm_compute|].
  intros H. apply (f_equal (fun m => m !! 4096)) in H.
  vm_compute in H. discriminate H.
Qed.

(** C4 on the code: two sequential opens of the path "Data/patch.patch",
    spelled by two strings with the same characters at different
    addresses, both succeed and both derive the key: the trace holds two
    "patch" checkpoints and no "cache" one. *)
Lemma same_path_derived_twice :
  let run := open_all ctx decrypt_key decrypt sha dongle junk disk
               two_opens no_keys in
  chars <$> two_opens.*1 = ["Data/patch.patch"; "Data/patch.patch"]%string /\
  or_ret <$> run.1 = [true; true] /\
  checkpoints run.2 = ["patch"; "patch"]%string /\
  derivations (checkpoints run.2) = 2%nat.
Proof. cbv zeta. repeat split; by vm_compute. Qed.

(** C5 at a concrete input: the open of "Data/patch.patch" with an empty
    cache, where the derived key is 24 bytes 0x33. *)
Lemma verify_block_gate_witness :
  disk "Data/patch.patch" = Some patch_file /\
  parse_header ITG2_PATCH_KEY patch_file = inr patch_meta /\
  (or_ret (open_ (path_at 4096 "Data/patch.patch") no_keys) = true <->
   decrypt (decrypt_key (take 24 (replicate 24 Byte.x33)))
           (verify_block patch_meta) !!! 0%nat = ch_colon /\
   decrypt (decrypt_key (take 24 (replicate 24 Byte.x33)))
           (verify_block patch_meta) !!! 1%nat = ch_D).
Proof.
  split; [reflexivity|]. split; [by vm_compute|].
  exact (proj1 (verify_block_gate decrypt_key decrypt decrypt sha dongle junk
                  disk (path_at 4096 "Data/patch.patch") no_keys
                  new_patch_obj patch_file patch_meta
                  eq_refl ltac:(by vm_compute))).
Defined.

(** C6 on the code: the file ends with its header, so the raw source
    delivers none of the 16 ciphertext bytes demanded; [ReadInternal]
    nevertheless returns 16 and hands out 16 bytes, decrypted from the
    stale contents of [crbuf]. *)
Lemma short_read_returns_request :
  let this := opened "Data/bodyless.patch" in
  let raw := ReadDirect 16 (SeekInternal (m_iHeaderSize this) this) in
  let r := ReadInternal_ 16 this in
  raw.1 = [] /\
  rr_ret r = 16 /\
  length (rr_buffer r) = 16%nat /\
  rr_buffer r =
    (block_loop ctx decrypt (m_ctx this) 0 (new_buffer junk "crbuf" 16) 1 0
       (new_buffer junk "dcbuf" 16) (replicate 16 Byte.x00)).1.
Proof. cbv zeta. repeat split; by vm_compute. Qed.

(** C7 at scenario S1: the subkey 0x00 .. 0x3F and the canonical patch
    secret. *)
Lemma patch_key_derivation_witness :
  length ITG2_PATCH_KEY = 47%nat /\
  subkey s1_meta = bytes_of (seqZ 0 64) /\
  g_KnownKeys
    (or_globals (open_ (path_at 4096 "Data/s1.patch") no_keys)) !! 4096 =
  Some (take 24 (sha (bytes_of (seqZ 0 64) ++ ITG2_PATCH_KEY))).
Proof.
  split; [reflexivity|]. split; [by vm_compute|].
  exact (proj1 (proj2
    (patch_key_derivation decrypt_key decrypt sha dongle junk disk
       (path_at 4096 "Data/s1.patch") no_keys new_patch_obj s1_file s1_meta
       eq_refl eq_refl ltac:(by vm_compute) eq_refl ltac:(by vm_compute)))).
Defined.

(** C8 at m = 1: overwriting ciphertext block 254 leaves the plaintext of
    block 255, the first of the next segment, as it was. *)
Lemma chain_reset_independence_witness :
  Seek 4080 (opened "Data/long.patch") = at_4080 long_file /\
  Seek 4080 (opened "Data/mutated.patch") = at_4080 long_file_mutated /\
  take 16 (drop (30 + 4064) long_file) <>
    take 16 (drop (30 + 4064) long_file_mutated) /\
  rr_buffer (ReadInternal_ 16 (at_4080 long_file)) =
  rr_buffer (ReadInternal_ 16 (at_4080 long_file_mutated)).
Proof.
  split; [by vm_compute|]. split; [by vm_compute|]. split.
  - intros H. vm_compute in H. discriminate H.
  - exact (chain_reset_independence decrypt junk 1 16
             (at_4080 long_file) (at_4080 long_file_mutated)
             ltac:(lia)
             ltac:(split; by vm_compute) ltac:(split; by vm_compute)
             eq_refl eq_refl eq_refl ltac:(by vm_compute)).
Defined.

(** C9 at a concrete input: 20 bytes at cursor 75, split after 7. *)
Lemma split_read_equivalence_witness :
  read_ok 20 (Seek 75 (opened "Data/patch.patch")) /\
  rr_buffer (read_ 20 (Seek 75 (opened "Data/patch.patch"))) =
  rr_buffer (read_ 7 (Seek 75 (opened "Data/patch.patch"))) ++
  rr_buffer (read_ 13 (rr_obj (read_ 7 (Seek 75 (opened "Data/patch.patch"))))).
Proof.
  split; [split; by vm_compute|].
  exact (proj1 (split_read_equivalence decrypt junk 20 7
                  (Seek 75 (opened "Data/patch.patch"))
                  ltac:(split; by vm_compute) ltac:(lia))).
Defined.

End SampleRuns.


(** * More about [OpenInternal] *)

Lemma parse_header_inr (secret data : list byte) (meta : FileMeta) :
  parse_header secret data = inr meta ->
  let sk := le_decode (take 4 (drop 6 data)) in
  0 <= sk < 2 ^ 32 /\
  10 + sk + 16 <= Z.of_nat (length data) /\
  header_size meta = 26 + sk /\
  plaintext_size meta = le_decode (take 4 (drop 2 data)) /\
  0 <= plaintext_size meta < 2 ^ 32 /\
  subkey meta = take (Z.to_nat sk) (drop 10 data) /\
  Z.of_nat (length (subkey meta)) = sk /\
  verify_block meta = take 16 (drop (Z.to_nat (10 + sk)) data) /\
  take 2 data = (if bool_decide (secret = []) then [ch_colon; ch_bar]
                 else [ch_8; ch_O]).
Proof.
  unfold parse_header. intros H. cbv zeta.
  destruct (Z.ltb_spec (Z.of_nat (length data)) 2); [discriminate|].
  destruct (bool_decide (secret = []) && _) eqn:Ea; [discriminate|].
  destruct (negb (bool_decide (secret = [])) && _) eqn:Ep; [discriminate|].
  destruct (Z.ltb_spec (Z.of_nat (length data)) 6); [discriminate|].
  destruct (Z.ltb_spec (Z.of_nat (length data)) 10); [discriminate|].
  destruct (Z.ltb_spec (Z.of_nat (length data))
              (10 + le_decode (take 4 (drop 6 data)))); [discriminate|].
  destruct (Z.ltb_spec (Z.of_nat (length data))
              (10 + le_decode (take 4 (drop 6 data)) + 16)); [discriminate|].
  injection H as <-. cbn [header_size plaintext_size subkey verify_block].
  pose proof (le_decode_bound (take 4 (drop 6 data))) as Hsk.
  pose proof (le_decode_bound (take 4 (drop 2 data))) as Hps.
  rewrite length_take, length_drop in Hsk, Hps.
  replace (Z.of_nat (4 `min` (length data - 6))) with 4 in Hsk by lia.
  replace (Z.of_nat (4 `min` (length data - 2))) with 4 in Hps by lia.
  change (256 ^ 4) with (2 ^ 32) in *.
  repeat split; try lia.
  - rewrite length_take, length_drop. lia.
  - case_bool_decide; simpl in Ea, Ep.
    + by apply negb_false_iff, bool_decide_eq_true in Ea.
    + by apply negb_false_iff, bool_decide_eq_true in Ep.
Qed.

Section OpenMore.
Context {aes_decrypt_ctx : Type}.
Variable aes_decrypt_key : list byte -> aes_decrypt_ctx.
Variable aes_decrypt : aes_decrypt_ctx -> list byte -> list byte.
Variable SHA512_Simple : list byte -> list byte.
Variable GetAESKey : list byte -> list byte.
Variable uninit : string -> nat -> byte.

#[local] Abbreviation obj' := (RageFileObjCrypt_ITG2 aes_decrypt_ctx).
#[local] Abbreviation Open :=
  (OpenInternal aes_decrypt_ctx aes_decrypt_key aes_decrypt SHA512_Simple
     GetAESKey uninit).
#[local] Abbreviation Open_char :=
  (OpenInternal_char aes_decrypt_key aes_decrypt SHA512_Simple GetAESKey uninit).

(** A successful open has found the file, and leaves the object describing
    it. *)
Lemma open_true_parsed disk (sPath : CString) (g : globals) (this : obj') :
  or_ret (Open disk sPath g this) = true ->
  exists data meta,
    disk (chars sPath) = Some data /\
    parse_header (m_sSecret this) data = inr meta /\
    or_obj (Open disk sPath g this) =
      {| fd_data := data; fd_pos := header_size meta;
         m_iFilePos := m_iFilePos this;
         m_iHeaderSize := header_size meta;
         m_iFileSize := plaintext_size meta;
         m_ctx := m_ctx (or_obj (Open disk sPath g this));
         m_sSecret := m_sSecret this |}.
Proof.
  intros Hret. destruct (disk (chars sPath)) as [data|] eqn:Hdisk.
  - pose proof (Open_char disk sPath g this data Hdisk) as H. cbv zeta in H.
    destruct (parse_header (m_sSecret this) data) as [w|meta] eqn:Hp.
    + destruct H as [H _]. congruence.
    + exists data, meta. split; [done|]. split; [done|].
      rewrite H. by case_bool_decide.
  - rewrite OpenInternal_no_file in Hret by done. done.
Qed.

(** X1. When [OpenInternal] returns true, the object describes the file that
    was opened: its contents are those on disk, the header size is 26 plus
    the subkey length stored at offset 6 and does not exceed the file, the
    raw descriptor stands right behind the header, the file size is the
    32-bit field at offset 2, the magic is the one of the configured
    variant, and the secret and the logical position are as before. *)
Theorem OpenInternal_success_layout disk (sPath : CString) (g : globals)
    (this : obj') :
  or_ret (Open disk sPath g this) = true ->
  exists data,
    disk (chars sPath) = Some data /\
    let o := or_obj (Open disk sPath g this) in
    fd_data o = data /\
    m_iHeaderSize o = 26 + le_decode (take 4 (drop 6 data)) /\
    26 <= m_iHeaderSize o <= Z.of_nat (length data) /\
    fd_pos o = m_iHeaderSize o /\
    m_iFileSize o = le_decode (take 4 (drop 2 data)) /\
    0 <= m_iFileSize o < 2 ^ 32 /\
    take 2 data = (if bool_decide (m_sSecret this = []) then [ch_colon; ch_bar]
                   else [ch_8; ch_O]) /\
    m_sSecret o = m_sSecret this /\
    m_iFilePos o = m_iFilePos this.
Proof.
  intros Hret.
  destruct (open_true_parsed disk sPath g this Hret) as (data & meta & Hd & Hp & Ho).
  exists data. split; [done|]. cbv zeta. rewrite Ho.
  cbn [fd_data fd_pos m_iHeaderSize m_iFileSize m_sSecret m_iFilePos].
  destruct (parse_header_inr _ _ _ Hp) as (? & ? & -> & -> & ? & _ & _ & _ & ?).
  repeat split; try done; lia.
Qed.

(** X2. A file that ends inside its header is refused before any key work:
    the open returns false with one of the header warnings, derives nothing
    and leaves the key cache and the checkpoint trace as they were. *)
Theorem truncated_header_refused disk (sPath : CString) (g : globals)
    (this : obj') (data : list byte) :
  disk (chars sPath) = Some data ->
  Z.of_nat (length data) < 10 \/
  Z.of_nat (length data) < 26 + le_decode (take 4 (drop 6 data)) ->
  let r := Open disk sPath g this in
  or_ret r = false /\ or_globals r = g /\
  is_Some (or_warn r) /\ or_warn r <> Some unexpected_decryption_magic.
Proof.
  intros Hdisk Hshort. cbv zeta.
  pose proof (Open_char disk sPath g this data Hdisk) as H. cbv zeta in H.
  destruct (parse_header (m_sSecret this) data) as [w|meta] eqn:Hp.
  - destruct H as (-> & -> & ->). repeat split; [by eexists|].
    intros [= ->]. unfold parse_header in Hp.
    repeat match type of Hp with
           | (if ?b then _ else _) = _ => destruct b; try discriminate
           end.
  - destruct (parse_header_inr _ _ _ Hp) as (? & ? & _). lia.
Qed.

(** X3. The two variants exclude each other: no file is opened both by an
    object without a secret (the arcade driver) and by an object with one
    (the patch driver), whatever the keys and the cache. *)
Theorem variants_exclusive disk (sPath1 sPath2 : CString) (g1 g2 : globals)
    (this1 this2 : obj') :
  chars sPath1 = chars sPath2 ->
  m_sSecret this1 = [] -> m_sSecret this2 <> [] ->
  or_ret (Open disk sPath1 g1 this1) = true ->
  or_ret (Open disk sPath2 g2 this2) = false.
Proof.
  intros Hpath Hs1 Hs2 H1.
  destruct (or_ret (Open disk sPath2 g2 this2)) eqn:H2; [|done]. exfalso.
  destruct (open_true_parsed _ _ _ _ H1) as (d1 & m1 & Hd1 & Hp1 & _).
  destruct (open_true_parsed _ _ _ _ H2) as (d2 & m2 & Hd2 & Hp2 & _).
  rewrite Hpath in Hd1. rewrite Hd1 in Hd2. injection Hd2 as ->.
  destruct (parse_header_inr _ _ _ Hp1) as (_ & _ & _ & _ & _ & _ & _ & _ & Hm1).
  destruct (parse_header_inr _ _ _ Hp2) as (_ & _ & _ & _ & _ & _ & _ & _ & Hm2).
  rewrite bool_decide_true in Hm1 by done.
  rewrite bool_decide_false in Hm2 by done.
  rewrite Hm1 in Hm2. discriminate.
Qed.

End OpenMore.


Section OpenDerivers.
Context {aes_decrypt_ctx : Type}.
Variable aes_decrypt_key : list byte -> aes_decrypt_ctx.
Variable aes_decrypt : aes_decrypt_ctx -> list byte -> list byte.
Variables SHA512_Simple SHA512_Simple' : list byte -> list byte.
Variables GetAESKey GetAESKey' : list byte -> list byte.
Variable uninit : string -> nat -> byte.

#[local] Abbreviation obj'' := (RageFileObjCrypt_ITG2 aes_decrypt_ctx).
#[local] Abbreviation Open1 :=
  (OpenInternal aes_decrypt_ctx aes_decrypt_key aes_decrypt SHA512_Simple
     GetAESKey uninit).
#[local] Abbreviation Open2 :=
  (OpenInternal aes_decrypt_ctx aes_decrypt_key aes_decrypt SHA512_Simple'
     GetAESKey' uninit).

(** [OpenInternal] meets the hash and the dongle only in the key step. *)
Lemma OpenInternal_key_step_ext disk (sPath : CString) (g : globals)
    (this : obj'') :
  (forall sk sub,
      find_or_generate_key SHA512_Simple GetAESKey uninit
        (m_sSecret this) sPath sk sub g =
      find_or_generate_key SHA512_Simple' GetAESKey' uninit
        (m_sSecret this) sPath sk sub g) ->
  Open1 disk sPath g this = Open2 disk sPath g this.
Proof.
  intros Hkey. unfold OpenInternal, OpenDirect.
  destruct (disk (chars sPath)) as [data|]; [|done].
  assert (Hs0 : m_sSecret (set_fd data this) = m_sSecret this) by done.
  set (o0 := set_fd data this) in *. clearbody o0.
  repeat first
    [ match goal with
      | |- context [ReadDirect ?n ?o] =>
          let got := fresh "got" in
          let o' := fresh "o" in
          let E := fresh "E" in
          destruct (ReadDirect n o) as [got o'] eqn:E;
          assert (m_sSecret o' = m_sSecret o)
            by (change o' with (snd (got, o')); rewrite <- E; reflexivity);
          clear E;
          cbn [m_sSecret set_iHeaderSize set_iFileSize set_ctx] in *
      end
    | match goal with
      | |- (if ?b then _ else _) = (if ?b then _ else _) =>
          destruct b; [reflexivity|]
      | |- match ?x with Some _ => _ | None => _ end =
           match ?x with Some _ => _ | None => _ end =>
          destruct x; [reflexivity|]
      end
    | progress cbv zeta ].
  cbn [m_sSecret set_iHeaderSize set_iFileSize set_ctx].
  match goal with
  | |- context [find_or_generate_key _ _ _ (m_sSecret ?o) _ _ _ _] =>
      replace (m_sSecret o) with (m_sSecret this) by congruence
  end.
  rewrite Hkey. reflexivity.
Qed.

End OpenDerivers.


(** The process-wide state after one open: untouched, marked "cache", or
    marked with one derivation and extended by the key under the path's
    address, which was free. *)
Lemma open_globals_cases {aes_decrypt_ctx : Type}
    (aes_decrypt_key : list byte -> aes_decrypt_ctx)
    (aes_decrypt : aes_decrypt_ctx -> list byte -> list byte)
    (SHA512_Simple GetAESKey : list byte -> list byte)
    (uninit : string -> nat -> byte)
    disk (sPath : CString) (g : globals)
    (this : RageFileObjCrypt_ITG2 aes_decrypt_ctx) :
  let r := OpenInternal aes_decrypt_ctx aes_decrypt_key aes_decrypt
             SHA512_Simple GetAESKey uninit disk sPath g this in
  or_globals r = g \/
  or_globals r = CHECKPOINT_M "cache" g \/
  (g_KnownKeys g !! c_str sPath = None /\
   exists key mark,
     or_globals r = save_key (c_str sPath) key (CHECKPOINT_M mark g)).
Proof.
  cbv zeta. destruct (disk (chars sPath)) as [data|] eqn:Hdisk.
  - pose proof (OpenInternal_char aes_decrypt_key aes_decrypt SHA512_Simple
                  GetAESKey uninit disk sPath g this data Hdisk) as H.
    cbv zeta in H.
    destruct (parse_header (m_sSecret this) data) as [w|meta].
    + left. tauto.
    + rewrite H. clear H.
      assert (Hg : forall kg : list byte * globals,
        or_globals
          (if bool_decide
                (verifies aes_decrypt_ctx aes_decrypt_key aes_decrypt kg.1
                   (verify_block meta))
           then {| or_ret := true; or_warn := None; or_globals := kg.2;
                   or_obj := {| fd_data := data; fd_pos := header_size meta;
                     m_iFilePos := m_iFilePos this;
                     m_iHeaderSize := header_size meta;
                     m_iFileSize := plaintext_size meta;
                     m_ctx := aes_decrypt_key (take 24 kg.1);
                     m_sSecret := m_sSecret this |} |}
           else open_fail (Some unexpected_decryption_magic) kg.2
                  {| fd_data := data; fd_pos := header_size meta;
                     m_iFilePos := m_iFilePos this;
                     m_iHeaderSize := header_size meta;
                     m_iFileSize := plaintext_size meta;
                     m_ctx := aes_decrypt_key (take 24 kg.1);
                     m_sSecret := m_sSecret this |}) = kg.2).
      { intros kg. by destruct (bool_decide _). }
      rewrite Hg. unfold find_or_generate_key.
      destruct (g_KnownKeys g !! c_str sPath) as [k|]; [right; by left|].
      right. right. split; [done|]. unfold generate_key.
      case_bool_decide; cbn [fst snd]; by eexists _, _.
  - left. by rewrite OpenInternal_no_file.
Qed.

(** X4. Entries of the key cache are never evicted and never overwritten,
    and checkpoints are only appended: after any run of sequential opens the
    cache contains the cache before, and the trace before is a prefix of the
    trace after. *)
Theorem cache_only_grows {aes_decrypt_ctx : Type}
    (aes_decrypt_key : list byte -> aes_decrypt_ctx)
    (aes_decrypt : aes_decrypt_ctx -> list byte -> list byte)
    (SHA512_Simple GetAESKey : list byte -> list byte)
    (uninit : string -> nat -> byte)
    disk (opens : list (CString * RageFileObjCrypt_ITG2 aes_decrypt_ctx))
    (g : globals) :
  let g' := (open_all aes_decrypt_ctx aes_decrypt_key aes_decrypt SHA512_Simple
               GetAESKey uninit disk opens g).2 in
  g_KnownKeys g ⊆ g_KnownKeys g' /\ checkpoints g `prefix_of` checkpoints g'.
Proof.
  revert g. induction opens as [|[sPath this] opens IH]; intros g; cbv zeta.
  - done.
  - cbn [open_all].
    set (r := OpenInternal _ _ _ _ _ _ disk sPath g this).
    specialize (IH (or_globals r)). cbv zeta in IH.
    destruct (open_all _ _ _ _ _ _ disk opens (or_globals r)) as [rs g'].
    cbn [snd] in *. destruct IH as [IHc IHt].
    assert (Hstep : g_KnownKeys g ⊆ g_KnownKeys (or_globals r) /\
                    checkpoints g `prefix_of` checkpoints (or_globals r)).
    { destruct (open_globals_cases aes_decrypt_key aes_decrypt SHA512_Simple
                  GetAESKey uninit disk sPath g this)
        as [H|[H|(Hmiss & key & mark & H)]];
        fold r in H; rewrite H; cbn [save_key CHECKPOINT_M g_KnownKeys checkpoints].
      - done.
      - split; [done|]. by apply prefix_app_r.
      - split; [by apply insert_subseteq|]. by apply prefix_app_r. }
    destruct Hstep as [Hc Ht]. split; by etrans.
Qed.

(** X5. On a cache hit no key is derived: when the cache holds a key under
    the path's address, the open gives the same result with any hash and any
    dongle, and once the header parses the key schedule is expanded from the
    cached key, whatever subkey the file carries. *)
Theorem cache_hit_consults_no_deriver {aes_decrypt_ctx : Type}
    (aes_decrypt_key : list byte -> aes_decrypt_ctx)
    (aes_decrypt : aes_decrypt_ctx -> list byte -> list byte)
    (SHA512_Simple SHA512_Simple' GetAESKey GetAESKey' : list byte -> list byte)
    (uninit : string -> nat -> byte)
    disk (sPath : CString) (g : globals)
    (this : RageFileObjCrypt_ITG2 aes_decrypt_ctx) (k : list byte) :
  g_KnownKeys g !! c_str sPath = Some k ->
  let r := OpenInternal aes_decrypt_ctx aes_decrypt_key aes_decrypt
             SHA512_Simple GetAESKey uninit disk sPath g this in
  r = OpenInternal aes_decrypt_ctx aes_decrypt_key aes_decrypt
        SHA512_Simple' GetAESKey' uninit disk sPath g this /\
  (forall data meta,
      disk (chars sPath) = Some data ->
      parse_header (m_sSecret this) data = inr meta ->
      m_ctx (or_obj r) = aes_decrypt_key (take 24 k) /\
      or_globals r = CHECKPOINT_M "cache" g).
Proof.
  intros Hhit. cbv zeta. split.
  - apply OpenInternal_key_step_ext. intros sk sub.
    unfold find_or_generate_key. by rewrite Hhit.
  - intros data meta Hdisk Hparse.
    pose proof (OpenInternal_char aes_decrypt_key aes_decrypt SHA512_Simple
                  GetAESKey uninit disk sPath g this data Hdisk) as H.
    cbv zeta in H. rewrite Hparse in H. rewrite H.
    clear H. unfold find_or_generate_key. rewrite Hhit. cbn [fst snd].
    case_bool_decide; cbn [or_obj or_globals open_fail m_ctx]; done.
Qed.

(** X6. The arcade variant (no secret) derives its key from the dongle
    alone: the open gives the same result with any hash, and on a cache miss
    behind a parsed header the key entered in the cache is the dongle's
    answer to the file's subkey, marked by the "dongle" checkpoint. *)
Theorem arcade_open_uses_dongle {aes_decrypt_ctx : Type}
    (aes_decrypt_key : list byte -> aes_decrypt_ctx)
    (aes_decrypt : aes_decrypt_ctx -> list byte -> list byte)
    (SHA512_Simple SHA512_Simple' GetAESKey : list byte -> list byte)
    (uninit : string -> nat -> byte)
    disk (sPath : CString) (g : globals)
    (this : RageFileObjCrypt_ITG2 aes_decrypt_ctx) :
  m_sSecret this = [] ->
  let r := OpenInternal aes_decrypt_ctx aes_decrypt_key aes_decrypt
             SHA512_Simple GetAESKey uninit disk sPath g this in
  r = OpenInternal aes_decrypt_ctx aes_decrypt_key aes_decrypt
        SHA512_Simple' GetAESKey uninit disk sPath g this /\
  (forall data meta,
      disk (chars sPath) = Some data ->
      parse_header (m_sSecret this) data = inr meta ->
      g_KnownKeys g !! c_str sPath = None ->
      g_KnownKeys (or_globals r) !! c_str sPath = Some (GetAESKey (subkey meta)) /\
      m_ctx (or_obj r) = aes_decrypt_key (take 24 (GetAESKey (subkey meta))) /\
      checkpoints (or_globals r) = checkpoints g ++ ["dongle"%string]).
Proof.
  intros Hsec. cbv zeta. split.
  - apply OpenInternal_key_step_ext. intros sk sub.
    unfold find_or_generate_key, generate_key. rewrite Hsec.
    by rewrite !bool_decide_true.
  - intros data meta Hdisk Hparse Hmiss.
    pose proof (OpenInternal_char aes_decrypt_key aes_decrypt SHA512_Simple
                  GetAESKey uninit disk sPath g this data Hdisk) as H.
    cbv zeta in H. rewrite Hparse in H. rewrite H. clear H.
    assert (Hk : find_or_generate_key SHA512_Simple GetAESKey uninit
                   (m_sSecret this) sPath (Z.of_nat (length (subkey meta)))
                   (subkey meta) g =
                 (GetAESKey (subkey meta),
                  save_key (c_str sPath) (GetAESKey (subkey meta))
                    (CHECKPOINT_M "dongle" g))).
    { unfold find_or_generate_key, generate_key. rewrite Hmiss, Hsec.
      by rewrite bool_decide_true. }
    rewrite Hk. cbn [fst snd].
    case_bool_decide; cbn [or_globals or_obj open_fail save_key g_KnownKeys
      checkpoints CHECKPOINT_M m_ctx]; by rewrite lookup_insert_eq.
Qed.

(** X7. The patch variant (a secret configured) never consults the dongle:
    the open gives the same result with any dongle. *)
Theorem patch_open_ignores_dongle {aes_decrypt_ctx : Type}
    (aes_decrypt_key : list byte -> aes_decrypt_ctx)
    (aes_decrypt : aes_decrypt_ctx -> list byte -> list byte)
    (SHA512_Simple GetAESKey GetAESKey' : list byte -> list byte)
    (uninit : string -> nat -> byte)
    disk (sPath : CString) (g : globals)
    (this : RageFileObjCrypt_ITG2 aes_decrypt_ctx) :
  m_sSecret this <> [] ->
  OpenInternal aes_decrypt_ctx aes_decrypt_key aes_decrypt
    SHA512_Simple GetAESKey uninit disk sPath g this =
  OpenInternal aes_decrypt_ctx aes_decrypt_key aes_decrypt
    SHA512_Simple GetAESKey' uninit disk sPath g this.
Proof.
  intros Hsec. apply OpenInternal_key_step_ext. intros sk sub.
  unfold find_or_generate_key, generate_key.
  by rewrite !bool_decide_false.
Qed.

(** X8. Only the first 47 bytes of the secret enter the key: with a secret of
    47 bytes or more, a parsed header, no cached key and a buffer size that
    does not wrap, the key entered in the cache is the first 24 bytes of
    SHA-512(subkey ++ first 47 bytes of the secret). *)
Theorem long_secret_truncated {aes_decrypt_ctx : Type}
    (aes_decrypt_key : list byte -> aes_decrypt_ctx)
    (aes_decrypt : aes_decrypt_ctx -> list byte -> list byte)
    (SHA512_Simple GetAESKey : list byte -> list byte)
    (uninit : string -> nat -> byte)
    disk (sPath : CString) (g : globals)
    (this : RageFileObjCrypt_ITG2 aes_decrypt_ctx)
    (data : list byte) (meta : FileMeta) :
  (47 <= length (m_sSecret this))%nat ->
  disk (chars sPath) = Some data ->
  parse_header (m_sSecret this) data = inr meta ->
  g_KnownKeys g !! c_str sPath = None ->
  Z.of_nat (length (subkey meta)) + 47 < 2 ^ 32 ->
  let r := OpenInternal aes_decrypt_ctx aes_decrypt_key aes_decrypt
             SHA512_Simple GetAESKey uninit disk sPath g this in
  g_KnownKeys (or_globals r) !! c_str sPath =
  Some (take 24 (SHA512_Simple (subkey meta ++ take 47 (m_sSecret this)))).
Proof.
  intros Hsec Hdisk Hparse Hmiss Hlen. cbv zeta.
  pose proof (OpenInternal_char aes_decrypt_key aes_decrypt SHA512_Simple
                GetAESKey uninit disk sPath g this data Hdisk) as H.
  cbv zeta in H. rewrite Hparse in H. rewrite H. clear H.
  set (key := take 24 (SHA512_Simple (subkey meta ++ take 47 (m_sSecret this)))).
  assert (Hk : find_or_generate_key SHA512_Simple GetAESKey uninit
                 (m_sSecret this) sPath (Z.of_nat (length (subkey meta)))
                 (subkey meta) g =
               (key, save_key (c_str sPath) key (CHECKPOINT_M "patch" g))).
  { unfold find_or_generate_key, generate_key. rewrite Hmiss.
    rewrite bool_decide_false
      by (intros E; rewrite E in Hsec; simpl in Hsec; lia).
    unfold secret_bytes. rewrite (take_app_le (m_sSecret this)) by done.
    rewrite u32_small by lia.
    rewrite Nat2Z.id, firstn_all.
    rewrite (take_ge (subkey meta ++ take 47 (m_sSecret this)))
      by (rewrite length_app, length_take; lia).
    done. }
  rewrite Hk. cbn [fst snd].
  case_bool_decide; cbn [or_globals open_fail save_key g_KnownKeys];
    by rewrite lookup_insert_eq.
Qed.


(** * More about [ReadInternal] *)

Section ReadMore.
Context {aes_decrypt_ctx : Type}.
Variable aes_decrypt : aes_decrypt_ctx -> list byte -> list byte.
Variable uninit : string -> nat -> byte.

#[local] Abbreviation robj := (RageFileObjCrypt_ITG2 aes_decrypt_ctx).
#[local] Abbreviation RI := (ReadInternal aes_decrypt_ctx aes_decrypt uninit).
#[local] Abbreviation Rd := (Read aes_decrypt_ctx aes_decrypt uninit).
#[local] Abbreviation pbyte := (plain_byte aes_decrypt_ctx aes_decrypt).

Lemma SeekInternal_set_fd_pos (offset p : Z) (o : robj) :
  0 <= offset -> SeekInternal offset (set_fd_pos p o) = SeekInternal offset o.
Proof.
  intros H. unfold SeekInternal. by destruct (Z.ltb_spec offset 0); [lia|].
Qed.

Lemma u32_nonneg (z : Z) : 0 <= u32 z.
Proof. unfold u32. apply Z.mod_pos_bound. lia. Qed.

(** [ReadInternal] seeks before it reads, so where the raw descriptor stood
    has no influence on what is delivered. *)
Lemma ReadInternal_fd_pos (bytes p : Z) (this : robj) :
  0 <= m_iHeaderSize this ->
  rr_buffer (RI bytes (set_fd_pos p this)) = rr_buffer (RI bytes this) /\
  rr_ret (RI bytes (set_fd_pos p this)) = rr_ret (RI bytes this).
Proof.
  intros Hhs. unfold ReadInternal, Tell.
  cbn [m_iFilePos set_fd_pos m_iHeaderSize]. cbv zeta.
  set (startpos := u32 (u32 (m_iFilePos this) / 16 * 16)).
  assert (0 <= startpos) by apply u32_nonneg.
  pose proof (u32_nonneg (startpos - 16)).
  destruct (startpos mod 4080 =? 0).
  - rewrite (SeekInternal_set_fd_pos (m_iHeaderSize this + startpos)) by lia.
    done.
  - rewrite (SeekInternal_set_fd_pos (m_iHeaderSize this + u32 (startpos - 16)))
      by lia.
    done.
Qed.

(** X9. What a read delivers and returns does not depend on where the raw
    descriptor was left by earlier operations: [ReadInternal] positions it
    itself, for the look-behind block and for the window. *)
Theorem read_ignores_raw_position (bytes p : Z) (this : robj) :
  0 <= m_iHeaderSize this ->
  rr_buffer (RI bytes (set_fd_pos p this)) = rr_buffer (RI bytes this) /\
  rr_ret (RI bytes (set_fd_pos p this)) = rr_ret (RI bytes this).
Proof. apply ReadInternal_fd_pos. Qed.

(** X10. Random access is consistent: two reads of the same file that both
    cover a plaintext offset deliver the same byte for it, wherever each
    read started and however long it was. *)
Theorem overlapping_reads_agree (n1 n2 : Z) (this1 this2 : robj) (t1 t2 : nat) :
  read_ok n1 this1 -> read_ok n2 this2 ->
  fd_data this1 = fd_data this2 ->
  m_iHeaderSize this1 = m_iHeaderSize this2 ->
  m_ctx this1 = m_ctx this2 ->
  Z.of_nat t1 < n1 -> Z.of_nat t2 < n2 ->
  m_iFilePos this1 + Z.of_nat t1 = m_iFilePos this2 + Z.of_nat t2 ->
  rr_buffer (RI n1 this1) !! t1 = rr_buffer (RI n2 this2) !! t2.
Proof.
  intros H1 H2 Hd Hh Hc Ht1 Ht2 Hoff.
  rewrite !ReadInternal_spec by done. cbn [rr_buffer].
  destruct H1, H2.
  rewrite !spec_read_lookup by (done || lia).
  by rewrite Hd, Hh, Hc, Hoff.
Qed.



Lemma length_overwrite (src buf : list byte) :
  length (overwrite src buf) = (length src `max` length buf)%nat.
Proof. unfold overwrite. rewrite length_app, length_drop. lia. Qed.

Lemma block_of_overwritten (data junk : list byte) (off W b : nat) :
  (16 * b + 16 <= W)%nat ->
  (off + 16 * b + 16 <= length data)%nat ->
  take 16 (drop (16 * b) (overwrite (take W (drop off data)) junk)) =
  take 16 (drop (off + 16 * b) data).
Proof.
  intros HW Hlen. unfold overwrite. apply list_eq. intros i.
  destruct (decide (i < 16)%nat).
  - rewrite !lookup_take_lt, !lookup_drop by lia.
    rewrite lookup_app_l by (rewrite length_take, length_drop; lia).
    rewrite lookup_take_lt, lookup_drop by lia. f_equal. lia.
  - by rewrite !lookup_take_ge by lia.
Qed.

(** [ReadInternal] inside the machine integers, whatever the file holds:
    the delivered bytes are the recurrence run over [crbuf] as the raw reads
    left it, bytes not delivered by the source being those the buffers held
    before. *)
Lemma ReadInternal_buffer_gen (bytes : Z) (this : robj) :
  0 <= m_iFilePos this -> 0 <= bytes ->
  m_iFilePos this + bytes + 16 <= 2 ^ 31 ->
  0 <= m_iHeaderSize this ->
  let c := m_iFilePos this in
  let hs := m_iHeaderSize this in
  let start := c / 16 * 16 in
  let W := QuantizeUp (c + bytes) 16 - start in
  let crbuf :=
    overwrite (take (Z.to_nat W) (drop (Z.to_nat (hs + start)) (fd_data this)))
              (new_buffer uninit "crbuf" W) in
  let bb :=
    if start mod 4080 =? 0 then replicate 16 Byte.x00
    else overwrite (take 16 (drop (Z.to_nat (hs + (start - 16))) (fd_data this)))
                   (new_buffer uninit "backbuffer" 16) in
  rr_buffer (RI bytes this) =
  take (Z.to_nat bytes)
    (drop (Z.to_nat (c - start))
       (spec_blocks aes_decrypt_ctx aes_decrypt (m_ctx this) start crbuf
          (Z.to_nat (W / 16)) 0 bb)).
Proof.
  intros Hpos Hbytes Hint Hhs. cbv zeta.
  destruct (QuantizeUp_16 (m_iFilePos this + bytes)) as [HQ HQb].
  pose proof (Z.div_mod (m_iFilePos this) 16 ltac:(lia)) as Hdm.
  pose proof (Z.mod_pos_bound (m_iFilePos this) 16 ltac:(lia)) as Hmb.
  unfold ReadInternal, Tell.
  set (c := m_iFilePos this) in *.
  set (hs := m_iHeaderSize this) in *.
  assert (Hc : u32 c = c) by (apply u32_small; lia).
  assert (Hst : u32 (c / 16 * 16) = c / 16 * 16) by (apply u32_small; lia).
  assert (Hq : s32 (usize (c + bytes)) = c + bytes).
  { unfold s32, usize. rewrite (Z.mod_small (c + bytes)) by lia.
    rewrite Z.mod_small; lia. }
  assert (He : u32 (QuantizeUp (c + bytes) 16) = QuantizeUp (c + bytes) 16)
    by (apply u32_small; lia).
  cbv zeta. rewrite Hc, Hst, Hq, He.
  set (start := c / 16 * 16) in *.
  set (fin := QuantizeUp (c + bytes) 16) in *.
  assert (Hb : usize (fin - start) = fin - start)
    by (unfold usize; apply Z.mod_small; lia).
  assert (Hd : u32 (c - start) = c - start) by (apply u32_small; lia).
  rewrite Hb, Hd.
  set (k0 := c / 16) in *.
  set (k1 := (c + bytes + 15) / 16) in *.
  assert (Hk : 0 <= k0 <= k1) by lia.
  assert (Hblocks : (fin - start) / 16 = k1 - k0).
  { replace (fin - start) with ((k1 - k0) * 16) by lia. apply Z.div_mul. lia. }
  rewrite Hblocks.
  assert (Htail : forall (this0 : robj) (bb : list byte),
    fd_data this0 = fd_data this -> m_iHeaderSize this0 = hs ->
    m_ctx this0 = m_ctx this -> length bb = 16%nat ->
    rr_buffer
      (let '(got, this1) :=
         ReadDirect (fin - start) (SeekInternal (m_iHeaderSize this0 + start) this0) in
       let '(dcbuf, _) :=
         block_loop aes_decrypt_ctx aes_decrypt (m_ctx this1) start
           (overwrite got (new_buffer uninit "crbuf" (fin - start)))
           (Z.to_nat (k1 - k0)) 0 (new_buffer uninit "dcbuf" (fin - start)) bb in
       {| rr_ret := s32 bytes;
          rr_buffer := take (Z.to_nat bytes) (drop (Z.to_nat (c - start)) dcbuf);
          rr_obj := SeekInternal (c + bytes) this1 |}) =
    take (Z.to_nat bytes)
      (drop (Z.to_nat (c - start))
         (spec_blocks aes_decrypt_ctx aes_decrypt (m_ctx this) start
            (overwrite
               (take (Z.to_nat (fin - start))
                  (drop (Z.to_nat (hs + start)) (fd_data this)))
               (new_buffer uninit "crbuf" (fin - start)))
            (Z.to_nat (k1 - k0)) 0 bb))).
  { intros this0 bb Hdata Hhs0 Hctx Hbb.
    unfold ReadDirect, SeekInternal.
    rewrite Hhs0.
    destruct (hs + start <? 0) eqn:E; [lia|].
    cbn [fd_pos fd_data set_fd_pos m_ctx].
    rewrite Hdata, Hctx.
    set (crbuf := overwrite _ _).
    assert (Hcr : length crbuf = Z.to_nat (fin - start)).
    { unfold crbuf. rewrite length_overwrite, length_take, length_new_buffer. lia. }
    destruct (block_loop _ _ _ _ _ _ _ _ _) as [dcbuf bb'] eqn:Hloop.
    apply (f_equal fst) in Hloop. cbn [fst] in Hloop.
    change 0 with (Z.of_nat 0) in Hloop.
    rewrite block_loop_fst in Hloop;
      rewrite ?length_new_buffer; try lia.
    rewrite take_0, app_nil_l, drop_ge, app_nil_r in Hloop
      by (rewrite length_new_buffer; lia).
    subst dcbuf. done. }
  destruct (start mod 4080 =? 0) eqn:E.
  - rewrite Htail; try done.
  - assert (16 <= start).
    { apply Z.eqb_neq in E.
      destruct (decide (k0 = 0)) as [H0|H0]; [|unfold start; lia].
      exfalso. apply E. unfold start. by rewrite H0. }
    rewrite (u32_small (start - 16)) by lia.
    unfold SeekInternal at 1.
    destruct (hs + (start - 16) <? 0) eqn:E2; [lia|].
    unfold ReadDirect at 1.
    cbn [fd_pos fd_data set_fd_pos].
    change (Z.to_nat 16) with 16%nat.
    rewrite Htail; try done.
    rewrite length_overwrite, length_take, length_new_buffer. lia.
Qed.

(** X12. A read that runs past the end of the ciphertext still delivers the
    right plaintext for every byte whose ciphertext block is on disk: only
    the bytes of blocks the source could not deliver come from the
    uninitialised buffer. *)
Theorem short_window_valid_prefix (bytes : Z) (this : robj) (t : nat) :
  0 <= m_iFilePos this -> 0 <= bytes ->
  m_iFilePos this + bytes + 16 <= 2 ^ 31 ->
  0 <= m_iHeaderSize this ->
  Z.of_nat t < bytes ->
  m_iHeaderSize this + 16 * ((m_iFilePos this + Z.of_nat t) / 16) + 16
    <= Z.of_nat (length (fd_data this)) ->
  rr_buffer (ReadInternal aes_decrypt_ctx aes_decrypt uninit bytes this) !! t =
  Some (plain_byte aes_decrypt_ctx aes_decrypt (fd_data this)
          (m_iHeaderSize this) (m_ctx this) (m_iFilePos this + Z.of_nat t)).
Proof.
  intros Hpos Hbytes Hint Hhs Ht Hdisk.
  rewrite ReadInternal_buffer_gen by done. cbv zeta.
  destruct (QuantizeUp_16 (m_iFilePos this + bytes)) as [HQ HQb].
  pose proof (Z.div_mod (m_iFilePos this) 16 ltac:(lia)) as Hdm.
  pose proof (Z.mod_pos_bound (m_iFilePos this) 16 ltac:(lia)) as Hmb.
  set (c := m_iFilePos this) in *.
  set (hs := m_iHeaderSize this) in *.
  set (data := fd_data this) in *.
  set (start := c / 16 * 16) in *.
  set (fin := QuantizeUp (c + bytes) 16) in *.
  set (k0 := c / 16) in *.
  set (k1 := (c + bytes + 15) / 16) in *.
  assert (Hblocks : (fin - start) / 16 = k1 - k0).
  { replace (fin - start) with ((k1 - k0) * 16) by (unfold start; lia).
    apply Z.div_mul. lia. }
  rewrite Hblocks.
  rewrite lookup_take_lt, lookup_drop by lia.
  set (k := (Z.to_nat (c - start) + t)%nat).
  assert (Hkz : Z.of_nat k = c mod 16 + Z.of_nat t) by (unfold k, start; lia).
  assert (Hkfin : Z.of_nat k < fin - start) by (unfold start; lia).
  rewrite spec_blocks_lookup by (unfold start in *; lia).
  unfold plain_byte. f_equal.
  set (p := c + Z.of_nat t) in *.
  assert (Hp : p = start + Z.of_nat k) by (unfold p, start; lia).
  assert (Hq : p / 16 = k0 + Z.of_nat (k / 16)).
  { rewrite Hp, Nat2Z.inj_div. unfold start.
    rewrite Z.add_comm, Z.div_add; lia. }
  assert (Hr : Z.to_nat (p mod 16) = (k mod 16)%nat).
  { rewrite Hp. unfold start. rewrite Z.add_comm, Z.mod_add by lia.
    rewrite <- (Nat2Z.id (k mod 16)). f_equal.
    by rewrite Nat2Z.inj_mod. }
  pose proof (Nat.div_mod_eq k 16) as Hkdm.
  pose proof (Nat.mod_upper_bound k 16 ltac:(lia)) as Hkmb.
  assert (Hkq : Z.of_nat (16 * (k / 16) + 16) <= fin - start).
  { assert (Z.of_nat (k / 16) < k1 - k0); [|unfold start; lia].
    unfold start in Hkfin. nia. }
  rewrite Hq in Hdisk. rewrite Hr, Hq.
  unfold ct_block_at.
  rewrite (block_of_overwritten data) by (unfold start; lia).
  replace (Z.to_nat (hs + start) + 16 * (0 + k / 16))%nat
    with (Z.to_nat (hs + 16 * (k0 + Z.of_nat (k / 16)))) by (unfold start; lia).
  f_equal. f_equal.
  destruct (decide (k / 16 = 0)%nat) as [H0|H0].
  - rewrite H0.
    replace (16 * (k0 + Z.of_nat 0)) with start by (unfold start; lia).
    destruct (start mod 4080 =? 0) eqn:E; [done|].
    assert (16 <= start).
    { apply Z.eqb_neq in E.
      destruct (decide (k0 = 0)) as [Hz|Hz]; [|unfold start; lia].
      exfalso. apply E. unfold start. by rewrite Hz. }
    rewrite overwrite_full.
    + f_equal. f_equal. unfold start. lia.
    + rewrite length_new_buffer, length_take, length_drop.
      rewrite H0 in Hdisk. unfold start in *. lia.
  - replace (start + 16 * Z.of_nat (0 + k / 16))
      with (16 * (k0 + Z.of_nat (k / 16))) by (unfold start; lia).
    destruct (_ =? 0); [done|].
    rewrite (block_of_overwritten data) by (unfold start; lia).
    f_equal. f_equal. unfold start. lia.
Qed.

End ReadMore.


(** * Open, seek, read and Copy together *)

Section Together.
Context {aes_decrypt_ctx : Type}.
Variable aes_decrypt_key : list byte -> aes_decrypt_ctx.
Variable aes_decrypt : aes_decrypt_ctx -> list byte -> list byte.
Variable SHA512_Simple : list byte -> list byte.
Variable GetAESKey : list byte -> list byte.
Variable uninit : string -> nat -> byte.

#[local] Abbreviation tobj := (RageFileObjCrypt_ITG2 aes_decrypt_ctx).
#[local] Abbreviation TOpen :=
  (OpenInternal aes_decrypt_ctx aes_decrypt_key aes_decrypt SHA512_Simple
     GetAESKey uninit).
#[local] Abbreviation TRead := (Read aes_decrypt_ctx aes_decrypt uninit).
#[local] Abbreviation TReadInternal :=
  (ReadInternal aes_decrypt_ctx aes_decrypt uninit).
#[local] Abbreviation TCopy :=
  (Copy aes_decrypt_ctx aes_decrypt_key aes_decrypt SHA512_Simple GetAESKey
     uninit).

(** X13. Open, seek and read compose: on a file [OpenInternal] accepted,
    whose ciphertext covers the plaintext size rounded up to a block, a seek
    to [c] and a read of [n] bytes inside the plaintext size return [n],
    leave the cursor at [c + n] and deliver, for each offset, the AES
    decryption of its block XORed with the mask of the block before it (none
    at a multiple of 4080). *)
Theorem open_seek_read disk (sPath : CString) (g : globals) (this : tobj)
    (c n : Z) :
  let o := or_obj (TOpen disk sPath g this) in
  or_ret (TOpen disk sPath g this) = true ->
  0 <= c -> 0 <= n -> c + n <= m_iFileSize o ->
  m_iFileSize o + 16 <= 2 ^ 31 ->
  m_iHeaderSize o + QuantizeUp (m_iFileSize o) 16
    <= Z.of_nat (length (fd_data o)) ->
  let rd := TRead n (Seek c o) in
  rr_ret rd = n /\
  m_iFilePos (rr_obj rd) = c + n /\
  rr_buffer rd =
    plain_byte aes_decrypt_ctx aes_decrypt (fd_data o) (m_iHeaderSize o)
      (m_ctx o) <$> seqZ c n.
Proof.
  cbv zeta. intros Hret Hc Hn Hin Hsize Hbody.
  destruct (open_true_parsed aes_decrypt_key aes_decrypt SHA512_Simple
              GetAESKey uninit disk sPath g this Hret)
    as (data & meta & Hd & Hp & Ho).
  set (o := or_obj (TOpen disk sPath g this)) in *.
  destruct (parse_header_inr _ _ _ Hp) as (Hsk & _ & Hhs & _).
  assert (Hhs' : 0 <= m_iHeaderSize o) by (rewrite Ho; cbn; lia).
  assert (Hcur : m_iFilePos (Seek c o) = c).
  { unfold Seek. cbn [set_iFilePos m_iFilePos]. lia. }
  assert (Hsh : m_iHeaderSize (Seek c o) = m_iHeaderSize o) by done.
  assert (Hsd : fd_data (Seek c o) = fd_data o) by done.
  assert (Hsc : m_ctx (Seek c o) = m_ctx o) by done.
  pose proof (QuantizeUp_mono (c + n) (m_iFileSize o)) as Hmono.
  assert (Hok : read_ok n (Seek c o)).
  { split; rewrite ?Hcur, ?Hsh, ?Hsd; lia. }
  rewrite Read_spec by done.
  cbn [rr_ret rr_buffer rr_obj set_iFilePos m_iFilePos].
  rewrite Hcur, Hsh, Hsd, Hsc. split; [done|]. split; [done|].
  apply spec_read_plain; lia.
Qed.

(** X14. Copy builds the clone from the file on disk and from the key step:
    nothing of what the copy constructor copied survives but the secret and
    the logical position, so two originals that agree on those two give the
    same clone (or fail alike) and the same process-wide state. *)
Theorem Copy_reads_afresh disk (m_sPath : CString) (g : globals)
    (this1 this2 : tobj) :
  m_sSecret this1 = m_sSecret this2 ->
  m_iFilePos this1 = m_iFilePos this2 ->
  TCopy disk m_sPath g this1 = TCopy disk m_sPath g this2.
Proof.
  intros Hsec Hpos. unfold Copy, Tell. rewrite <- Hpos.
  destruct (disk (chars m_sPath)) as [data|] eqn:Hdisk.
  - pose proof (OpenInternal_char aes_decrypt_key aes_decrypt SHA512_Simple
                  GetAESKey uninit disk m_sPath g (copy_constructor this1)
                  data Hdisk) as H1.
    pose proof (OpenInternal_char aes_decrypt_key aes_decrypt SHA512_Simple
                  GetAESKey uninit disk m_sPath g (copy_constructor this2)
                  data Hdisk) as H2.
    cbv zeta in H1, H2.
    cbn [copy_constructor m_sSecret m_iFilePos] in H1, H2.
    rewrite <- Hsec, <- Hpos in H2.
    destruct (parse_header (m_sSecret this1) data) as [w|meta].
    + destruct H1 as (-> & _ & ->), H2 as (-> & _ & ->). done.
    + by rewrite H1, H2.
  - by rewrite !OpenInternal_no_file.
Qed.

(** X15. A clone is faithful: when the file on disk is still the one the
    original was opened from and the key step gives the key the original
    works with, Copy succeeds, the clone is the original with the raw
    descriptor at the original's position, and every read delivers on the
    clone what it delivers on the original. *)
Theorem Copy_faithful disk (m_sPath : CString) (g : globals) (this : tobj)
    (meta : FileMeta) :
  disk (chars m_sPath) = Some (fd_data this) ->
  parse_header (m_sSecret this) (fd_data this) = inr meta ->
  m_iHeaderSize this = header_size meta ->
  m_iFileSize this = plaintext_size meta ->
  let key := (find_or_generate_key SHA512_Simple GetAESKey uninit
                (m_sSecret this) m_sPath
                (Z.of_nat (length (subkey meta))) (subkey meta) g).1 in
  m_ctx this = aes_decrypt_key (take 24 key) ->
  verifies aes_decrypt_ctx aes_decrypt_key aes_decrypt key (verify_block meta) ->
  0 <= m_iFilePos this ->
  (TCopy disk m_sPath g this).1 = Some (set_fd_pos (m_iFilePos this) this) /\
  forall bytes,
    rr_buffer (TReadInternal bytes (set_fd_pos (m_iFilePos this) this)) =
    rr_buffer (TReadInternal bytes this).
Proof.
  cbv zeta. intros Hdisk Hparse Hhs Hsize Hctx Hver Hpos. split.
  - unfold Copy.
    pose proof (OpenInternal_char aes_decrypt_key aes_decrypt SHA512_Simple
                  GetAESKey uninit disk m_sPath g (copy_constructor this)
                  (fd_data this) Hdisk) as H.
    cbv zeta in H. cbn [copy_constructor m_sSecret m_iFilePos] in H.
    rewrite Hparse in H. rewrite H.
    rewrite bool_decide_true by done. cbn [or_ret or_obj fst].
    unfold SeekInternal, Tell.
    destruct (Z.ltb_spec (m_iFilePos this) 0); [lia|].
    unfold set_fd_pos. cbn [fd_data fd_pos m_iFilePos m_iHeaderSize
      m_iFileSize m_ctx m_sSecret].
    by rewrite <- Hhs, <- Hsize, <- Hctx.
  - intros bytes. apply ReadInternal_fd_pos.
    destruct (parse_header_inr _ _ _ Hparse) as (? & _ & Hh & _). lia.
Qed.

End Together.

(** * print_hex *)

Lemma read_hex_group (b : byte) (rest : string) :
  read_hex (ssprintf_02X b +:+ rest) = b :: read_hex rest.
Proof. by destruct b. Qed.

Lemma string_app_cons (c : Ascii.ascii) (s t : string) :
  String c s +:+ t = String c (s +:+ t).
Proof. reflexivity. Qed.

Lemma string_app_assoc (s1 s2 s3 : string) :
  (s1 +:+ s2) +:+ s3 = s1 +:+ (s2 +:+ s3).
Proof.
  induction s1 as [|c s1 IH]; [done|]. by rewrite !string_app_cons, IH.
Qed.

Lemma string_app_nil_r (s : string) : s +:+ "" = s.
Proof.
  induction s as [|c s IH]; [done|]. by rewrite string_app_cons, IH.
Qed.

Lemma sValues_fold (value : nat -> byte) (ks : list nat) (acc rest : string) :
  foldl (fun s i => s +:+ ssprintf_02X (value i)) acc ks +:+ rest =
  acc +:+ foldr (fun i s => ssprintf_02X (value i) +:+ s) rest ks.
Proof.
  revert acc. induction ks as [|k ks IH]; intros acc; cbn [foldl foldr].
  - done.
  - rewrite IH. by rewrite string_app_assoc.
Qed.

(** X18. The dump of [print_hex] can be read back: the text after the name holds
    the [length] bytes behind [value], in order, two digits and a blank
    each. *)
Theorem print_hex_round_trip (sName : string) (value : nat -> byte)
    (length : Z) :
  print_hex sName value length =
    "print_hex( " +:+ sName +:+ " ): " +:+ sValues value length /\
  read_hex (sValues value length) = value <$> seq 0 (Z.to_nat (u32 length)).
Proof.
  split; [done|]. unfold sValues.
  rewrite <- (string_app_nil_r (foldl _ _ _)), sValues_fold.
  change ("" +:+ ?s)%string with s.
  induction (seq 0 (Z.to_nat (u32 length))) as [|k ks IH].
  - done.
  - cbn [foldr fmap list_fmap]. by rewrite read_hex_group, IH.
Qed.

(** * The PIUIO input handler *)

Section PIUIOTheory.
Import PIUIO.

Variable MAX_GAME_BUTTONS : nat.
Variable join : string -> list string -> string.
Variable Board_Read : list board_event -> Z.
Variable Board_BulkReadWrite : list board_event -> list Z -> nat -> Z.

#[local] Abbreviation Normal := (HandleInputNormal Board_Read).
#[local] Abbreviation Kernel := (HandleInputKernel Board_BulkReadWrite).
#[local] Abbreviation Input :=
  (HandleInput join Board_Read Board_BulkReadWrite).
#[local] Abbreviation Lights := (UpdateLights MAX_GAME_BUTTONS).

(** ** Bits *)

Lemma bit_31_pow2 (b : Z) : 0 <= b < 32 -> bit_31 b = 2 ^ (31 - b).
Proof.
  intros H. unfold bit_31. rewrite Z.shiftl_1_l. apply u32_small.
  split; [apply Z.pow_nonneg; lia|]. apply Z.pow_lt_mono_r; lia.
Qed.

Lemma land_pow2 (x k : Z) :
  0 <= k -> Z.land x (2 ^ k) = if Z.testbit x k then 2 ^ k else 0.
Proof.
  intros Hk. apply Z.bits_inj'. intros n Hn. rewrite Z.land_spec.
  rewrite Z.pow2_bits_eqb by done.
  destruct (Z.eqb_spec k n) as [->|Hne].
  - destruct (Z.testbit x n); [|by rewrite Z.bits_0].
    by rewrite Z.pow2_bits_eqb, Z.eqb_refl.
  - rewrite andb_false_r. destruct (Z.testbit x k); [|by rewrite Z.bits_0].
    rewrite Z.pow2_bits_eqb by done. symmetry. by apply Z.eqb_neq.
Qed.

Lemma land_bit_31 (x b : Z) :
  0 <= b < 32 ->
  bool_decide (Z.land x (bit_31 b) ≠ 0) = Z.testbit x (31 - b).
Proof.
  intros H. rewrite bit_31_pow2, land_pow2 by lia.
  assert (0 < 2 ^ (31 - b)) by (apply Z.pow_pos_nonneg; lia).
  destruct (Z.testbit x (31 - b)).
  - apply bool_decide_eq_true. lia.
  - by apply bool_decide_eq_false; intros Hne.
Qed.

Lemma testbit_not32 (r k : Z) :
  0 <= k < 32 -> Z.testbit (not32 r) k = negb (Z.testbit r k).
Proof.
  intros H. unfold not32, u32.
  rewrite Z.mod_pow2_bits_low by lia. apply Z.lnot_spec. lia.
Qed.

Lemma testbit_u32_high (z n : Z) : 32 <= n -> Z.testbit (u32 z) n = false.
Proof. intros H. unfold u32. apply Z.mod_pow2_bits_high. lia. Qed.

Lemma sensor_select_lights (i : Z) :
  0 <= i < 4 -> Z.land (sensor_select i) lights_mask = 0.
Proof.
  intros H.
  assert (i = 0 \/ i = 1 \/ i = 2 \/ i = 3) as [->|[->|[->| ->]]] by lia;
    reflexivity.
Qed.

Lemma sensor_select_value (i : Z) :
  0 <= i < 4 ->
  sensor_select i = i * 65537 /\ Z.land (sensor_select i) 0x00030003 = i * 65537.
Proof.
  intros H.
  assert (i = 0 \/ i = 1 \/ i = 2 \/ i = 3) as [->|[->|[->| ->]]] by lia;
    split; reflexivity.
Qed.

(** The word of a turn keeps the light bits and carries the turn's sensor
    set. *)
Lemma turn_word (L i : Z) :
  0 <= i < 4 ->
  let w := Z.lor (Z.land L lights_mask) (sensor_select i) in
  Z.land w lights_mask = Z.land L lights_mask /\
  Z.land w 0x00030003 = i * 65537.
Proof.
  intros H. cbv zeta. split.
  - rewrite Z.land_lor_distr_l, <- Z.land_assoc, Z.land_diag.
    by rewrite sensor_select_lights, Z.lor_0_r.
  - rewrite Z.land_lor_distr_l, <- Z.land_assoc.
    change (Z.land lights_mask 0x00030003) with 0.
    rewrite Z.land_0_r, Z.lor_0_l. by apply sensor_select_value.
Qed.

(** ** [HandleInputNormal] and [HandleInputKernel] *)

Lemma HandleInputNormal_turn_spec (s : InputHandler_PIUIO) (i : Z) :
  exists r,
    HandleInputNormal_turn Board_Read s i =
    {| Board := Board s ++
         [ev_Write (Z.lor (Z.land (m_iLightData s) lights_mask)
                      (sensor_select i));
          ev_Read (u32 r)];
       m_iInputField := m_iInputField s;
       m_iInputData := <[Z.to_nat i := not32 (u32 r)]> (m_iInputData s);
       m_iBulkReadData := m_iBulkReadData s;
       m_iLightData :=
         Z.lor (Z.land (m_iLightData s) lights_mask) (sensor_select i);
       m_LightsMappings := m_LightsMappings s;
       InternalInputHandler := InternalInputHandler s |}.
Proof.
  eexists. unfold HandleInputNormal_turn.
  cbn [set_iInputData set_iLightData set_Board Board m_iInputField
       m_iInputData m_iBulkReadData m_iLightData m_LightsMappings
       InternalInputHandler].
  by rewrite <- (assoc_L (++)).
Qed.

(** [HandleInputNormal] run symbolically. *)
Lemma HandleInputNormal_run (this : InputHandler_PIUIO) :
  let L := Z.land (m_iLightData this) lights_mask in
  exists r0 r1 r2 r3,
    Normal this =
    {| Board := Board this ++
         [ev_Write (Z.lor L (sensor_select 0)); ev_Read (u32 r0);
          ev_Write (Z.lor L (sensor_select 1)); ev_Read (u32 r1);
          ev_Write (Z.lor L (sensor_select 2)); ev_Read (u32 r2);
          ev_Write (Z.lor L (sensor_select 3)); ev_Read (u32 r3)];
       m_iInputField := m_iInputField this;
       m_iInputData :=
         <[3%nat := not32 (u32 r3)]>
           (<[2%nat := not32 (u32 r2)]>
              (<[1%nat := not32 (u32 r1)]>
                 (<[0%nat := not32 (u32 r0)]> (m_iInputData this))));
       m_iBulkReadData := m_iBulkReadData this;
       m_iLightData := Z.lor L (sensor_select 3);
       m_LightsMappings := m_LightsMappings this;
       InternalInputHandler := InternalInputHandler this |}.
Proof.
  cbv zeta. unfold HandleInputNormal.
  change (seqZ 0 4) with [0; 1; 2; 3]. cbn [foldl].
  pose proof (fun i H => proj1 (turn_word (m_iLightData this) i H)) as Hmask.
  cbv zeta in Hmask.
  set (L := Z.land (m_iLightData this) lights_mask) in *.
  destruct (HandleInputNormal_turn_spec this 0) as [r0 ->].
  fold L.
  match goal with
  | |- context [HandleInputNormal_turn _ ?s 1] =>
      destruct (HandleInputNormal_turn_spec s 1) as [r1 ->]
  end.
  cbn [Board m_iInputField m_iInputData m_iBulkReadData m_iLightData
       m_LightsMappings InternalInputHandler].
  rewrite (Hmask 0) by lia.
  match goal with
  | |- context [HandleInputNormal_turn _ ?s 2] =>
      destruct (HandleInputNormal_turn_spec s 2) as [r2 ->]
  end.
  cbn [Board m_iInputField m_iInputData m_iBulkReadData m_iLightData
       m_LightsMappings InternalInputHandler].
  rewrite (Hmask 1) by lia.
  match goal with
  | |- context [HandleInputNormal_turn _ ?s 3] =>
      destruct (HandleInputNormal_turn_spec s 3) as [r3 ->]
  end.
  cbn [Board m_iInputField m_iInputData m_iBulkReadData m_iLightData
       m_LightsMappings InternalInputHandler].
  rewrite (Hmask 2) by lia.
  rewrite <- !(assoc_L (++)). cbn [app].
  change (Z.to_nat 0) with 0%nat. change (Z.to_nat 1) with 1%nat.
  change (Z.to_nat 2) with 2%nat. change (Z.to_nat 3) with 3%nat.
  by exists r0, r1, r2, r3.
Qed.


(** [HandleInputKernel] run symbolically. *)
Lemma HandleInputKernel_run (this : InputHandler_PIUIO) :
  let L := Z.land (m_iLightData this) lights_mask in
  let sent := [Z.lor L (sensor_select 0); 0; Z.lor L (sensor_select 1); 0;
               Z.lor L (sensor_select 2); 0; Z.lor L (sensor_select 3); 0] in
  exists g0 g1 g2 g3 g4 g5 g6 g7,
    Kernel this =
    {| Board := Board this ++
         [ev_BulkReadWrite sent
            [u32 g0; u32 g1; u32 g2; u32 g3; u32 g4; u32 g5; u32 g6; u32 g7]];
       m_iInputField := m_iInputField this;
       m_iInputData :=
         <[3%nat := not32 (u32 g6)]>
           (<[2%nat := not32 (u32 g4)]>
              (<[1%nat := not32 (u32 g2)]>
                 (<[0%nat := not32 (u32 g0)]> (m_iInputData this))));
       m_iBulkReadData :=
         [u32 g0; u32 g1; u32 g2; u32 g3; u32 g4; u32 g5; u32 g6; u32 g7];
       m_iLightData := L;
       m_LightsMappings := m_LightsMappings this;
       InternalInputHandler := InternalInputHandler this |}.
Proof.
  cbv zeta.
  set (L := Z.land (m_iLightData this) lights_mask).
  set (sent := [Z.lor L (sensor_select 0); 0; Z.lor L (sensor_select 1); 0;
                Z.lor L (sensor_select 2); 0; Z.lor L (sensor_select 3); 0]).
  exists (Board_BulkReadWrite (Board this) sent 0),
         (Board_BulkReadWrite (Board this) sent 1),
         (Board_BulkReadWrite (Board this) sent 2),
         (Board_BulkReadWrite (Board this) sent 3),
         (Board_BulkReadWrite (Board this) sent 4),
         (Board_BulkReadWrite (Board this) sent 5),
         (Board_BulkReadWrite (Board this) sent 6),
         (Board_BulkReadWrite (Board this) sent 7).
  reflexivity.
Qed.

(** X20. The kernel handler sends in one bulk transfer the four words the normal
    handler writes one by one: they stand at the members 0, 2, 4 and 6 of the
    array, with zero between them, and the array comes back with eight
    members. *)
Theorem kernel_sends_words_of_normal (this : InputHandler_PIUIO) :
  exists events got,
    Board (HandleInputNormal Board_Read this) = Board this ++ events /\
    Board (HandleInputKernel Board_BulkReadWrite this) =
      Board this ++
      [ev_BulkReadWrite (concat ((fun w => [w; 0]) <$> written events)) got] /\
    length (written events) = 4%nat /\ length got = 8%nat.
Proof.
  destruct (HandleInputNormal_run this) as (r0 & r1 & r2 & r3 & ->).
  destruct (HandleInputKernel_run this)
    as (g0 & g1 & g2 & g3 & g4 & g5 & g6 & g7 & ->).
  cbn [Board]. eexists _, _. split; [reflexivity|].
  unfold written. cbn [omap list_omap]. done.
Qed.

(** ** [HandleInput] *)

(** The field of line 233 has a bit when one of the four sensor words has
    it. *)
Lemma field_testbit (d0 d1 d2 d3 k : Z) :
  Z.testbit (Z.lor (Z.lor (Z.lor (Z.lor 0 d0) d1) d2) d3) k =
  Z.testbit d0 k || Z.testbit d1 k || Z.testbit d2 k || Z.testbit d3 k.
Proof. by rewrite !Z.lor_spec, Z.bits_0. Qed.

(** [HandleInput] with the normal handler, run symbolically. *)
Lemma HandleInput_Normal_run (this : InputHandler_PIUIO) :
  InternalInputHandler this = ptr_HandleInputNormal ->
  let L := Z.land (m_iLightData this) lights_mask in
  exists r0 r1 r2 r3,
    let data := [not32 (u32 r0); not32 (u32 r1); not32 (u32 r2);
                 not32 (u32 r3)] in
    let field :=
      Z.lor (Z.lor (Z.lor (Z.lor 0 (not32 (u32 r0))) (not32 (u32 r1)))
               (not32 (u32 r2))) (not32 (u32 r3)) in
    Input this =
    ({| Board := Board this ++
          [ev_Write (Z.lor L (sensor_select 0)); ev_Read (u32 r0);
           ev_Write (Z.lor L (sensor_select 1)); ev_Read (u32 r1);
           ev_Write (Z.lor L (sensor_select 2)); ev_Read (u32 r2);
           ev_Write (Z.lor L (sensor_select 3)); ev_Read (u32 r3)];
        m_iInputField := field;
        m_iInputData := data;
        m_iBulkReadData := m_iBulkReadData this;
        m_iLightData := Z.lor L (sensor_select 3);
        m_LightsMappings := m_LightsMappings this;
        InternalInputHandler := InternalInputHandler this |},
     (fun b =>
        {| iButton := b;
           comment := GetSensorDescription join data b;
           pressed := bool_decide (Z.land field (bit_31 b) ≠ 0) |})
     <$> seqZ 0 32).
Proof.
  intros Hptr. cbv zeta. unfold HandleInput.
  cbn [set_iInputData set_iInputField InternalInputHandler].
  rewrite Hptr.
  match goal with
  | |- context [HandleInputNormal _ ?s] =>
      destruct (HandleInputNormal_run s) as (r0 & r1 & r2 & r3 & ->)
  end.
  exists r0, r1, r2, r3.
  cbn [Board m_iInputField m_iInputData m_iBulkReadData m_iLightData
       m_LightsMappings InternalInputHandler set_iInputField
       set_iInputData].
  rewrite Hptr. reflexivity.
Qed.

(** [HandleInput] with the kernel handler, run symbolically. *)
Lemma HandleInput_Kernel_run (this : InputHandler_PIUIO) :
  InternalInputHandler this = ptr_HandleInputKernel ->
  exists sent g0 g1 g2 g3 g4 g5 g6 g7,
    let got := [u32 g0; u32 g1; u32 g2; u32 g3; u32 g4; u32 g5; u32 g6;
                u32 g7] in
    let data := [not32 (u32 g0); not32 (u32 g2); not32 (u32 g4);
                 not32 (u32 g6)] in
    let field :=
      Z.lor (Z.lor (Z.lor (Z.lor 0 (not32 (u32 g0))) (not32 (u32 g2)))
               (not32 (u32 g4))) (not32 (u32 g6)) in
    Input this =
    ({| Board := Board this ++ [ev_BulkReadWrite sent got];
        m_iInputField := field;
        m_iInputData := data;
        m_iBulkReadData := got;
        m_iLightData := Z.land (m_iLightData this) lights_mask;
        m_LightsMappings := m_LightsMappings this;
        InternalInputHandler := InternalInputHandler this |},
     (fun b =>
        {| iButton := b;
           comment := GetSensorDescription join data b;
           pressed := bool_decide (Z.land field (bit_31 b) ≠ 0) |})
     <$> seqZ 0 32).
Proof.
  intros Hptr. unfold HandleInput.
  cbn [set_iInputData set_iInputField InternalInputHandler].
  rewrite Hptr.
  match goal with
  | |- context [HandleInputKernel _ ?s] =>
      destruct (HandleInputKernel_run s)
        as (g0 & g1 & g2 & g3 & g4 & g5 & g6 & g7 & ->)
  end.
  eexists _, g0, g1, g2, g3, g4, g5, g6, g7.
  cbn [Board m_iInputField m_iInputData m_iBulkReadData m_iLightData
       m_LightsMappings InternalInputHandler set_iInputField
       set_iInputData].
  rewrite Hptr. reflexivity.
Qed.

Lemma reports_lookup (f : Z -> button_report) (b : Z) :
  0 <= b < 32 -> (f <$> seqZ 0 32) !! Z.to_nat b = Some (f b).
Proof.
  intros H. rewrite list_lookup_fmap, lookup_seqZ_lt by lia.
  cbn. f_equal. f_equal. lia.
Qed.

(** X21. PIUIO opens high.  With the normal handler, [HandleInput] reports
    button [b] (bit [31 - b]) pressed exactly when at least one of the four
    words the board delivered in this poll has that bit low. *)
Theorem pressed_iff_some_read_low (this : InputHandler_PIUIO) (b : Z) :
  InternalInputHandler this = ptr_HandleInputNormal ->
  0 <= b < 32 ->
  exists events rep,
    Board (HandleInput join Board_Read Board_BulkReadWrite this).1 =
      Board this ++ events /\
    length (delivered events) = 4%nat /\
    (HandleInput join Board_Read Board_BulkReadWrite this).2 !! Z.to_nat b =
      Some rep /\
    iButton rep = b /\
    (pressed rep = true <->
     Exists (fun r => Z.testbit r (31 - b) = false) (delivered events)).
Proof.
  intros Hptr Hb.
  destruct (HandleInput_Normal_run this Hptr) as (r0 & r1 & r2 & r3 & ->).
  cbn [fst snd Board]. eexists _, _. split; [reflexivity|].
  unfold delivered. cbn [omap list_omap]. split; [done|].
  split; [by apply reports_lookup|]. cbn [iButton pressed]. split; [done|].
  rewrite land_bit_31, field_testbit, !testbit_not32 by lia.
  rewrite !Exists_cons, Exists_nil.
  destruct (Z.testbit (u32 r0) (31 - b)), (Z.testbit (u32 r1) (31 - b)),
    (Z.testbit (u32 r2) (31 - b)), (Z.testbit (u32 r3) (31 - b));
    cbn; intuition congruence.
Qed.

(** X22. The same with the kernel handler: button [b] is reported pressed exactly
    when one of the members 0, 2, 4, 6 of the array the bulk transfer left
    has bit [31 - b] low. *)
Theorem pressed_iff_some_bulk_word_low (this : InputHandler_PIUIO) (b : Z) :
  InternalInputHandler this = ptr_HandleInputKernel ->
  0 <= b < 32 ->
  exists sent got rep,
    Board (HandleInput join Board_Read Board_BulkReadWrite this).1 =
      Board this ++ [ev_BulkReadWrite sent got] /\
    (HandleInput join Board_Read Board_BulkReadWrite this).2 !! Z.to_nat b =
      Some rep /\
    iButton rep = b /\
    (pressed rep = true <->
     exists i, (i < 4)%nat /\ Z.testbit (at_index got (2 * i)) (31 - b) = false).
Proof.
  intros Hptr Hb.
  destruct (HandleInput_Kernel_run this Hptr)
    as (sent & g0 & g1 & g2 & g3 & g4 & g5 & g6 & g7 & ->).
  cbn [fst snd Board]. eexists _, _, _. split; [reflexivity|].
  split; [by apply reports_lookup|]. cbn [iButton pressed]. split; [done|].
  rewrite land_bit_31, field_testbit, !testbit_not32 by lia.
  split.
  - intros H.
    destruct (Z.testbit (u32 g0) (31 - b)) eqn:E0;
      [|exists 0%nat; split; [lia|exact E0]].
    destruct (Z.testbit (u32 g2) (31 - b)) eqn:E2;
      [|exists 1%nat; split; [lia|exact E2]].
    destruct (Z.testbit (u32 g4) (31 - b)) eqn:E4;
      [|exists 2%nat; split; [lia|exact E4]].
    destruct (Z.testbit (u32 g6) (31 - b)) eqn:E6;
      [|exists 3%nat; split; [lia|exact E6]].
    done.
  - intros (i & Hi & H).
    destruct i as [|[|[|[|i]]]]; [..|lia]; cbn in H; rewrite H;
      by rewrite ?orb_true_r.
Qed.

(** ** [GetSensorDescription] *)


(** ** [UpdateLights] *)

Lemma foldl_lor_testbit (step : Z -> nat -> Z) (e : nat -> bool) (n : Z)
    (ks : list nat) (L0 : Z) :
  (forall L k, Z.testbit (step L k) n = Z.testbit L n || e k) ->
  Z.testbit (foldl step L0 ks) n = Z.testbit L0 n || existsb e ks.
Proof.
  intros H. revert L0. induction ks as [|k ks IH]; intros L0;
    cbn [foldl existsb].
  - by rewrite orb_false_r.
  - by rewrite IH, H, orb_assoc.
Qed.

Lemma foldl_invariant (P : Z -> Prop) (step : Z -> nat -> Z)
    (ks : list nat) (L0 : Z) :
  P L0 -> (forall L k, P L -> P (step L k)) -> P (foldl step L0 ks).
Proof.
  intros H0 Hstep. revert L0 H0.
  induction ks as [|k ks IH]; intros L0 H0; cbn [foldl]; auto.
Qed.

Lemma existsb_none (e : nat -> bool) (ks : list nat) :
  (forall k, e k = false) -> existsb e ks = false.
Proof.
  intros H. induction ks as [|k ks IH]; cbn [existsb]; [done|].
  by rewrite H, IH.
Qed.

Lemma at_index_Forall (P : Z -> Prop) (a : list Z) (i : nat) :
  P 0 -> Forall P a -> P (at_index a i).
Proof.
  intros H0 Ha. unfold at_index. destruct (a !! i) as [x|] eqn:E; [|done].
  cbn. by eapply Forall_lookup_1.
Qed.

Lemma at_index_zeros (a : list Z) (n i : nat) :
  at_index (a ++ replicate n 0) i = at_index a i.
Proof.
  unfold at_index. destruct (decide (i < length a)%nat).
  - by rewrite lookup_app_l.
  - rewrite lookup_app_r, (lookup_ge_None_2 a) by lia.
    destruct (replicate n 0 !! (i - length a)%nat) as [x|] eqn:E; [|done].
    by apply lookup_replicate in E as [-> _].
Qed.

(** A bit of the light word is set exactly when a lit cabinet light or a lit
    game button light is mapped to it, or the coin counter's word has it. *)
Lemma UpdateLights_testbit (ls : LightsState) (this : InputHandler_PIUIO)
    (n : Z) :
  let m := m_LightsMappings this in
  Z.testbit (m_iLightData (Lights ls this)) n =
  existsb (fun cl => default false (m_bCabinetLights ls !! cl) &&
                     Z.testbit (at_index (m_iCabinetLights m) cl) n)
          (seq 0 NUM_CABINET_LIGHTS)
  || existsb (fun gc =>
       existsb (fun gb =>
                  default false
                    (default [] (m_bGameButtonLights ls !! gc) !! gb) &&
                  Z.testbit
                    (at_index (default [] (m_iGameLights m !! gc)) gb) n)
               (seq 0 MAX_GAME_BUTTONS))
       (seq 0 MAX_GAME_CONTROLLERS)
  || Z.testbit (if m_bCoinCounter ls then m_iCoinCounterOn m
                else m_iCoinCounterOff m) n.
Proof.
  cbv zeta. unfold UpdateLights. cbn [m_iLightData set_iLightData].
  rewrite Z.lor_spec. f_equal.
  rewrite (foldl_lor_testbit _
    (fun gc =>
       existsb (fun gb =>
                  default false
                    (default [] (m_bGameButtonLights ls !! gc) !! gb) &&
                  Z.testbit
                    (at_index
                       (default [] (m_iGameLights (m_LightsMappings this) !! gc))
                       gb) n)
               (seq 0 MAX_GAME_BUTTONS))).
  - f_equal.
    rewrite (foldl_lor_testbit _
      (fun cl => default false (m_bCabinetLights ls !! cl) &&
                 Z.testbit
                   (at_index (m_iCabinetLights (m_LightsMappings this)) cl) n)).
    + by rewrite Z.bits_0.
    + intros L k. destruct (default false _); cbn.
      * by rewrite Z.lor_spec.
      * by rewrite orb_false_r.
  - intros L gc. apply foldl_lor_testbit. intros L' k.
    destruct (default false _); cbn.
    + by rewrite Z.lor_spec.
    + by rewrite orb_false_r.
Qed.

(** With a mapping whose words lie inside the lights mask, so does the light
    word. *)
Lemma UpdateLights_in_mask (ls : LightsState) (this : InputHandler_PIUIO) :
  let m := m_LightsMappings this in
  Forall (fun e => Z.land e lights_mask = e) (m_iCabinetLights m) ->
  Forall (Forall (fun e => Z.land e lights_mask = e)) (m_iGameLights m) ->
  Z.land (m_iCoinCounterOn m) lights_mask = m_iCoinCounterOn m ->
  Z.land (m_iCoinCounterOff m) lights_mask = m_iCoinCounterOff m ->
  Z.land (m_iLightData (Lights ls this)) lights_mask =
  m_iLightData (Lights ls this).
Proof.
  cbv zeta. intros Hcab Hgame Hon Hoff.
  unfold UpdateLights. cbn [m_iLightData set_iLightData].
  assert (Hlor : forall a b, Z.land a lights_mask = a ->
                             Z.land b lights_mask = b ->
                             Z.land (Z.lor a b) lights_mask = Z.lor a b).
  { intros a b Ha Hb. by rewrite Z.land_lor_distr_l, Ha, Hb. }
  apply Hlor; [|by destruct (m_bCoinCounter ls)].
  apply (foldl_invariant (fun L => Z.land L lights_mask = L)).
  - apply (foldl_invariant (fun L => Z.land L lights_mask = L)); [done|].
    intros L k HL. destruct (default false _); [|done].
    apply Hlor; [done|]. by apply at_index_Forall.
  - intros L gc HL.
    apply (foldl_invariant (fun L => Z.land L lights_mask = L)); [done|].
    intros L' k HL'. destruct (default false _); [|done].
    apply Hlor; [done|]. apply at_index_Forall; [done|].
    destruct (m_iGameLights (m_LightsMappings this) !! gc) as [row|] eqn:E;
      cbn; [|done].
    by eapply (Forall_lookup_1 _ _ _ _ Hgame).
Qed.

(** X24. No light is lost to the sensor selection.  When the words of the lights
    mapping keep clear of bits 0, 1, 16 and 17, every word one turn of the
    input thread writes to the board carries, under the lights mask, exactly
    the light word [UpdateLights] computed. *)
Theorem lights_survive_polling (ls : LightsState) (this : InputHandler_PIUIO) :
  InternalInputHandler this = ptr_HandleInputNormal ->
  Forall (fun e => Z.land e lights_mask = e)
         (m_iCabinetLights (m_LightsMappings this)) ->
  Forall (Forall (fun e => Z.land e lights_mask = e))
         (m_iGameLights (m_LightsMappings this)) ->
  Z.land (m_iCoinCounterOn (m_LightsMappings this)) lights_mask =
    m_iCoinCounterOn (m_LightsMappings this) ->
  Z.land (m_iCoinCounterOff (m_LightsMappings this)) lights_mask =
    m_iCoinCounterOff (m_LightsMappings this) ->
  exists events,
    Board (InputThreadMain_turn MAX_GAME_BUTTONS join Board_Read
             Board_BulkReadWrite ls this).1 = Board this ++ events /\
    length (written events) = 4%nat /\
    Forall (fun w => Z.land w lights_mask =
                     m_iLightData (UpdateLights MAX_GAME_BUTTONS ls this))
           (written events).
Proof.
  intros Hptr Hcab Hgame Hon Hoff.
  pose proof (UpdateLights_in_mask ls this Hcab Hgame Hon Hoff) as Hin.
  unfold InputThreadMain_turn.
  set (s := Lights ls this) in *.
  assert (Hs : InternalInputHandler s = ptr_HandleInputNormal) by exact Hptr.
  destruct (HandleInput_Normal_run s Hs) as (r0 & r1 & r2 & r3 & ->).
  cbn [fst Board]. eexists. split; [reflexivity|].
  unfold written. cbn [omap list_omap]. split; [done|].
  pose proof (fun i H => proj1 (turn_word (m_iLightData s) i H)) as Hw.
  cbv zeta in Hw.
  repeat constructor; rewrite Hw by lia; exact Hin.
Qed.

(** X25. With the mapping of [SetLightsMappings] (when [LoadMappings] leaves it
    as it is) every light word carries exactly one of the two coin counter
    bits: bit 28 while a coin is being counted, bit 27 otherwise. *)
Theorem coin_counter_bits (ls : LightsState) (this : InputHandler_PIUIO) :
  m_LightsMappings this = default_mappings MAX_GAME_BUTTONS ->
  Z.testbit (m_iLightData (UpdateLights MAX_GAME_BUTTONS ls this)) 28 =
    m_bCoinCounter ls /\
  Z.testbit (m_iLightData (UpdateLights MAX_GAME_BUTTONS ls this)) 27 =
    negb (m_bCoinCounter ls).
Proof.
  intros Hm.
  assert (Hcab : forall n cl, n = 27 \/ n = 28 ->
            Z.testbit (at_index iCabinetLights cl) n = false).
  { intros n cl [-> | ->];
      by do 9 (try destruct cl as [|cl]). }
  assert (Hgame : forall n gc gb, n = 27 \/ n = 28 ->
            Z.testbit
              (at_index (default [] (iGameLights MAX_GAME_BUTTONS !! gc)) gb)
              n = false).
  { intros n gc gb Hn. unfold iGameLights.
    destruct gc as [|[|gc]];
      cbn [lookup list_lookup default from_option id];
      rewrite ?at_index_zeros;
      destruct Hn as [-> | ->]; by do 5 (try destruct gb as [|gb]). }
  split; rewrite UpdateLights_testbit; cbv zeta; rewrite Hm;
    cbn [default_mappings m_iCabinetLights m_iGameLights m_iCoinCounterOn
         m_iCoinCounterOff].
  - rewrite !existsb_none; [by destruct (m_bCoinCounter ls)| |].
    + intros gc. apply existsb_none. intros gb.
      rewrite Hgame by auto. apply andb_false_r.
    + intros cl. rewrite Hcab by auto. apply andb_false_r.
  - rewrite !existsb_none; [by destruct (m_bCoinCounter ls)| |].
    + intros gc. apply existsb_none. intros gb.
      rewrite Hgame by auto. apply andb_false_r.
    + intros cl. rewrite Hcab by auto. apply andb_false_r.
Qed.

(** ** [GetSensorSet] *)

(** X26. The fourth sensor set cannot be queried.  [HandleInput] folds four sets
    into the field and reports a button pressed when its bit is in set 3
    alone, but [GetSensorSet] answers 0 from set 3 on: no query shows the
    bit. *)
Theorem fourth_sensor_set_hidden (this : InputHandler_PIUIO) (b : Z) :
  0 <= b < 32 ->
  let after := (HandleInput join Board_Read Board_BulkReadWrite this).1 in
  let reports := (HandleInput join Board_Read Board_BulkReadWrite this).2 in
  Forall (fun d => Z.testbit d (31 - b) = false)
         (take 3 (m_iInputData after)) ->
  Z.testbit (at_index (m_iInputData after) 3) (31 - b) = true ->
  (exists rep, reports !! Z.to_nat b = Some rep /\ pressed rep = true) /\
  forall iSet v, GetSensorSet after iSet = Some v ->
                 Z.testbit v (31 - b) = false.
Proof.
  intros Hb. cbv zeta.
  assert (Hrun : exists d0 d1 d2 d3 brd bulk L,
    Input this =
    ({| Board := brd; 
        m_iInputField := Z.lor (Z.lor (Z.lor (Z.lor 0 d0) d1) d2) d3;
        m_iInputData := [d0; d1; d2; d3];
        m_iBulkReadData := bulk; m_iLightData := L;
        m_LightsMappings := m_LightsMappings this;
        InternalInputHandler := InternalInputHandler this |},
     (fun b =>
        {| iButton := b;
           comment := GetSensorDescription join [d0; d1; d2; d3] b;
           pressed :=
             bool_decide
               (Z.land (Z.lor (Z.lor (Z.lor (Z.lor 0 d0) d1) d2) d3)
                       (bit_31 b) ≠ 0) |})
     <$> seqZ 0 32)).
  { destruct (InternalInputHandler this) eqn:Hptr.
    - destruct (HandleInput_Normal_run this Hptr) as (r0 & r1 & r2 & r3 & E).
      cbv zeta in E. rewrite Hptr in E. rewrite E. by eexists _, _, _, _, _, _, _.
    - destruct (HandleInput_Kernel_run this Hptr)
        as (sent & g0 & g1 & g2 & g3 & g4 & g5 & g6 & g7 & E).
      cbv zeta in E. rewrite Hptr in E. rewrite E. by eexists _, _, _, _, _, _, _. }
  destruct Hrun as (d0 & d1 & d2 & d3 & brd & bulk & L & ->).
  cbn [fst snd m_iInputData take]. intros Hlow Hhigh.
  apply Forall_cons in Hlow as [H0 Hlow].
  apply Forall_cons in Hlow as [H1 Hlow].
  apply Forall_cons in Hlow as [H2 _].
  change (at_index [d0; d1; d2; d3] 3) with d3 in Hhigh.
  split.
  - eexists. split; [by apply reports_lookup|]. cbn [pressed].
    by rewrite land_bit_31, field_testbit, H0, H1, H2, Hhigh by lia.
  - intros iSet v. unfold GetSensorSet. cbn [m_iInputData].
    case_bool_decide; [intros [= <-]; apply Z.bits_0|].
    case_bool_decide; [done|].
    intros Hv.
    assert (Z.to_nat iSet = 0 \/ Z.to_nat iSet = 1 \/ Z.to_nat iSet = 2)%nat
      as [E|[E|E]] by lia;
      rewrite E in Hv; cbn in Hv; congruence.
Qed.

(** X27. The table [GetSensorSet] hands to Lua holds the 32 bits of the sensor
    word, most significant first: read as a binary numeral it gives the word
    back. *)
Theorem Lua_table_is_the_word (p : InputHandler_PIUIO) (iSet w : Z) :
  GetSensorSet p iSet = Some w ->
  0 <= w < 2 ^ 32 ->
  exists vSensors,
    Lua_GetSensorSet p iSet = Some vSensors /\
    length vSensors = 32%nat /\
    foldl (fun acc (bit : bool) => 2 * acc + (if bit then 1 else 0)) 0
          vSensors = w.
Proof.
  intros Hw Hrange. unfold Lua_GetSensorSet. rewrite Hw. cbn [mbind option_bind].
  eexists. split; [reflexivity|].
  split; [by rewrite length_fmap, length_seqZ|].
  assert (Hn : forall n : nat, (n <= 32)%nat ->
    foldl (fun acc (bit : bool) => 2 * acc + (if bit then 1 else 0)) 0
      ((fun i => bool_decide (Z.land w (bit_31 i) ≠ 0))
         <$> seqZ 0 (Z.of_nat n)) = w / 2 ^ (32 - Z.of_nat n)).
  { induction n as [|n IH]; intros Hle.
    - cbn. symmetry. apply Z.div_small. lia.
    - rewrite Nat2Z.inj_succ, <- Z.add_1_r, seqZ_app by lia.
      change (seqZ (0 + Z.of_nat n) 1) with [0 + Z.of_nat n].
      rewrite fmap_app, foldl_app, IH by lia. cbn [fmap list_fmap foldl].
      rewrite land_bit_31 by lia.
      replace (31 - (0 + Z.of_nat n)) with (32 - (Z.of_nat n + 1)) by lia.
      set (k := 32 - (Z.of_nat n + 1)).
      replace (32 - Z.of_nat n) with (k + 1) by (unfold k; lia).
      assert (0 <= k) by (unfold k; lia).
      rewrite Z.pow_add_r, <- Z.div_div by lia.
      rewrite Z.testbit_odd, Z.shiftr_div_pow2 by lia.
      set (q := w / 2 ^ k).
      rewrite (Z.div2_odd q) at 3. rewrite Z.div2_div.
      by destruct (Z.odd q). }
  specialize (Hn 32%nat ltac:(lia)).
  change (Z.of_nat 32) with 32 in Hn. rewrite Hn.
  change (2 ^ (32 - 32)) with 1. apply Z.div_1_r.
Qed.

End PIUIOTheory.

(** ** Sample runs of the input handler *)

Section PIUIORuns.
Import PIUIO PIUIOSample.

(** Button 31 (bit 0) with the normal handler on the sample board. *)
Lemma pressed_iff_some_read_low_witness :
  InternalInputHandler (handler ptr_HandleInputNormal) = ptr_HandleInputNormal /\
  exists events rep,
    Board (HandleInput join Board_Read Board_BulkReadWrite
             (handler ptr_HandleInputNormal)).1 =
      Board (handler ptr_HandleInputNormal) ++ events /\
    length (delivered events) = 4%nat /\
    (HandleInput join Board_Read Board_BulkReadWrite
       (handler ptr_HandleInputNormal)).2 !! Z.to_nat 31 = Some rep /\
    iButton rep = 31 /\
    (pressed rep = true <->
     Exists (fun r => Z.testbit r (31 - 31) = false) (delivered events)).
Proof.
  split; [reflexivity|].
  apply (pressed_iff_some_read_low join Board_Read Board_BulkReadWrite
           (handler ptr_HandleInputNormal) 31); [reflexivity|lia].
Defined.

(** Button 31 with the kernel handler on the sample board. *)
Lemma pressed_iff_some_bulk_word_low_witness :
  InternalInputHandler (handler ptr_HandleInputKernel) = ptr_HandleInputKernel /\
  exists sent got rep,
    Board (HandleInput join Board_Read Board_BulkReadWrite
             (handler ptr_HandleInputKernel)).1 =
      Board (handler ptr_HandleInputKernel) ++ [ev_BulkReadWrite sent got] /\
    (HandleInput join Board_Read Board_BulkReadWrite
       (handler ptr_HandleInputKernel)).2 !! Z.to_nat 31 = Some rep /\
    iButton rep = 31 /\
    (pressed rep = true <->
     exists i, (i < 4)%nat /\
               Z.testbit (at_index got (2 * i)) (31 - 31) = false).
Proof.
  split; [reflexivity|].
  apply (pressed_iff_some_bulk_word_low join Board_Read Board_BulkReadWrite
           (handler ptr_HandleInputKernel) 31); [reflexivity|lia].
Defined.


(** The mapping of [SetLightsMappings] keeps clear of the sensor selection
    bits; the sample handler enters the turn with them set. *)
Lemma lights_survive_polling_witness :
  Z.land (m_iLightData (handler ptr_HandleInputNormal)) 0x00030003 <> 0 /\
  exists events,
    Board (InputThreadMain_turn 20 join Board_Read Board_BulkReadWrite
             lights_on (handler ptr_HandleInputNormal)).1 =
      Board (handler ptr_HandleInputNormal) ++ events /\
    length (written events) = 4%nat /\
    Forall (fun w => Z.land w lights_mask =
                     m_iLightData (UpdateLights 20 lights_on
                                     (handler ptr_HandleInputNormal)))
           (written events).
Proof.
  split; [by vm_compute|].
  apply (lights_survive_polling 20 join Board_Read Board_BulkReadWrite
           lights_on (handler ptr_HandleInputNormal)).
  - reflexivity.
  - repeat constructor.
  - repeat constructor.
  - reflexivity.
  - reflexivity.
Defined.

(** The coin counter bits with the sample lights, a coin being counted. *)
Lemma coin_counter_bits_witness :
  m_LightsMappings (handler ptr_HandleInputNormal) = default_mappings 20 /\
  Z.testbit (m_iLightData (UpdateLights 20 lights_on
                             (handler ptr_HandleInputNormal))) 28 = true /\
  Z.testbit (m_iLightData (UpdateLights 20 lights_on
                             (handler ptr_HandleInputNormal))) 27 = false.
Proof.
  split; [reflexivity|].
  exact (coin_counter_bits 20 lights_on (handler ptr_HandleInputNormal)
           eq_refl).
Defined.

(** On the sample board only the fourth set reports button 31. *)
Lemma fourth_sensor_set_hidden_witness :
  m_iInputData (HandleInput join Board_Read Board_BulkReadWrite
                  (handler ptr_HandleInputNormal)).1 = [0; 0; 0; 1] /\
  (exists rep,
     (HandleInput join Board_Read Board_BulkReadWrite
        (handler ptr_HandleInputNormal)).2 !! Z.to_nat 31 = Some rep /\
     pressed rep = true) /\
  forall iSet v,
    GetSensorSet (HandleInput join Board_Read Board_BulkReadWrite
                    (handler ptr_HandleInputNormal)).1 iSet = Some v ->
    Z.testbit v (31 - 31) = false.
Proof.
  split; [by vm_compute|].
  apply (fourth_sensor_set_hidden join Board_Read Board_BulkReadWrite
           (handler ptr_HandleInputNormal) 31).
  - lia.
  - vm_compute. repeat constructor.
  - by vm_compute.
Defined.

(** The table of the second sensor set of the sample handler, the word 6. *)
Lemma Lua_table_is_the_word_witness :
  GetSensorSet polled 1 = Some 6 /\
  exists vSensors,
    Lua_GetSensorSet polled 1 = Some vSensors /\
    length vSensors = 32%nat /\
    foldl (fun acc (bit : bool) => 2 * acc + (if bit then 1 else 0)) 0
          vSensors = 6.
Proof.
  split; [reflexivity|].
  apply (Lua_table_is_the_word polled 1 6); [reflexivity|lia].
Defined.

End PIUIORuns.

(** * Sample runs of the further properties *)

Section MoreRuns.
Import Sample Sample2.

#[local] Abbreviation patch_path := (path_at 4096 "Data/patch.patch").
#[local] Abbreviation RI_ := (ReadInternal ctx decrypt junk).
#[local] Abbreviation no_hash := (fun _ : list byte => @nil byte).

(** X1 at the open of "Data/patch.patch": a header of 30 bytes. *)
Lemma OpenInternal_success_layout_witness :
  or_ret (open_ patch_path no_keys) = true /\
  exists data,
    Sample.disk "Data/patch.patch" = Some data /\
    fd_data (opened "Data/patch.patch") = data /\
    m_iHeaderSize (opened "Data/patch.patch") =
      26 + le_decode (take 4 (drop 6 data)) /\
    fd_pos (opened "Data/patch.patch") =
      m_iHeaderSize (opened "Data/patch.patch").
Proof.
  split; [by vm_compute|].
  destruct (OpenInternal_success_layout decrypt_key decrypt sha dongle junk
              Sample.disk patch_path no_keys new_patch_obj
              ltac:(by vm_compute)) as (data & Hd & H).
  cbv zeta in H. destruct H as (H1 & H2 & _ & H4 & _).
  exists data. split; [exact Hd|]. split; [exact H1|].
  split; [exact H2|exact H4].
Defined.

(** X2 at a patch file cut after 20 bytes, inside its verify block. *)
Lemma truncated_header_refused_witness :
  Sample2.disk "Data/cut.patch" = Some cut_header_file /\
  Z.of_nat (length cut_header_file) <
    26 + le_decode (take 4 (drop 6 cut_header_file)) /\
  or_ret (open2 new_patch_obj (path_at 4096 "Data/cut.patch") no_keys)
    = false /\
  or_globals (open2 new_patch_obj (path_at 4096 "Data/cut.patch") no_keys)
    = no_keys.
Proof.
  assert (Hdisk : Sample2.disk "Data/cut.patch" = Some cut_header_file)
    by (by vm_compute).
  assert (Hcut : Z.of_nat (length cut_header_file) <
                 26 + le_decode (take 4 (drop 6 cut_header_file)))
    by (by vm_compute).
  split; [exact Hdisk|]. split; [exact Hcut|].
  destruct (truncated_header_refused decrypt_key decrypt sha dongle junk
              Sample2.disk (path_at 4096 "Data/cut.patch") no_keys
              new_patch_obj cut_header_file Hdisk (or_intror Hcut))
    as (H1 & H2 & _).
  split; [exact H1|exact H2].
Defined.

(** X3 at an arcade file: the arcade object opens it, the patch object does
    not. *)
Lemma variants_exclusive_witness :
  m_sSecret new_arcade_obj = [] /\ m_sSecret new_patch_obj <> [] /\
  or_ret (open2 new_arcade_obj (path_at 4096 "Data/song.kry") no_keys)
    = true /\
  or_ret (open2 new_patch_obj (path_at 8192 "Data/song.kry") one_key)
    = false.
Proof.
  split; [reflexivity|]. split; [by vm_compute|]. split; [by vm_compute|].
  exact (variants_exclusive decrypt_key decrypt sha dongle junk Sample2.disk
           (path_at 4096 "Data/song.kry") (path_at 8192 "Data/song.kry")
           no_keys one_key new_arcade_obj new_patch_obj
           eq_refl eq_refl ltac:(by vm_compute) ltac:(by vm_compute)).
Defined.

(** X5 at the second open of "Data/patch.patch" through one address. *)
Lemma cache_hit_consults_no_deriver_witness :
  g_KnownKeys one_key !! c_str patch_path = Some (replicate 24 Byte.x33) /\
  open_ patch_path one_key =
  OpenInternal ctx decrypt_key decrypt no_hash no_hash junk Sample.disk
    patch_path one_key new_patch_obj.
Proof.
  split; [by vm_compute|].
  exact (proj1 (cache_hit_consults_no_deriver decrypt_key decrypt sha no_hash
                  dongle no_hash junk Sample.disk patch_path one_key
                  new_patch_obj (replicate 24 Byte.x33)
                  ltac:(by vm_compute))).
Defined.

(** X6 at the open of an arcade file. *)
Lemma arcade_open_uses_dongle_witness :
  m_sSecret new_arcade_obj = [] /\
  open2 new_arcade_obj (path_at 4096 "Data/song.kry") no_keys =
  OpenInternal ctx decrypt_key decrypt no_hash dongle junk Sample2.disk
    (path_at 4096 "Data/song.kry") no_keys new_arcade_obj.
Proof.
  split; [reflexivity|].
  exact (proj1 (arcade_open_uses_dongle decrypt_key decrypt sha no_hash dongle
                  junk Sample2.disk (path_at 4096 "Data/song.kry") no_keys
                  new_arcade_obj eq_refl)).
Defined.

(** X7 at the open of "Data/patch.patch". *)
Lemma patch_open_ignores_dongle_witness :
  m_sSecret new_patch_obj <> [] /\
  open_ patch_path no_keys =
  OpenInternal ctx decrypt_key decrypt sha no_hash junk Sample.disk
    patch_path no_keys new_patch_obj.
Proof.
  split; [by vm_compute|].
  exact (patch_open_ignores_dongle decrypt_key decrypt sha dongle no_hash junk
           Sample.disk patch_path no_keys new_patch_obj ltac:(by vm_compute)).
Defined.

(** X8 at a secret of 50 bytes: the patch secret followed by "abc". *)
Lemma long_secret_truncated_witness :
  length (m_sSecret new_long_secret_obj) = 50%nat /\
  take 47 (m_sSecret new_long_secret_obj) = ITG2_PATCH_KEY /\
  g_KnownKeys
    (or_globals
       (OpenInternal ctx decrypt_key decrypt sha dongle junk Sample.disk
          patch_path no_keys new_long_secret_obj)) !! 4096 =
  Some (take 24 (sha (subkey patch_meta ++
                      take 47 (m_sSecret new_long_secret_obj)))).
Proof.
  split; [by vm_compute|]. split; [by vm_compute|].
  exact (long_secret_truncated decrypt_key decrypt sha dongle junk Sample.disk
           patch_path no_keys new_long_secret_obj patch_file patch_meta
           ltac:(vm_compute; lia) ltac:(by vm_compute) ltac:(by vm_compute)
           ltac:(by vm_compute) ltac:(by vm_compute)).
Defined.

(** X9 at cursor 40 with the raw descriptor at 0 and at 999. *)
Lemma read_ignores_raw_position_witness :
  0 <= m_iHeaderSize (patch_obj patch_file 40 0) /\
  rr_buffer (RI_ 32 (set_fd_pos 999 (patch_obj patch_file 40 0))) =
  rr_buffer (RI_ 32 (patch_obj patch_file 40 0)).
Proof.
  split; [by vm_compute|].
  exact (proj1 (read_ignores_raw_position decrypt junk 32 999
                  (patch_obj patch_file 40 0) ltac:(by vm_compute))).
Defined.

(** X10 at plaintext offset 35, read as byte 25 of 30 from cursor 10 and as
    byte 2 of 5 from cursor 33. *)
Lemma overlapping_reads_agree_witness :
  read_ok 30 (patch_obj patch_file 10 0) /\
  read_ok 5 (patch_obj patch_file 33 77) /\
  rr_buffer (RI_ 30 (patch_obj patch_file 10 0)) !! 25%nat =
  rr_buffer (RI_ 5 (patch_obj patch_file 33 77)) !! 2%nat.
Proof.
  split; [split; by vm_compute|]. split; [split; by vm_compute|].
  exact (overlapping_reads_agree decrypt junk 30 5
           (patch_obj patch_file 10 0) (patch_obj patch_file 33 77) 25 2
           ltac:(split; by vm_compute) ltac:(split; by vm_compute)
           eq_refl eq_refl eq_refl
           ltac:(by vm_compute) ltac:(by vm_compute) ltac:(by vm_compute)).
Defined.


(** X12 at a file with two of its seven ciphertext blocks: a read of 48
    bytes from cursor 0 delivers byte 20, of the second block, as it
    should. *)
Lemma short_window_valid_prefix_witness :
  length two_block_file = 62%nat /\
  ~ read_ok 48 (patch_obj two_block_file 0 0) /\
  rr_buffer (RI_ 48 (patch_obj two_block_file 0 0)) !! 20%nat =
  Some (plain_byte ctx decrypt two_block_file 30 (replicate 24 Byte.x33) 20).
Proof.
  split; [by vm_compute|]. split.
  - intros [_ _ _ _ H]. vm_compute in H. by apply H.
  - exact (short_window_valid_prefix decrypt junk 48
             (patch_obj two_block_file 0 0) 20
             ltac:(by vm_compute) ltac:(by vm_compute) ltac:(by vm_compute)
             ltac:(by vm_compute) ltac:(by vm_compute) ltac:(by vm_compute)).
Defined.

(** X13 at "Data/patch.patch": 50 bytes from offset 40. *)
Lemma open_seek_read_witness :
  or_ret (open_ patch_path no_keys) = true /\
  40 + 50 <= m_iFileSize (opened "Data/patch.patch") /\
  rr_ret (read_ 50 (Seek 40 (opened "Data/patch.patch"))) = 50 /\
  m_iFilePos (rr_obj (read_ 50 (Seek 40 (opened "Data/patch.patch")))) =
    40 + 50.
Proof.
  split; [by vm_compute|]. split; [by vm_compute|].
  destruct (open_seek_read decrypt_key decrypt sha dongle junk Sample.disk
              patch_path no_keys new_patch_obj 40 50
              ltac:(by vm_compute) ltac:(by vm_compute) ltac:(by vm_compute)
              ltac:(by vm_compute) ltac:(by vm_compute) ltac:(by vm_compute))
    as (H1 & H2 & _).
  split; [exact H1|exact H2].
Defined.

(** X14 at two objects with the patch secret and the cursor at 10, one of
    them holding no file contents and a key schedule of its own. *)
Lemma Copy_reads_afresh_witness :
  patch_obj patch_file 10 0 <>
    set_ctx (replicate 24 Byte.x00) (patch_obj [] 10 500) /\
  Copy ctx decrypt_key decrypt sha dongle junk Sample.disk patch_path one_key
    (patch_obj patch_file 10 0) =
  Copy ctx decrypt_key decrypt sha dongle junk Sample.disk patch_path one_key
    (set_ctx (replicate 24 Byte.x00) (patch_obj [] 10 500)).
Proof.
  split; [intros H; apply (f_equal fd_pos) in H; vm_compute in H;
          discriminate H|].
  exact (Copy_reads_afresh decrypt_key decrypt sha dongle junk Sample.disk
           patch_path one_key (patch_obj patch_file 10 0)
           (set_ctx (replicate 24 Byte.x00) (patch_obj [] 10 500))
           eq_refl eq_refl).
Defined.

(** X15 at the object an open of "Data/patch.patch" leaves, with the cursor
    at 10. *)
Lemma Copy_faithful_witness :
  Sample.disk (chars patch_path) = Some (fd_data (patch_obj patch_file 10 64)) /\
  parse_header (m_sSecret (patch_obj patch_file 10 64)) patch_file =
    inr patch_meta /\
  (Copy ctx decrypt_key decrypt sha dongle junk Sample.disk patch_path one_key
     (patch_obj patch_file 10 64)).1 =
  Some (set_fd_pos 10 (patch_obj patch_file 10 64)).
Proof.
  split; [by vm_compute|]. split; [by vm_compute|].
  exact (proj1 (Copy_faithful decrypt_key decrypt sha dongle junk Sample.disk
                  patch_path one_key (patch_obj patch_file 10 64) patch_meta
                  ltac:(by vm_compute) ltac:(by vm_compute)
                  ltac:(by vm_compute) ltac:(by vm_compute)
                  ltac:(by vm_compute) ltac:(split; by vm_compute)
                  ltac:(by vm_compute))).
Defined.

(** Three opens of "Data/patch.patch" through one address derive the key
    once. *)
Lemma same_address_derived_once_witness :
  Forall (fun o => c_str o.1 = 4096) same_address_opens /\
  (derivations
     (checkpoints
        (open_all ctx decrypt_key decrypt sha dongle junk Sample.disk
           same_address_opens no_keys).2) <= 1)%nat.
Proof.
  split; [repeat constructor|].
  exact (proj1 (same_address_derived_once decrypt_key decrypt sha dongle junk
                  Sample.disk 4096 same_address_opens
                  ltac:(repeat constructor) no_keys)).
Defined.

End MoreRuns.
